(** * Mantle bridge withdrawal monitor: proof engine and lifecycle scheduler

    A shallow embedding of the Go sources
    - [cross_chain/enhanced_parser.go] (event decoding, message status,
      prove / finalize, storage-slot and output-root computation) and
    - the scheduler ([WithdrawalScheduler], [CheckWithdrawal],
      [CheckAllWithdrawals]),
    followed by the properties of the specification that are settled on it.

    Conventions.
    - Go byte slices and fixed arrays are [list Byte.byte]; Go strings are
      [string]; [uint64], [int64] and [big.Int] values are [Z], with the
      wrap-around of every conversion written out.
    - The two chains are read through a record of responses ([World]): one
      snapshot per tick.  Calls that only print are left out.
    - A Go function that returns [(T, error)] returns [outcome T]; a nil
      dereference is the third constructor, [Panic]. *)

From Stdlib Require Import ZArith NArith Lia List Ascii String Bool Sorted.
From Stdlib Require Strings.Byte.
From stdpp Require Import gmap strings list.

Import ListNotations.
Local Open Scope Z_scope.

(** ** Bytes *)

Abbreviation byte := Byte.byte.
Abbreviation bytes := (list Byte.byte).

Definition byte_of_N (n : N) : byte :=
  match Byte.of_N (n mod 256)%N with
  | Some b => b
  | None => Byte.x00
  end.

Definition zero_bytes (n : nat) : bytes := repeat Byte.x00 n.

(** Big-endian value of a byte slice: [new(big.Int).SetBytes(b)]. *)
Definition big_SetBytes (b : bytes) : Z :=
  fold_left (fun acc x => acc * 256 + Z.of_N (Byte.to_N x)) b 0.

(** [copy(dst[:], src)] into a zeroed array of [n] bytes. *)
Definition copy_into (n : nat) (src : bytes) : bytes :=
  firstn n (src ++ zero_bytes n).

(** ** Integer conversions of Go *)

Definition two64 : Z := 2 ^ 64.
Definition two63 : Z := 2 ^ 63.

(** The conversions [uint64(x)] and [int64(x)] between machine integers:
    the low 64 bits, read unsigned or in two's complement. *)
Definition to_uint64 (x : Z) : Z := x mod two64.
Definition to_int64 (x : Z) : Z := (x + two63) mod two64 - two63.

(** [big.Int.Uint64()] and [big.Int.Int64()]: the low 64 bits of the
    magnitude, negated for a negative value in the signed case. *)
Definition big_Uint64 (x : Z) : Z := Z.abs x mod two64.
Definition big_Int64 (x : Z) : Z :=
  let v := to_int64 (Z.abs x) in
  if x <? 0 then to_int64 (- v) else v.

Definition int64_add (a b : Z) : Z := to_int64 (a + b).
Definition int64_sub (a b : Z) : Z := to_int64 (a - b).
Definition uint64_sub (a b : Z) : Z := to_uint64 (a - b).

(** ** encoding/hex and go-ethereum's common package *)

Module Hex.

Definition hextable : string := "0123456789abcdef".

Definition digit (n : N) : ascii :=
  match String.get (N.to_nat n) hextable with
  | Some c => c
  | None => "0"%char
  end.

(** [hex.EncodeToString]. *)
Fixpoint EncodeToString (src : bytes) : string :=
  match src with
  | [] => EmptyString
  | b :: rest =>
      String (digit (N.shiftr (Byte.to_N b) 4))
        (String (digit (N.land (Byte.to_N b) 15)) (EncodeToString rest))
  end.

(** [reverseHexTable]: the value of a hex digit of either case. *)
Definition fromHexChar (c : ascii) : option N :=
  let n := N_of_ascii c in
  if ((48 <=? n) && (n <=? 57))%N then Some (n - 48)%N
  else if ((97 <=? n) && (n <=? 102))%N then Some (n - 87)%N
  else if ((65 <=? n) && (n <=? 70))%N then Some (n - 55)%N
  else None.

(** [hex.Decode]: the bytes decoded before the first error, and whether
    the whole input was consumed. *)
Fixpoint Decode (s : string) : bytes * bool :=
  match s with
  | EmptyString => ([], true)
  | String p EmptyString => ([], false)
  | String p (String q rest) =>
      match fromHexChar p, fromHexChar q with
      | Some a, Some b =>
          let r := Decode rest in
          (byte_of_N (N.lor (N.shiftl a 4) b) :: fst r, snd r)
      | _, _ => ([], false)
      end
  end.

(** [common.Hex2Bytes]: the error of [hex.DecodeString] is dropped. *)
Definition Hex2Bytes (s : string) : bytes := fst (Decode s).

Definition has0xPrefix (s : string) : bool :=
  match s with
  | String a (String b _) =>
      Ascii.eqb a "0" && (Ascii.eqb b "x" || Ascii.eqb b "X")
  | _ => false
  end.

(** [common.FromHex]. *)
Definition FromHex (s : string) : bytes :=
  let s1 := if has0xPrefix s then String.substring 2 (String.length s - 2) s else s in
  let s2 := if Nat.odd (String.length s1) then String "0" s1 else s1 in
  Hex2Bytes s2.

(** [Hash.SetBytes] / [Address.SetBytes]: crop from the left, pad on the
    left with zeros. *)
Definition SetBytes (n : nat) (b : bytes) : bytes :=
  let b' := skipn (List.length b - n) b in
  zero_bytes (n - List.length b') ++ b'.

Definition HashLength : nat := 32.
Definition AddressLength : nat := 20.

Definition BytesToHash (b : bytes) : bytes := SetBytes HashLength b.
Definition HexToHash (s : string) : bytes := BytesToHash (FromHex s).
Definition HexToAddress (s : string) : bytes := SetBytes AddressLength (FromHex s).

(** [big.Int.Bytes()] of a non-negative value: big-endian, no leading
    zero. *)
Definition big_Bytes (x : Z) : bytes :=
  let fix go (fuel : nat) (n : N) (acc : bytes) : bytes :=
    match fuel with
    | O => acc
    | S fuel' =>
        if (n =? 0)%N then acc
        else go fuel' (N.shiftr n 8) (byte_of_N n :: acc)
    end in
  go (S (N.to_nat (N.log2 (Z.to_N x)))) (Z.to_N x) [].

Definition BigToHash (x : Z) : bytes := BytesToHash (big_Bytes x).

(** [Hash.Hex] and [Hash.String]: ["0x"] and the lower-case digits. *)
Definition Hash_Hex (h : bytes) : string :=
  String "0" (String "x" (EncodeToString h)).

Definition Bytes2Hex (b : bytes) : string := EncodeToString b.

(** [strings.EqualFold] on ASCII text. *)
Definition lower (c : ascii) : ascii :=
  let n := N_of_ascii c in
  if ((65 <=? n) && (n <=? 90))%N then ascii_of_N (n + 32) else c.

Fixpoint EqualFold (s t : string) : bool :=
  match s, t with
  | EmptyString, EmptyString => true
  | String a s', String b t' => Ascii.eqb (lower a) (lower b) && EqualFold s' t'
  | _, _ => false
  end.

End Hex.

(** ** Keccak-256 ([crypto.Keccak256Hash])

    The sponge over Keccak-f[1600] with rate 136 and the original Keccak
    domain byte [0x01].  Lanes are 64-bit values in [N], the state is the
    list of the 25 lanes, lane [(x, y)] at position [x + 5 y]. *)

Module Keccak.
Local Open Scope N_scope.

Definition mask64 : N := 0xFFFFFFFFFFFFFFFF.

Definition rotl64 (x : N) (n : N) : N :=
  N.lor (N.land (N.shiftl x n) mask64) (N.shiftr x (64 - n)).

Definition lane (st : list N) (x y : nat) : N :=
  nth ((x mod 5) + 5 * (y mod 5))%nat st 0.

Definition rotc : list N :=
  [ 0;  1; 62; 28; 27;
   36; 44;  6; 55; 20;
    3; 10; 43; 25; 39;
   41; 45; 15; 21;  8;
   18;  2; 61; 56; 14].

Definition round_constants : list N :=
  [0x0000000000000001; 0x0000000000008082; 0x800000000000808A;
   0x8000000080008000; 0x000000000000808B; 0x0000000080000001;
   0x8000000080008081; 0x8000000000008009; 0x000000000000008A;
   0x0000000000000088; 0x0000000080008009; 0x000000008000000A;
   0x000000008000808B; 0x800000000000008B; 0x8000000000008089;
   0x8000000000008003; 0x8000000000008002; 0x8000000000000080;
   0x000000000000800A; 0x800000008000000A; 0x8000000080008081;
   0x8000000000008080; 0x0000000080000001; 0x8000000080008008].

Definition coords : list (nat * nat) :=
  flat_map (fun y => List.map (fun x => (x, y)) (seq 0 5)) (seq 0 5).

Definition theta (st : list N) : list N :=
  let c x := N.lxor (lane st x 0) (N.lxor (lane st x 1)
               (N.lxor (lane st x 2) (N.lxor (lane st x 3) (lane st x 4)))) in
  let d x := N.lxor (c (x + 4)%nat) (rotl64 (c (x + 1)%nat) 1) in
  List.map (fun p => N.lxor (lane st (fst p) (snd p)) (d (fst p))) coords.

(** rho and pi together: B[y][2x+3y] = rot(A[x][y]). *)
Definition rho_pi (st : list N) : list N :=
  List.map (fun p =>
         let x := ((fst p + 3 * snd p) mod 5)%nat in
         let y := fst p in
         rotl64 (lane st x y) (nth (x + 5 * y)%nat rotc 0)) coords.

Definition chi (st : list N) : list N :=
  List.map (fun p =>
         let x := fst p in let y := snd p in
         N.lxor (lane st x y)
           (N.land (N.lxor (lane st (x + 1) y) mask64) (lane st (x + 2) y)))
      coords.

Definition iota (rc : N) (st : list N) : list N :=
  match st with
  | a :: rest => N.lxor a rc :: rest
  | [] => []
  end.

Definition round (st : list N) (rc : N) : list N :=
  iota rc (chi (rho_pi (theta st))).

Definition keccak_f (st : list N) : list N :=
  fold_left round round_constants st.

Definition rate : nat := 136.

(** Little-endian value of up to eight bytes. *)
Definition load_lane (b : bytes) : N :=
  fold_right (fun x acc => Byte.to_N x + 256 * acc) 0 b.

Fixpoint lanes_of (n : nat) (b : bytes) : list N :=
  match n with
  | O => []
  | S n' => load_lane (firstn 8 b) :: lanes_of n' (skipn 8 b)
  end.

Fixpoint xor_lanes (st blk : list N) : list N :=
  match st, blk with
  | s :: st', b :: blk' => N.lxor s b :: xor_lanes st' blk'
  | _, [] => st
  | [], _ => []
  end.

Fixpoint absorb (nblocks : nat) (data : bytes) (st : list N) : list N :=
  match nblocks with
  | O => st
  | S n' =>
      absorb n' (skipn rate data)
        (keccak_f (xor_lanes st (lanes_of 17 (firstn rate data))))
  end.

Definition pad (ds : N) (m : bytes) : bytes :=
  let q := (rate - (List.length m mod rate))%nat in
  match q with
  | 1%nat => m ++ [byte_of_N (N.lor ds 0x80)]
  | _ => m ++ [byte_of_N ds] ++ zero_bytes (q - 2) ++ [byte_of_N 0x80]
  end.

Definition state_byte (st : list N) (i : nat) : byte :=
  byte_of_N (N.shiftr (nth (i / 8)%nat st 0) (8 * N.of_nat (i mod 8))).

Definition sponge (ds : N) (m : bytes) : bytes :=
  let p := pad ds m in
  let st := absorb (List.length p / rate) p (repeat 0 25) in
  List.map (state_byte st) (seq 0 32).

Definition Keccak256 (m : bytes) : bytes := sponge 0x01 m.

End Keccak.

Definition Keccak256Hash (data : bytes) : bytes := Keccak.Keccak256 data.

(** ** Errors and outcomes *)

Inductive error : Type :=
| ErrClient (msg : string)
    (** reported by an RPC client, a contract binding or a library *)
| ErrNew (msg : string)
    (** [fmt.Errorf] with no wrapped error *)
| ErrWrap (msg : string) (cause : error)
    (** [fmt.Errorf("msg: %w", err)] *)
| ErrBlockAfterOutput (txBlock outBlock : Z)
    (** "transaction block %d is after L2 output block %d, need to wait for
        a newer output" *)
| ErrOutputRootMismatch (calculated expected : bytes).
    (** "output root mismatch: calculated %s, expected %s" *)

(** What a call to a node or a library answers. *)
Inductive reply (A : Type) : Type :=
| Reply (a : A)
| Fault (e : error).
Arguments Reply {A} a.
Arguments Fault {A} e.

(** What a function of the program does: return a value, return an error,
    or crash the process (nil dereference, index out of range). *)
Inductive outcome (A : Type) : Type :=
| Ok (a : A)
| Err (e : error)
| Panic (what : string).
Arguments Ok {A} a.
Arguments Err {A} e.
Arguments Panic {A} what.

Definition is_Ok {A} (o : outcome A) : bool :=
  match o with Ok _ => true | _ => false end.
Definition is_Err {A} (o : outcome A) : bool :=
  match o with Err _ => true | _ => false end.

(** ** Data model *)

(** [types.Log], [types.Receipt], [types.Header]. *)
Record Log := mkLog {
  log_Address : bytes;
  log_Topics : list bytes;
  log_Data : bytes;
  log_Index : Z;
  log_BlockNumber : Z
}.

Record Receipt := mkReceipt {
  rcpt_TxHash : bytes;
  rcpt_BlockNumber : Z;
  rcpt_Logs : list Log
}.

Record Header := mkHeader {
  hdr_Root : bytes;
  hdr_Hash : bytes
}.

(** The decoded events of the generated bindings. *)
Record SentMessage := mkSentMessage {
  sm_Target : bytes;
  sm_Sender : bytes;
  sm_Message : bytes;
  sm_MessageNonce : Z;
  sm_GasLimit : Z
}.

Record SentMessageExtension1 := mkSentMessageExtension1 {
  sme_Sender : bytes;
  sme_MntValue : option Z;
  sme_EthValue : option Z
}.

Record MessagePassed := mkMessagePassed {
  mp_Nonce : Z;
  mp_Sender : bytes;
  mp_Target : bytes;
  mp_MntValue : Z;
  mp_EthValue : Z;
  mp_GasLimit : Z;
  mp_Data : bytes;
  mp_WithdrawalHash : bytes
}.

(** [Message]: pointers are options, [nil] is [None]. *)
Record Message := mkMessage {
  TxHash : string;
  BlockNumber : Z;
  LogIndex : Z;
  Direction : string;
  Status : Z;
  MsgNonce : option Z;
  WithdrawalHash : string;
  MntValue : option Z;
  EthValue : option Z;
  SentMessageEvent : option SentMessage;
  SentMessageExtension1Event : option SentMessageExtension1;
  MessagePassedEvent : option MessagePassed
}.

(** The zero value [Message{}]. *)
Definition Message_zero : Message :=
  mkMessage EmptyString 0 0 EmptyString 0 None EmptyString None None None None None.

(** [TypesOutputProposal] and the result of [provenWithdrawals]. *)
Record OutputProposal := mkOutputProposal {
  op_OutputRoot : bytes;
  op_Timestamp : Z;
  op_L2BlockNumber : Z
}.

Record ProvenWithdrawal := mkProvenWithdrawal {
  pw_OutputRoot : bytes;
  pw_Timestamp : Z;
  pw_L2OutputIndex : Z
}.

(** The answer of [eth_getProof]. *)
Record StorageEntry := mkStorageEntry {
  se_Key : string;
  se_Value : string;
  se_Proof : list string
}.

Record GetProofResult := mkGetProofResult {
  gp_AccountProof : list string;
  gp_StorageProof : list StorageEntry;
  gp_StorageHash : string
}.

Record WithdrawalProof := mkWithdrawalProof {
  wp_WithdrawalProof : list bytes;
  wp_MessagePasserStorageRoot : bytes;
  wp_LatestBlockhash : bytes;
  wp_StateRoot : bytes
}.

(** [TypesOutputRootProof] and [TypesWithdrawalTransaction]. *)
Record OutputRootProof := mkOutputRootProof {
  orp_Version : bytes;
  orp_StateRoot : bytes;
  orp_MessagePasserStorageRoot : bytes;
  orp_LatestBlockhash : bytes
}.

Record WithdrawalTransaction := mkWithdrawalTransaction {
  wt_Nonce : option Z;
  wt_Sender : bytes;
  wt_Target : bytes;
  wt_MntValue : option Z;
  wt_EthValue : option Z;
  wt_GasLimit : Z;
  wt_Data : bytes
}.

(** Contract addresses, as configured. *)
Record L1Contracts := mkL1Contracts {
  StateCommitmentChain : string;
  CanonicalTransactionChain : string;
  BondManager : string;
  AddressManager : string;
  L1CrossDomainMessenger : string;
  L1StandardBridge : string;
  OptimismPortal : string;
  L2OutputOracle : string
}.

Record BridgeContracts := mkBridgeContracts {
  L1Bridge : string;
  L2Bridge : string;
  Adapter : string;
  L2CrossDomainMessenger : string;
  L2ToL1MessagePasser : string
}.

Record CrossChainContracts := mkCrossChainContracts {
  L1 : L1Contracts;
  Bridges : BridgeContracts
}.

(** [CrossChainMessenger] without its two clients, which are [World]. *)
Record CrossChainMessenger := mkCrossChainMessenger {
  KMSKeyID : string;
  KMSClient : bool;       (** the KMS client is not nil *)
  PrivateKey : string;
  WalletAddress : string;
  Contracts : CrossChainContracts
}.

(** The defaults of [CreateCrossChainMessenger]. *)
Definition default_contracts : CrossChainContracts :=
  mkCrossChainContracts
    (mkL1Contracts
       "0x0000000000000000000000000000000000000000"
       "0x0000000000000000000000000000000000000000"
       "0x0000000000000000000000000000000000000000"
       "0x6968f3F16C3e64003F02E121cf0D5CCBf5625a42"
       "0x676A795fe6E43C17c668de16730c3F690FEB7120"
       "0x95fC37A27a2f68e3A647CDc081F0A89bb47c3012"
       "0xc54cb22944F2bE476E02dECfCD7e3E7d3e15A8Fb"
       "0x31d543e7BE1dA6eFDc2206Ef7822879045B9f481")
    (mkBridgeContracts
       "0x95fC37A27a2f68e3A647CDc081F0A89bb47c3012"
       "0x4200000000000000000000000000000000000010"
       EmptyString
       "0x4200000000000000000000000000000000000007"
       "0x4200000000000000000000000000000000000016").

(** Signing options and the two L1 transactions of the portal. *)
Inductive TransactOpts : Type :=
| KMSOpts (keyID : string) (chainID : Z)
| KeyOpts (key : string) (chainID : Z).

Inductive L1Call : Type :=
| ProveWithdrawalTransaction (portal : bytes) (opts : TransactOpts)
    (tx : WithdrawalTransaction) (l2OutputIndex : Z)
    (outputRootProof : OutputRootProof) (withdrawalProof : list bytes)
| FinalizeWithdrawalTransaction (portal : bytes) (opts : TransactOpts)
    (tx : WithdrawalTransaction).

Record FilterQuery := mkFilterQuery {
  fq_FromBlock : Z;
  fq_ToBlock : Z;
  fq_Addresses : list bytes;
  fq_Topics : list (list bytes)
}.

(** ** The world: what the two nodes, the signer and the clock answer

    One value of [World] is one snapshot: every read of a tick sees it.
    The constructors of the contract bindings parse a constant ABI and are
    taken not to fail. *)
Record World := mkWorld {
  (** L2 client *)
  L2_TransactionReceipt : bytes -> reply Receipt;
  L1_TransactionReceipt : bytes -> reply Receipt;
  L2_HeaderByNumber : Z -> reply Header;
  L2_eth_getProof : bytes -> bytes -> Z -> reply GetProofResult;
  (** L1 reads: portal and output oracle, by contract address *)
  Portal_FinalizedWithdrawals : bytes -> bytes -> reply bool;
  Portal_ProvenWithdrawals : bytes -> bytes -> reply ProvenWithdrawal;
  Oracle_GetL2OutputIndexAfter : bytes -> Z -> reply Z;
  Oracle_GetL2Output : bytes -> Z -> reply OutputProposal;
  L1_BlockNumber : reply Z;
  L1_FilterLogs : FilterQuery -> reply (list Log);
  L1_ChainID : reply Z;
  (** signer *)
  KMS_Transactor : string -> Z -> reply TransactOpts;
  Keyed_Transactor : string -> Z -> reply TransactOpts;
  HexToECDSA : string -> reply string;
  (** L1 writes: submission, then [bind.WaitMined] giving the receipt status *)
  L1_Transact : L1Call -> reply unit;
  L1_WaitMined : L1Call -> reply Z;
  (** [time.Now().Unix()] *)
  Now : Z
}.

(** Code of the repository's dependencies that the engine calls: the
    generated event decoders and [helper.MaybeAddProofNode]. *)
Record Library := mkLibrary {
  ParseSentMessage : Log -> reply SentMessage;
  ParseSentMessageExtension1 : Log -> reply SentMessageExtension1;
  ParseMessagePassed : Log -> reply MessagePassed;
  MaybeAddProofNode : bytes -> list bytes -> reply (list bytes)
}.

(** ** Event decoder and message status (enhanced_parser.go) *)

Definition sentMessageTopic : string :=
  "0xcb0f7ffd78f9aee47a248fae8db181db6eee833039123e026dcbff529522e52a".
Definition sentMessageExtension1Topic : string :=
  "0xcf00802ba1f8c659140235227979ca08afaba336a9f9fdc4a5107ed9e8013d08".
Definition messagePassedTopic : string :=
  "0x5da382596b838a63b4248e533d8e399b3b0f13ba6c6679f670489d44716cb173".

(** [len(log.Topics) > 0 && strings.EqualFold(log.Topics[0].String(), topic)] *)
Definition topic_matches (l : Log) (topic : string) : bool :=
  match log_Topics l with
  | t0 :: _ => Hex.EqualFold (Hex.Hash_Hex t0) topic
  | [] => false
  end.

#[global] Instance byte_eq_dec : EqDecision Byte.byte := Byte.byte_eq_dec.

(** Array comparison [a == b]. *)
Definition bytes_eqb (a b : bytes) : bool := bool_decide (a = b).

(** A decoder result with its error dropped: [x, _ := parse(log)]. *)
Definition drop_error {A} (r : reply A) : option A :=
  match r with
  | Reply a => Some a
  | Fault _ => None
  end.

Definition getCurrentTimestamp (w : World) : Z := Now w.

Section Messenger.

Variable lib : Library.
Variable m : CrossChainMessenger.

Definition parseSentMessageWithABI (l : Log) : reply SentMessage :=
  match ParseSentMessage lib l with
  | Reply e => Reply e
  | Fault e => Fault (ErrWrap "failed to parse SentMessage with ABI" e)
  end.

Definition parseSentMessageExtension1WithABI (l : Log) : reply SentMessageExtension1 :=
  match ParseSentMessageExtension1 lib l with
  | Reply e => Reply e
  | Fault e => Fault (ErrWrap "failed to parse SentMessage with ABI" e)
  end.

Definition parseMessagePassedWithABI (l : Log) : reply MessagePassed :=
  match ParseMessagePassed lib l with
  | Reply e => Reply e
  | Fault e => Fault (ErrWrap "failed to parse MessagePassed with ABI" e)
  end.

(** The loop body of [parseSentMessageLogsEnhanced]: a later matching log
    replaces the message built from an earlier one. *)
Definition sentMessage_step (receipt : Receipt) (message : Message) (l : Log) : Message :=
  if negb (bytes_eqb (log_Address l)
             (Hex.HexToAddress (L2CrossDomainMessenger (Bridges (Contracts m)))))
  then message
  else
    let blockNumber := big_Uint64 (rcpt_BlockNumber receipt) in
    let logIndex := to_uint64 (log_Index l) in
    if topic_matches l sentMessageTopic then
      let eventData := drop_error (parseSentMessageWithABI l) in
      mkMessage (Hex.Hash_Hex (rcpt_TxHash receipt)) blockNumber logIndex
        "L2_TO_L1" 0 None EmptyString None None eventData None None
    else message.

Definition parseSentMessageLogsEnhanced (receipt : Receipt) : outcome Message :=
  Ok (fold_left (sentMessage_step receipt) (rcpt_Logs receipt) Message_zero).

Definition sentMessageExtension1_step
    (acc : option SentMessageExtension1) (l : Log) : option SentMessageExtension1 :=
  if negb (bytes_eqb (log_Address l)
             (Hex.HexToAddress (L2ToL1MessagePasser (Bridges (Contracts m)))))
  then acc
  else if topic_matches l sentMessageExtension1Topic
       then drop_error (parseSentMessageExtension1WithABI l)
       else acc.

Definition parseSentMessageExtension1LogsEnhanced (receipt : Receipt)
  : outcome (option SentMessageExtension1) :=
  Ok (fold_left sentMessageExtension1_step (rcpt_Logs receipt) None).

(** Whether a log is a [MessagePassed] log of the message passer. *)
Definition is_messagePassed_log (l : Log) : bool :=
  bytes_eqb (log_Address l)
    (Hex.HexToAddress (L2ToL1MessagePasser (Bridges (Contracts m))))
  && topic_matches l messagePassedTopic.

Definition messagePassed_step
    (acc : option MessagePassed) (l : Log) : option MessagePassed :=
  if negb (bytes_eqb (log_Address l)
             (Hex.HexToAddress (L2ToL1MessagePasser (Bridges (Contracts m)))))
  then acc
  else if topic_matches l messagePassedTopic
       then drop_error (parseMessagePassedWithABI l)
       else acc.

(** Returns the event pointer (possibly nil) and always a nil error. *)
Definition parseMessagePassedLogsEnhanced (receipt : Receipt)
  : outcome (option MessagePassed) :=
  Ok (fold_left messagePassed_step (rcpt_Logs receipt) None).

Definition getTransactionReceipt (w : World) (txHash : string) (network : string)
  : outcome Receipt :=
  let r := if String.eqb network "L2"
           then L2_TransactionReceipt w (Hex.HexToHash txHash)
           else L1_TransactionReceipt w (Hex.HexToHash txHash) in
  match r with
  | Reply receipt => Ok receipt
  | Fault e => Err (ErrWrap "failed to get transaction receipt" e)
  end.

Definition portal_address : bytes :=
  Hex.HexToAddress (OptimismPortal (L1 (Contracts m))).

Definition checkFinalizationStatus (w : World) (withdrawalHash : string) : outcome bool :=
  match Portal_FinalizedWithdrawals w portal_address (Hex.HexToHash withdrawalHash) with
  | Reply result => Ok result
  | Fault e => Err e
  end.

Definition zero_root_hex : string :=
  "0000000000000000000000000000000000000000000000000000000000000000".

(** Returns [(isProven, timestamp)]: proven is "the output root is not
    all zeros". *)
Definition checkProvenStatus (w : World) (withdrawalHash : string) : outcome (bool * Z) :=
  match Portal_ProvenWithdrawals w portal_address (Hex.HexToHash withdrawalHash) with
  | Reply result =>
      Ok (negb (String.eqb (Hex.Bytes2Hex (pw_OutputRoot result)) zero_root_hex),
          pw_Timestamp result)
  | Fault e => Err e
  end.

Definition CheckProvenStatus := checkProvenStatus.

Definition GetWithdrawalHash (message : Message) : string := WithdrawalHash message.

(** What [getMessageStatus] prints about finalize readiness; it does not
    influence the status returned. *)
Inductive readiness : Type :=
| CanFinalizeNow
| NotYetProven
| WaitChallengePeriod.

Definition readiness_of (currentTimeStamp timeStamp : Z) : readiness :=
  let provenTimePlus12Hours := timeStamp + 43200 in
  if (currentTimeStamp >=? provenTimePlus12Hours) && (timeStamp >? 0)
  then CanFinalizeNow
  else if timeStamp =? 0 then NotYetProven
  else WaitChallengePeriod.

Definition getMessageStatus (w : World) (message : Message) : outcome Z :=
  let finalized :=
    match checkFinalizationStatus w (WithdrawalHash message) with
    | Ok isFinalized => isFinalized
    | _ => false
    end in
  if finalized then Ok 2
  else
    match checkProvenStatus w (WithdrawalHash message) with
    | Ok (isProven, timeStamp) =>
        let _ := readiness_of (getCurrentTimestamp w) timeStamp in
        if isProven then Ok 1 else Ok 0
    | _ => Ok 0
    end.

(** [getMessages]: [messagePassed.Nonce] is read right after
    [parseMessagePassedLogsEnhanced], whose error is always nil. *)
Definition getMessages (w : World) (txHash : string) : outcome Message :=
  match getTransactionReceipt w txHash "L2" with
  | Err e => Err (ErrWrap "failed to get transaction receipt" e)
  | Panic p => Panic p
  | Ok receipt =>
      match parseSentMessageLogsEnhanced receipt with
      | Err e => Err (ErrWrap "failed to parse logs" e)
      | Panic p => Panic p
      | Ok message =>
          match parseMessagePassedLogsEnhanced receipt with
          | Err e => Err (ErrWrap "failed to parse parseMessagePassedLogsEnhanced" e)
          | Panic p => Panic p
          | Ok None => Panic "nil pointer dereference: messagePassed.Nonce"
          | Ok (Some messagePassed) =>
              let ext :=
                match parseSentMessageExtension1LogsEnhanced receipt with
                | Ok e => e
                | _ => None
                end in
              let mnt :=
                match ext with
                | Some e => match sme_MntValue e with Some v => Some v | None => Some 0 end
                | None => Some 0
                end in
              let eth :=
                match ext with
                | Some e => match sme_EthValue e with Some v => Some v | None => Some 0 end
                | None => Some 0
                end in
              let message1 :=
                mkMessage (TxHash message) (BlockNumber message) (LogIndex message)
                  (Direction message) (Status message)
                  (Some (mp_Nonce messagePassed))
                  (Hex.EncodeToString (mp_WithdrawalHash messagePassed))
                  mnt eth (SentMessageEvent message) ext (Some messagePassed) in
              match getMessageStatus w message1 with
              | Panic p => Panic p
              | r =>
                  let status := match r with Ok s => s | _ => 0 end in
                  Ok (mkMessage (TxHash message1) (BlockNumber message1)
                        (LogIndex message1) (Direction message1) status
                        (MsgNonce message1) (WithdrawalHash message1)
                        (MntValue message1) (EthValue message1)
                        (SentMessageEvent message1)
                        (SentMessageExtension1Event message1)
                        (MessagePassedEvent message1))
              end
          end
      end
  end.

Definition GetMessages := getMessages.

End Messenger.

(** ** Proof engine (enhanced_parser.go, second part) *)

Section Engine.

Variable lib : Library.
Variable m : CrossChainMessenger.

(** [getL2OutputIndex]: [getL2OutputIndexAfter(big.NewInt(int64(blockNumber)))],
    result cut to [uint64]. *)
Definition getL2OutputIndex (w : World) (l2OutputOracleAddress : string)
    (blockNumber : Z) : outcome Z :=
  match Oracle_GetL2OutputIndexAfter w (Hex.HexToAddress l2OutputOracleAddress)
          (to_int64 blockNumber) with
  | Reply result => Ok (big_Uint64 result)
  | Fault e => Err (ErrWrap "failed to call getL2OutputIndexAfter" e)
  end.

Definition getL2OutputData (w : World) (l2OutputOracleAddress : string)
    (outputIndex : Z) : outcome OutputProposal :=
  match Oracle_GetL2Output w (Hex.HexToAddress l2OutputOracleAddress)
          (to_int64 outputIndex) with
  | Reply result => Ok result
  | Fault e => Err e
  end.

(** [checkCanFinalize]: the oracle address is the literal of the source. *)
Definition checkCanFinalize (w : World) (withdrawalHash : string)
    (message : Message) : outcome bool :=
  let l2OutputOracleAddress := "0x31d543e7BE1dA6eFDc2206Ef7822879045B9f481" in
  match getL2OutputIndex w l2OutputOracleAddress (BlockNumber message) with
  | Panic p => Panic p
  | Err _ => Ok true
  | Ok outputIndex =>
      match getL2OutputData w l2OutputOracleAddress outputIndex with
      | Panic p => Panic p
      | Err _ => Ok true
      | Ok outputData =>
          let challengePeriod := 12 * 60 * 60 in
          let currentTime := getCurrentTimestamp w in
          let timeElapsed :=
            int64_sub currentTime (big_Int64 (op_Timestamp outputData)) in
          let canFinalize := timeElapsed >=? challengePeriod in
          Ok canFinalize
      end
  end.

(** [calculateSentMessagesSlot]: keccak of the hash and mapping slot 0. *)
Definition calculateSentMessagesSlot (withdrawalHash : string) : bytes :=
  let withdrawalHashBytes := Hex.HexToHash withdrawalHash in
  let mappingSlot := Hex.BigToHash 0 in
  let data := withdrawalHashBytes ++ mappingSlot in
  Keccak256Hash data.

(** [calculateOutputRoot]. *)
Definition calculateOutputRoot (proof : OutputRootProof) : bytes :=
  let data := orp_Version proof ++ orp_StateRoot proof
              ++ orp_MessagePasserStorageRoot proof
              ++ orp_LatestBlockhash proof in
  let hash := Keccak256Hash data in
  copy_into 32 hash.

(** [generateWithdrawalProofForBlock].  A storage value other than
    ["0x1"] / ["0x01"] only prints a warning.  The loop that prints the
    proof reads [proof[0]] of every element. *)
Definition generateWithdrawalProofForBlock (w : World) (message : Message)
    (blockNumber : Z) : outcome WithdrawalProof :=
  let messagePasserAddr :=
    Hex.HexToAddress (L2ToL1MessagePasser (Bridges (Contracts m))) in
  let blockNum := to_int64 blockNumber in
  match L2_HeaderByNumber w blockNum with
  | Fault e => Err (ErrWrap "failed to get block header" e)
  | Reply block =>
      let slot := calculateSentMessagesSlot (WithdrawalHash message) in
      match L2_eth_getProof w messagePasserAddr slot (big_Uint64 blockNum) with
      | Fault e => Err (ErrWrap "failed to call eth_getProof" e)
      | Reply proofResult =>
          let storageHash := Hex.HexToHash (gp_StorageHash proofResult) in
          let messagePasserStorageRoot := copy_into 32 storageHash in
          match gp_StorageProof proofResult with
          | [] => Err (ErrNew "no storage proof returned for withdrawal hash")
          | sp0 :: _ =>
              let storageValue := se_Value sp0 in
              let warned :=
                negb (String.eqb storageValue "0x1")
                && negb (String.eqb storageValue "0x01") in
              let withdrawalProof := List.map Hex.FromHex (se_Proof sp0) in
              let slotArray := copy_into 32 slot in
              match MaybeAddProofNode lib slotArray withdrawalProof with
              | Fault e => Err (ErrWrap "failed to apply MaybeAddProofNode" e)
              | Reply withdrawalProof' =>
                  if existsb (fun proof => Nat.eqb (List.length proof) 0) withdrawalProof'
                  then Panic "index out of range: proof[0]"
                  else
                    let stateRoot := copy_into 32 (hdr_Root block) in
                    Ok (mkWithdrawalProof withdrawalProof'
                          messagePasserStorageRoot (hdr_Hash block) stateRoot)
              end
          end
      end
  end.

Definition generateWithdrawalProof (w : World) (message : Message)
  : outcome WithdrawalProof :=
  generateWithdrawalProofForBlock w message (BlockNumber message).

Definition getKMSTransactOpts (w : World) : outcome TransactOpts :=
  if negb (KMSClient m) then Err (ErrNew "KMS client not initialized")
  else
    match L1_ChainID w with
    | Fault e => Err (ErrWrap "failed to get chain ID" e)
    | Reply chainID =>
        match KMS_Transactor w (KMSKeyID m) chainID with
        | Fault e => Err (ErrWrap "failed to create KMS transactor" e)
        | Reply transactor => Ok transactor
        end
    end.

Definition trim0x (s : string) : string :=
  match s with
  | String "0" (String "x" rest) => rest
  | _ => s
  end.

Definition getPrivateKeyTransactOpts (w : World) : outcome TransactOpts :=
  match HexToECDSA w (trim0x (PrivateKey m)) with
  | Fault e => Err (ErrWrap "invalid private key" e)
  | Reply privateKey =>
      match L1_ChainID w with
      | Fault e => Err (ErrWrap "failed to get chain ID" e)
      | Reply chainID =>
          match Keyed_Transactor w privateKey chainID with
          | Fault e => Err (ErrWrap "failed to create transactor" e)
          | Reply auth => Ok auth
          end
      end
  end.

Definition getTransactOpts (w : World) : outcome TransactOpts :=
  if KMSClient m then getKMSTransactOpts w
  else if negb (String.eqb (PrivateKey m) EmptyString) then getPrivateKeyTransactOpts w
  else Err (ErrNew "no signing method configured").

(** Submission of one L1 transaction and the wait for its receipt.  The
    second component lists the transactions handed to the node. *)
Definition send_and_wait (w : World) (call : L1Call) (submit_msg : string)
  : outcome unit * list L1Call :=
  match L1_Transact w call with
  | Fault e => (Err (ErrWrap submit_msg e), [call])
  | Reply _ =>
      match L1_WaitMined w call with
      | Fault e => (Err (ErrWrap "failed to wait for transaction" e), [call])
      | Reply status =>
          if status =? 0
          then (Err (ErrNew "transaction failed (status: 0)"), [call])
          else (Ok tt, [call])
      end
  end.

Definition callProveWithdrawalTransaction (w : World)
    (withdrawalTx : WithdrawalTransaction) (l2OutputIndex : Z)
    (outputRootProof : OutputRootProof) (withdrawalProof : list bytes)
  : outcome unit * list L1Call :=
  let optimismPortalAddr := portal_address m in
  match getTransactOpts w with
  | Panic p => (Panic p, [])
  | Err e => (Err (ErrWrap "failed to get transaction options" e), [])
  | Ok txOpts =>
      send_and_wait w
        (ProveWithdrawalTransaction optimismPortalAddr txOpts withdrawalTx
           (to_int64 l2OutputIndex) outputRootProof withdrawalProof)
        "failed to prove withdrawal transaction"
  end.

Definition build_withdrawalTx (message : Message) (eventData : MessagePassed)
  : WithdrawalTransaction :=
  mkWithdrawalTransaction (MsgNonce message) (mp_Sender eventData)
    (mp_Target eventData) (MntValue message) (EthValue message)
    (mp_GasLimit eventData) (mp_Data eventData).

(** [ProveMessage]. *)
Definition ProveMessage (w : World) (txHash : string) (messageIndex : Z)
  : outcome unit * list L1Call :=
  match getMessages lib m w txHash with
  | Panic p => (Panic p, [])
  | Err e => (Err (ErrWrap "failed to get messages" e), [])
  | Ok message =>
      if Status message >=? 2 then (Ok tt, [])
      else
        let l2OutputOracleAddress := L2OutputOracle (L1 (Contracts m)) in
        match getL2OutputIndex w l2OutputOracleAddress (BlockNumber message) with
        | Panic p => (Panic p, [])
        | Err e => (Err (ErrWrap "failed to get L2 output index" e), [])
        | Ok outputIndex =>
            match getL2OutputData w l2OutputOracleAddress outputIndex with
            | Panic p => (Panic p, [])
            | Err e => (Err (ErrWrap "failed to get L2 output data" e), [])
            | Ok outputData =>
                match MessagePassedEvent message with
                | None => (Err (ErrNew "event data is nil"), [])
                | Some eventData =>
                    let outBlock := big_Uint64 (op_L2BlockNumber outputData) in
                    if BlockNumber message >? outBlock
                    then (Err (ErrBlockAfterOutput (BlockNumber message) outBlock), [])
                    else
                      match generateWithdrawalProofForBlock w message outBlock with
                      | Panic p => (Panic p, [])
                      | Err e =>
                          (Err (ErrWrap "failed to generate withdrawal proof" e), [])
                      | Ok withdrawalProof =>
                          let outputRootProof :=
                            mkOutputRootProof (zero_bytes 32)
                              (wp_StateRoot withdrawalProof)
                              (wp_MessagePasserStorageRoot withdrawalProof)
                              (wp_LatestBlockhash withdrawalProof) in
                          let calculatedOutputRoot :=
                            calculateOutputRoot outputRootProof in
                          if negb (bytes_eqb calculatedOutputRoot
                                     (op_OutputRoot outputData))
                          then (Err (ErrOutputRootMismatch calculatedOutputRoot
                                       (op_OutputRoot outputData)), [])
                          else
                            let withdrawalTx := build_withdrawalTx message eventData in
                            match callProveWithdrawalTransaction w withdrawalTx
                                    outputIndex outputRootProof
                                    (wp_WithdrawalProof withdrawalProof) with
                            | (Ok _, sent) => (Ok tt, sent)
                            | (Err e, sent) =>
                                (Err (ErrWrap "failed to prove withdrawal transaction" e),
                                 sent)
                            | (Panic p, sent) => (Panic p, sent)
                            end
                      end
                end
            end
        end
  end.

(** [FinalizeMessage]. *)
Definition FinalizeMessage (w : World) (txHash : string) (messageIndex : Z)
  : outcome unit * list L1Call :=
  match getMessages lib m w txHash with
  | Panic p => (Panic p, [])
  | Err e => (Err (ErrWrap "failed to get messages" e), [])
  | Ok message =>
      if Status message >=? 2 then (Ok tt, [])
      else if Status message <? 1 then (Err (ErrNew "message not proven"), [])
      else
        match MessagePassedEvent message with
        | None => (Err (ErrNew "event data is nil"), [])
        | Some eventData =>
            let withdrawalTx := build_withdrawalTx message eventData in
            let optimismPortalAddr := portal_address m in
            match getTransactOpts w with
            | Panic p => (Panic p, [])
            | Err e => (Err (ErrWrap "failed to get transaction options" e), [])
            | Ok txOpts =>
                send_and_wait w
                  (FinalizeWithdrawalTransaction optimismPortalAddr txOpts withdrawalTx)
                  "failed to finalize withdrawal transaction"
            end
        end
  end.

End Engine.

(** ** Lifecycle scheduler *)

Record WithdrawalStatus := mkWithdrawalStatus {
  sentWaitingMessage : bool;
  sent5MinuteReminder : bool;
  finalized : bool
}.

(** The zero value [&WithdrawalStatus{}]. *)
Definition WithdrawalStatus_zero : WithdrawalStatus :=
  mkWithdrawalStatus false false false.

(** The texts handed to [sendTelegramMessage], by kind, with the values
    that are formatted into them. *)
Inductive Notice : Type :=
| AlreadyFinalized (txHash : string) (status : Z)
| ReadyToFinalize (txHash : string) (provenTimestamp : Z)
| StartingFinalize (txHash : string)
| FinalizeFailed (txHash : string) (e : error)
| FinalizeSuccessful (txHash : string)
| AllWithdrawalsCompleted
| WaitingForChallengePeriod (txHash : string) (finalizeTime hours minutes : Z)
| FinalizeComingSoon (txHash : string) (finalizeTime minutes : Z)
| ReadyToProve (txHash : string) (l2Block latestProposed : Z)
| StartingProve (txHash : string)
| ProveFailed (txHash : string) (e : error)
| ProveSuccessful (txHash : string) (l2Block finalizeTime : Z)
| ProvePending (txHash : string) (remainingBlocks latestProposed : Z).

(** What the scheduler does to the outside: a call of
    [sendTelegramMessage] (the transport behind it is not modelled) or an
    L1 transaction handed to the node. *)
Inductive Event : Type :=
| Notify (n : Notice)
| Submit (call : L1Call).

(** [WithdrawalScheduler]: the tracked hashes, the status map, whether the
    context has been cancelled, and the events so far, oldest first. *)
Record WithdrawalScheduler := mkWithdrawalScheduler {
  withdrawalHashes : list string;
  withdrawalStatus : gmap string WithdrawalStatus;
  cancelled : bool;
  events : list Event
}.

Definition L2OutputOracleAddress : string :=
  "0x31d543e7BE1dA6eFDc2206Ef7822879045B9f481".
Definition OutputProposedTopic : string :=
  "0xa7aaf2512769da4e444e3de247be2564225c2e7a8f74cfe528e46e17d24868e2".

(** [NewWithdrawalScheduler], after the environment has been read. *)
Definition NewWithdrawalScheduler (hashes : list string) : WithdrawalScheduler :=
  mkWithdrawalScheduler hashes
    (fold_left (fun acc hash => <[hash := WithdrawalStatus_zero]> acc) hashes ∅)
    false [].

Definition sendTelegramMessage (n : Notice) (s : WithdrawalScheduler)
  : WithdrawalScheduler :=
  mkWithdrawalScheduler (withdrawalHashes s) (withdrawalStatus s) (cancelled s)
    (events s ++ [Notify n]).

Definition record_calls (calls : list L1Call) (s : WithdrawalScheduler)
  : WithdrawalScheduler :=
  mkWithdrawalScheduler (withdrawalHashes s) (withdrawalStatus s) (cancelled s)
    (events s ++ List.map Submit calls).

(** A write through the pointer [status] held in the map under [txHash]. *)
Definition store_status (txHash : string) (st : WithdrawalStatus)
    (s : WithdrawalScheduler) : WithdrawalScheduler :=
  mkWithdrawalScheduler (withdrawalHashes s)
    (<[txHash := st]> (withdrawalStatus s)) (cancelled s) (events s).

(** [Stop]: cancels the context that [Start] waits on. *)
Definition Stop (s : WithdrawalScheduler) : WithdrawalScheduler :=
  mkWithdrawalScheduler (withdrawalHashes s) (withdrawalStatus s) true (events s).

(** The loop over [s.withdrawalStatus] that computes [allFinalized]. *)
Definition allFinalized (s : WithdrawalScheduler) : bool :=
  map_fold (fun _ ws acc => acc && finalized ws) true (withdrawalStatus s).

Definition challengePeriod : Z := 12 * 60 * 60.
Definition fiveMinutes : Z := 5 * 60.

Section Scheduler.

Variable lib : Library.
Variable m : CrossChainMessenger.

(** [GetLatestProposedL2Block]: the L2 block of the last [OutputProposed]
    log among the last 1000 L1 blocks. *)
Definition GetLatestProposedL2Block (w : World) : outcome Z :=
  match L1_BlockNumber w with
  | Fault e => Err (ErrWrap "failed to get latest block" e)
  | Reply latestBlock =>
      let fromBlock := to_int64 (uint64_sub latestBlock 1000) in
      let toBlock := to_int64 latestBlock in
      let query :=
        mkFilterQuery fromBlock toBlock
          [Hex.HexToAddress L2OutputOracleAddress]
          [[Hex.HexToHash OutputProposedTopic]] in
      match L1_FilterLogs w query with
      | Fault e => Err (ErrWrap "failed to filter logs" e)
      | Reply logs =>
          match last logs with
          | None => Err (ErrNew "no OutputProposed events found in recent blocks")
          | Some latestLog =>
              match log_Topics latestLog with
              | _ :: _ :: _ :: t3 :: _ => Ok (big_Uint64 (big_SetBytes t3))
              | _ => Err (ErrNew "invalid log format: expected 4 topics")
              end
          end
      end
  end.

(** The branch of [CheckWithdrawal] for [message.Status == 1]. *)
Definition check_proven (w : World) (txHash : string) (message : Message)
    (status : WithdrawalStatus) (s : WithdrawalScheduler)
  : outcome unit * WithdrawalScheduler :=
  let withdrawalHash := GetWithdrawalHash message in
  match CheckProvenStatus m w withdrawalHash with
  | Panic p => (Panic p, s)
  | Err e => (Err (ErrWrap "failed to check proven status" e), s)
  | Ok (isProven, provenTimestamp) =>
      if negb isProven then (Ok tt, s)
      else
        let currentTime := Now w in
        let finalizeTime := int64_add (big_Int64 provenTimestamp) challengePeriod in
        if currentTime >=? finalizeTime then
          let status1 := mkWithdrawalStatus false false (finalized status) in
          let s1 := store_status txHash status1 s in
          let s2 := sendTelegramMessage
                      (ReadyToFinalize txHash (big_Int64 provenTimestamp)) s1 in
          let s3 := sendTelegramMessage (StartingFinalize txHash) s2 in
          let '(r, calls) := FinalizeMessage lib m w txHash 0 in
          let s4 := record_calls calls s3 in
          match r with
          | Panic p => (Panic p, s4)
          | Err e =>
              (Err (ErrWrap "failed to finalize" e),
               sendTelegramMessage (FinalizeFailed txHash e) s4)
          | Ok _ =>
              let s5 := sendTelegramMessage (FinalizeSuccessful txHash) s4 in
              let status2 := mkWithdrawalStatus false false true in
              let s6 := store_status txHash status2 s5 in
              if allFinalized s6
              then (Ok tt, Stop (sendTelegramMessage AllWithdrawalsCompleted s6))
              else (Ok tt, s6)
          end
        else
          let remainingTime := int64_sub finalizeTime currentTime in
          let hours := Z.quot remainingTime 3600 in
          let minutes := Z.quot (Z.rem remainingTime 3600) 60 in
          if negb (sentWaitingMessage status) then
            let s1 := sendTelegramMessage
                        (WaitingForChallengePeriod txHash finalizeTime hours minutes) s in
            (Ok tt,
             store_status txHash
               (mkWithdrawalStatus true (sent5MinuteReminder status) (finalized status))
               s1)
          else if (remainingTime <=? fiveMinutes) && negb (sent5MinuteReminder status) then
            let s1 := sendTelegramMessage
                        (FinalizeComingSoon txHash finalizeTime minutes) s in
            (Ok tt,
             store_status txHash
               (mkWithdrawalStatus (sentWaitingMessage status) true (finalized status))
               s1)
          else (Ok tt, s)
  end.

(** The branch of [CheckWithdrawal] for [message.Status == 0]. *)
Definition check_ready_to_prove (w : World) (txHash : string) (message : Message)
    (latestProposedBlock : Z) (s : WithdrawalScheduler)
  : outcome unit * WithdrawalScheduler :=
  let s1 := sendTelegramMessage
              (ReadyToProve txHash (BlockNumber message) latestProposedBlock) s in
  let s2 := sendTelegramMessage (StartingProve txHash) s1 in
  let '(r, calls) := ProveMessage lib m w txHash 0 in
  let s3 := record_calls calls s2 in
  match r with
  | Panic p => (Panic p, s3)
  | Err e =>
      (Err (ErrWrap "failed to prove" e),
       sendTelegramMessage (ProveFailed txHash e) s3)
  | Ok _ =>
      let finalizeTime := int64_add (Now w) challengePeriod in
      (Ok tt,
       sendTelegramMessage
         (ProveSuccessful txHash (BlockNumber message) finalizeTime) s3)
  end.

(** [CheckWithdrawal].  Reads made with a cancelled context fail. *)
Definition CheckWithdrawal (w : World) (txHash : string) (s : WithdrawalScheduler)
  : outcome unit * WithdrawalScheduler :=
  if String.eqb txHash EmptyString then (Ok tt, s)
  else
    let '(status, s0) :=
      match withdrawalStatus s !! txHash with
      | Some st => (st, s)
      | None => (WithdrawalStatus_zero, store_status txHash WithdrawalStatus_zero s)
      end in
    let got :=
      if cancelled s0
      then Err (ErrWrap "failed to get transaction receipt"
                  (ErrWrap "failed to get transaction receipt"
                     (ErrClient "context canceled")))
      else GetMessages lib m w txHash in
    match got with
    | Panic p => (Panic p, s0)
    | Err e => (Err (ErrWrap "failed to get message" e), s0)
    | Ok message =>
        match GetLatestProposedL2Block w with
        | Panic p => (Panic p, s0)
        | Err e => (Err (ErrWrap "failed to get latest proposed block" e), s0)
        | Ok latestProposedBlock =>
            if latestProposedBlock >=? BlockNumber message then
              if Status message >=? 2 then
                let s1 :=
                  store_status txHash
                    (mkWithdrawalStatus (sentWaitingMessage status)
                       (sent5MinuteReminder status) true) s0 in
                (Ok tt,
                 sendTelegramMessage (AlreadyFinalized txHash (Status message)) s1)
              else if Status message =? 1 then
                check_proven w txHash message status s0
              else
                check_ready_to_prove w txHash message latestProposedBlock s0
            else
              let remainingBlocks :=
                uint64_sub (BlockNumber message) latestProposedBlock in
              (Ok tt,
               sendTelegramMessage
                 (ProvePending txHash remainingBlocks latestProposedBlock) s0)
        end
    end.

(** [CheckAllWithdrawals]: one tick.  An error of one withdrawal is
    logged and the loop goes on; a panic ends the process. *)
Fixpoint check_each (w : World) (hashes : list string) (s : WithdrawalScheduler)
  : outcome unit * WithdrawalScheduler :=
  match hashes with
  | [] => (Ok tt, s)
  | txHash :: rest =>
      match CheckWithdrawal w txHash s with
      | (Panic p, s') => (Panic p, s')
      | (_, s') => check_each w rest s'
      end
  end.

Definition CheckAllWithdrawals (w : World) (s : WithdrawalScheduler)
  : outcome unit * WithdrawalScheduler :=
  check_each w (withdrawalHashes s) s.

(** [Start]: a tick at once, then one per cron firing, until the context
    is cancelled.  [ws] lists what each tick sees. *)
Fixpoint Start (ws : list World) (s : WithdrawalScheduler)
  : outcome unit * WithdrawalScheduler :=
  match ws with
  | [] => (Ok tt, s)
  | w :: rest =>
      match CheckAllWithdrawals w s with
      | (Panic p, s') => (Panic p, s')
      | (_, s') => if cancelled s' then (Ok tt, s') else Start rest s'
      end
  end.

End Scheduler.

(** ** Helpers and start-up

    The helper file of package crosschain, the derivation of the wallet
    address, [CreateCrossChainMessenger], [CheckMessageStatus], and what
    [NewWithdrawalScheduler] reads from the environment. *)

(** [getStatusDescription] of package crosschain. *)
Definition getStatusDescription (status : Z) : string :=
  if status =? 0 then "READY_TO_PROVE"
  else if status =? 1 then "PROVEN"
  else if status =? 2 then "RELAYED/FINALIZED"
  else "UNKNOWN".

(** [CheckMessageStatus]: the error it returns, or the status line it
    prints: [message.Status] and its description. *)
Definition CheckMessageStatus (lib : Library) (m : CrossChainMessenger) (w : World)
    (txHash : string) (messageIndex : Z) : outcome (Z * string) :=
  match getMessages lib m w txHash with
  | Panic p => Panic p
  | Err e => Err (ErrWrap "failed to get messages" e)
  | Ok message => Ok (Status message, getStatusDescription (Status message))
  end.

(** [strconv.ParseUint(s, 16, 64)] and the verb [%x] of a [uint64]. *)
Module Strconv.

Definition ErrSyntax : error := ErrClient "strconv.ParseUint: invalid syntax".
Definition ErrRange : error := ErrClient "strconv.ParseUint: value out of range".

Definition maxUint64 : Z := two64 - 1.

(** The value of a digit: ['0'..'9'], or a letter after [c | 0x20]. *)
Definition digit_value (c : ascii) : option Z :=
  let n := N_of_ascii c in
  let l := N.lor n 32 in
  if ((48 <=? n) && (n <=? 57))%N then Some (Z.of_N (n - 48))
  else if ((97 <=? l) && (l <=? 122))%N then Some (Z.of_N (l - 97 + 10))
  else None.

(** The loop of [ParseUint] for base 16 and 64 bits: the value and the
    error returned with it. *)
Fixpoint parse_loop (s : string) (n : Z) : Z * option error :=
  match s with
  | EmptyString => (n, None)
  | String c rest =>
      match digit_value c with
      | None => (0, Some ErrSyntax)
      | Some d =>
          if d >=? 16 then (0, Some ErrSyntax)
          else
            let cutoff := maxUint64 / 16 + 1 in
            if n >=? cutoff then (maxUint64, Some ErrRange)
            else
              let n16 := to_uint64 (n * 16) in
              let n1 := to_uint64 (n16 + d) in
              if (n1 <? n16) || (n1 >? maxUint64) then (maxUint64, Some ErrRange)
              else parse_loop rest n1
      end
  end.

Definition ParseUint16 (s : string) : Z * option error :=
  match s with
  | EmptyString => (0, Some ErrSyntax)
  | _ => parse_loop s 0
  end.

(** The digits of [%x], most significant first; ["0"] for zero. *)
Fixpoint hex_digits (fuel : nat) (n : N) (acc : string) : string :=
  match fuel with
  | O => acc
  | S fuel' =>
      let acc' := String (Hex.digit (n mod 16)) acc in
      if (n / 16 =? 0)%N then acc' else hex_digits fuel' (n / 16) acc'
  end.

Definition FormatHex (n : Z) : string := hex_digits 16 (Z.to_N n) EmptyString.

End Strconv.

(** [parseHexToUint64]. *)
Definition parseHexToUint64 (hexStr : string) : Z * option error :=
  Strconv.ParseUint16 (trim0x hexStr).

(** The block parameter of [eth_getProof]: [fmt.Sprintf("0x%x", n)]. *)
Definition blockNumHex (n : Z) : string :=
  String "0" (String "x" (Strconv.FormatHex n)).

(** [publicKeyToAddress]: the bytes that are hashed ... *)
Definition publicKeyBytes (X Y : Z) : bytes :=
  let b := Hex.big_Bytes X ++ Hex.big_Bytes Y in
  if (List.length b <? 64)%nat then zero_bytes (64 - List.length b) ++ b else b.

(** ... and the address: the last 20 bytes of their Keccak-256 hash. *)
Definition publicKeyToAddress (X Y : Z) : string :=
  let hashBytes := Keccak256Hash (publicKeyBytes X Y) in
  String "0" (String "x" (Hex.EncodeToString (skipn 12 hashBytes))).

(** What the process finds when it starts: the environment (a variable
    that is not set reads as the empty string), whether a node accepts the
    [n]-th connection the process opens, and the answers of the AWS and key
    libraries: [transactor.From.Hex()] of the KMS transactor, and the
    public key [(X, Y)] of [crypto.ToECDSA]. *)
Record Startup := mkStartup {
  Env : gmap string string;
  Dial : nat -> string -> reply unit;
  LoadDefaultConfig : reply unit;
  NewAwsKmsTransactorWithChainID : string -> Z -> reply string;
  ToECDSA : bytes -> reply (Z * Z)
}.

Definition Getenv (st : Startup) (key : string) : string :=
  default EmptyString (Env st !! key).

(** [getEnvOrDefault]. *)
Definition getEnvOrDefault (st : Startup) (key defaultValue : string) : string :=
  let value := Getenv st key in
  if negb (String.eqb value EmptyString) then value else defaultValue.

(** [getWalletAddressFromPrivateKey]. *)
Definition getWalletAddressFromPrivateKey (st : Startup) (m : CrossChainMessenger)
  : outcome string :=
  if String.eqb (PrivateKey m) EmptyString then Err (ErrNew "private key not set")
  else
    let privateKeyHex := trim0x (PrivateKey m) in
    match Hex.Decode privateKeyHex with
    | (_, false) =>
        Err (ErrWrap "failed to decode private key" (ErrClient "encoding/hex"))
    | (privateKeyBytes, true) =>
        match ToECDSA st privateKeyBytes with
        | Fault e => Err (ErrWrap "failed to create ECDSA private key" e)
        | Reply (X, Y) => Ok (publicKeyToAddress X Y)
        end
    end.

(** The contract addresses [CreateCrossChainMessenger] reads. *)
Definition contracts_of_env (st : Startup) : CrossChainContracts :=
  mkCrossChainContracts
    (mkL1Contracts
       (getEnvOrDefault st "L1_STATE_COMMITMENT_CHAIN"
          "0x0000000000000000000000000000000000000000")
       (getEnvOrDefault st "L1_CANONICAL_TRANSACTION_CHAIN"
          "0x0000000000000000000000000000000000000000")
       (getEnvOrDefault st "L1_BOND_MANAGER"
          "0x0000000000000000000000000000000000000000")
       (getEnvOrDefault st "L1_ADDRESS_MANAGER"
          "0x6968f3F16C3e64003F02E121cf0D5CCBf5625a42")
       (getEnvOrDefault st "L1_CROSS_DOMAIN_MESSENGER"
          "0x676A795fe6E43C17c668de16730c3F690FEB7120")
       (getEnvOrDefault st "L1_STANDARD_BRIDGE"
          "0x95fC37A27a2f68e3A647CDc081F0A89bb47c3012")
       (getEnvOrDefault st "L1_OPTIMISM_PORTAL"
          "0xc54cb22944F2bE476E02dECfCD7e3E7d3e15A8Fb")
       (getEnvOrDefault st "L2_OUTPUT_ORACLE"
          "0x31d543e7BE1dA6eFDc2206Ef7822879045B9f481"))
    (mkBridgeContracts
       (getEnvOrDefault st "L1_BRIDGE" "0x95fC37A27a2f68e3A647CDc081F0A89bb47c3012")
       (getEnvOrDefault st "L2_BRIDGE" "0x4200000000000000000000000000000000000010")
       EmptyString
       (getEnvOrDefault st "L2_CROSS_DOMAIN_MESSENGER"
          "0x4200000000000000000000000000000000000007")
       (getEnvOrDefault st "L2_TO_L1_MESSAGE_PASSER"
          "0x4200000000000000000000000000000000000016")).

(** [CreateCrossChainMessenger]. *)
Definition CreateCrossChainMessenger (st : Startup) (l1RpcUrl l2RpcUrl : string)
  : outcome CrossChainMessenger :=
  let contracts := contracts_of_env st in
  match Dial st 0%nat l1RpcUrl with
  | Fault e => Err (ErrWrap "failed to connect to L1 RPC" e)
  | Reply _ =>
      match Dial st 1%nat l2RpcUrl with
      | Fault e => Err (ErrWrap "failed to connect to L2 RPC" e)
      | Reply _ =>
          let kmsKeyID := Getenv st "KMS_KEY_ID" in
          let privateKey := Getenv st "PRIV_KEY" in
          if negb (String.eqb kmsKeyID EmptyString) then
            match LoadDefaultConfig st with
            | Fault e => Err (ErrWrap "failed to load AWS config" e)
            | Reply _ =>
                match NewAwsKmsTransactorWithChainID st kmsKeyID 1 with
                | Fault e => Err (ErrWrap "failed to create KMS transactor" e)
                | Reply address =>
                    Ok (mkCrossChainMessenger kmsKeyID true EmptyString address contracts)
                end
            end
          else if negb (String.eqb privateKey EmptyString) then
            let messenger :=
              mkCrossChainMessenger EmptyString false privateKey EmptyString contracts in
            match getWalletAddressFromPrivateKey st messenger with
            | Panic p => Panic p
            | Err e => Err (ErrWrap "failed to get wallet address from private key" e)
            | Ok address =>
                Ok (mkCrossChainMessenger EmptyString false privateKey address contracts)
            end
          else
            Err (ErrNew "either KMS_KEY_ID or PRIV_KEY environment variable must be set")
      end
  end.

(** [unicode/utf8], [unicode] and [strings], as far as [splitAndTrim]
    uses them.  A Go string is its bytes. *)
Module Strings.

Definition byteZ (c : ascii) : Z := Z.of_N (N_of_ascii c).

Definition RuneError : Z := 65533.
Definition RuneSelf : Z := 128.

(** The table [first] of package utf8: for a leading byte, the width of
    the encoding and the accepted range of the second byte. *)
Definition first (s0 : Z) : option (nat * Z * Z) :=
  if (194 <=? s0) && (s0 <=? 223) then Some (2%nat, 128, 191)
  else if s0 =? 224 then Some (3%nat, 160, 191)
  else if (225 <=? s0) && (s0 <=? 236) then Some (3%nat, 128, 191)
  else if s0 =? 237 then Some (3%nat, 128, 159)
  else if (238 <=? s0) && (s0 <=? 239) then Some (3%nat, 128, 191)
  else if s0 =? 240 then Some (4%nat, 144, 191)
  else if (241 <=? s0) && (s0 <=? 243) then Some (4%nat, 128, 191)
  else if s0 =? 244 then Some (4%nat, 128, 143)
  else None.

Definition not_continuation (b : Z) : bool := (b <? 128) || (191 <? b).

(** [utf8.DecodeRuneInString]: the rune and its width; a byte that starts
    no valid encoding is [RuneError] of width 1. *)
Definition DecodeRuneInString (s : list ascii) : Z * nat :=
  match s with
  | [] => (RuneError, 0%nat)
  | c0 :: rest =>
      let s0 := byteZ c0 in
      if s0 <? RuneSelf then (s0, 1%nat)
      else
        match first s0 with
        | None => (RuneError, 1%nat)
        | Some (sz, lo, hi) =>
            if (List.length s <? sz)%nat then (RuneError, 1%nat)
            else
              match rest with
              | [] => (RuneError, 1%nat)
              | c1 :: rest1 =>
                  let s1 := byteZ c1 in
                  if (s1 <? lo) || (hi <? s1) then (RuneError, 1%nat)
                  else if (sz <=? 2)%nat then
                    (Z.lor (Z.shiftl (Z.land s0 31) 6) (Z.land s1 63), 2%nat)
                  else
                    match rest1 with
                    | [] => (RuneError, 1%nat)
                    | c2 :: rest2 =>
                        let s2 := byteZ c2 in
                        if not_continuation s2 then (RuneError, 1%nat)
                        else if (sz <=? 3)%nat then
                          (Z.lor (Z.shiftl (Z.land s0 15) 12)
                             (Z.lor (Z.shiftl (Z.land s1 63) 6) (Z.land s2 63)),
                           3%nat)
                        else
                          match rest2 with
                          | [] => (RuneError, 1%nat)
                          | c3 :: _ =>
                              let s3 := byteZ c3 in
                              if not_continuation s3 then (RuneError, 1%nat)
                              else
                                (Z.lor (Z.shiftl (Z.land s0 7) 18)
                                   (Z.lor (Z.shiftl (Z.land s1 63) 12)
                                      (Z.lor (Z.shiftl (Z.land s2 63) 6)
                                         (Z.land s3 63))),
                                 4%nat)
                          end
                    end
              end
        end
  end.

Definition RuneStart (c : ascii) : bool := negb (Z.land (byteZ c) 192 =? 128).

(** The walk back of [DecodeLastRuneInString] from the byte before the
    last one, over at most three bytes: how many bytes from the end the
    decoding starts.  [before] holds the bytes before the last one,
    nearest first. *)
Fixpoint rune_start_back (fuel : nat) (before : list ascii) (k : nat) : nat :=
  match before with
  | [] => k
  | b :: before' =>
      match fuel with
      | O => S k
      | S fuel' => if RuneStart b then S k else rune_start_back fuel' before' (S k)
      end
  end.

(** [utf8.DecodeLastRuneInString]. *)
Definition DecodeLastRuneInString (s : list ascii) : Z * nat :=
  match rev s with
  | [] => (RuneError, 0%nat)
  | c :: before =>
      if byteZ c <? RuneSelf then (byteZ c, 1%nat)
      else
        let k := rune_start_back 3 before 1 in
        let '(r, size) := DecodeRuneInString (skipn (List.length s - k) s) in
        if negb (size =? k)%nat then (RuneError, 1%nat) else (r, size)
  end.

(** [unicode.IsSpace]. *)
Definition IsSpace (r : Z) : bool :=
  if r <=? 255 then
    ((9 <=? r) && (r <=? 13)) || (r =? 32) || (r =? 133) || (r =? 160)
  else
    (r =? 5760) || ((8192 <=? r) && (r <=? 8202)) || (r =? 8232) || (r =? 8233)
    || (r =? 8239) || (r =? 8287) || (r =? 12288).

Definition asciiSpace (c : ascii) : bool :=
  let b := byteZ c in ((9 <=? b) && (b <=? 13)) || (b =? 32).

(** [TrimLeftFunc(s, unicode.IsSpace)]. *)
Fixpoint TrimLeftSpace_from (fuel : nat) (s : list ascii) : list ascii :=
  match fuel with
  | O => s
  | S fuel' =>
      match s with
      | [] => []
      | _ =>
          let '(r, size) := DecodeRuneInString s in
          if IsSpace r then TrimLeftSpace_from fuel' (skipn size s) else s
      end
  end.

Definition TrimLeftSpace (s : list ascii) : list ascii :=
  TrimLeftSpace_from (List.length s) s.

(** [lastIndexFunc(s, unicode.IsSpace, false)]: the index of the last rune
    that is no space, [None] for -1. *)
Fixpoint lastIndexNotSpace (fuel : nat) (s : list ascii) (i : nat) : option nat :=
  match fuel with
  | O => None
  | S fuel' =>
      if (i =? 0)%nat then None
      else
        let '(r, size) := DecodeLastRuneInString (firstn i s) in
        if negb (IsSpace r) then Some (i - size)%nat
        else lastIndexNotSpace fuel' s (i - size)
  end.

(** [TrimRightFunc(s, unicode.IsSpace)]. *)
Definition TrimRightSpace (s : list ascii) : list ascii :=
  match lastIndexNotSpace (List.length s) s (List.length s) with
  | None => []
  | Some i =>
      match nth_error s i with
      | Some c =>
          if RuneSelf <=? byteZ c
          then firstn (i + snd (DecodeRuneInString (skipn i s))) s
          else firstn (i + 1) s
      | None => firstn (i + 1) s
      end
  end.

Definition TrimSpaceFunc (s : list ascii) : list ascii :=
  TrimRightSpace (TrimLeftSpace s).

(** The first loop of [TrimSpace]: [inr] is the value returned from within
    the loop, [inl] the rest of the string from [start]. *)
Fixpoint TrimSpace_start (s : list ascii) : list ascii + list ascii :=
  match s with
  | [] => inl []
  | c :: rest =>
      if RuneSelf <=? byteZ c then inr (TrimSpaceFunc s)
      else if asciiSpace c then TrimSpace_start rest
      else inl s
  end.

(** The second loop, over the bytes from the end ([r] is reversed). *)
Fixpoint TrimSpace_stop (r : list ascii) : list ascii :=
  match r with
  | [] => []
  | c :: rest =>
      if RuneSelf <=? byteZ c then TrimRightSpace (rev r)
      else if asciiSpace c then TrimSpace_stop rest
      else rev r
  end.

(** [strings.TrimSpace]. *)
Definition TrimSpace (s : string) : string :=
  match TrimSpace_start (list_ascii_of_string s) with
  | inr t => string_of_list_ascii t
  | inl t => string_of_list_ascii (TrimSpace_stop (rev t))
  end.

(** [explode]: one string per rune. *)
Fixpoint explode (fuel : nat) (s : list ascii) : list string :=
  match fuel with
  | O => []
  | S fuel' =>
      match s with
      | [] => []
      | _ =>
          let size := snd (DecodeRuneInString s) in
          string_of_list_ascii (firstn size s) :: explode fuel' (skipn size s)
      end
  end.

(** The parts of [s] between the occurrences of a non-empty [sep], found
    from the left and not overlapping; [skip] bytes of an occurrence are
    still to be passed. *)
Fixpoint split_at (sep : string) (skip : nat) (s : string) : list string :=
  match s with
  | EmptyString => [EmptyString]
  | String c rest =>
      match skip with
      | S k => split_at sep k rest
      | O =>
          if String.prefix sep s
          then EmptyString :: split_at sep (String.length sep - 1) rest
          else
            match split_at sep 0 rest with
            | part :: parts => String c part :: parts
            | [] => [String c EmptyString]
            end
      end
  end.

(** [strings.Split]. *)
Definition Split (s sep : string) : list string :=
  match sep with
  | EmptyString => explode (String.length s) (list_ascii_of_string s)
  | _ => split_at sep 0 s
  end.

End Strings.

(** The scheduler's package: environment parsing and start-up. *)
Module Main.

Definition getStatusDescription (status : Z) : string :=
  if status =? 0 then "READY_TO_PROVE"
  else if status =? 1 then "PROVEN"
  else if status =? 2 then "FINALIZED"
  else "UNKNOWN".

(** [splitAndTrim]. *)
Definition splitAndTrim (s delimiter : string) : list string :=
  let parts := Strings.Split s delimiter in
  List.filter (fun trimmed => negb (String.eqb trimmed EmptyString))
    (List.map Strings.TrimSpace parts).

(** The hashes [NewWithdrawalScheduler] reads from [WITHDRAWAL_TX_HASH]. *)
Definition withdrawalHashes_of_env (st : Startup) : list string :=
  let txHashesEnv := Getenv st "WITHDRAWAL_TX_HASH" in
  if negb (String.eqb txHashesEnv EmptyString)
  then List.filter (fun hash => negb (String.eqb hash EmptyString))
         (splitAndTrim txHashesEnv ",")
  else [].

(** [NewWithdrawalScheduler]: the messenger and the scheduler.  The
    Telegram bot belongs to the transport and is left out. *)
Definition NewWithdrawalScheduler (st : Startup)
  : outcome (CrossChainMessenger * WithdrawalScheduler) :=
  let l1RpcUrl := Getenv st "L1_RPC" in
  let l2RpcUrl := Getenv st "L2_RPC" in
  if String.eqb l1RpcUrl EmptyString
  then Err (ErrNew "L1_RPC environment variable is not set")
  else if String.eqb l2RpcUrl EmptyString
  then Err (ErrNew "L2_RPC environment variable is not set")
  else
    match CreateCrossChainMessenger st l1RpcUrl l2RpcUrl with
    | Panic p => Panic p
    | Err e => Err (ErrWrap "failed to create messenger" e)
    | Ok messenger =>
        match Dial st 2%nat l1RpcUrl with
        | Fault e => Err (ErrWrap "failed to connect to L1" e)
        | Reply _ =>
            Ok (messenger, NewWithdrawalScheduler (withdrawalHashes_of_env st))
        end
    end.

End Main.

(** * Observations on a run

    Definitions used to state what the scheduler and the engine do: the
    rules in the words of the specification, predicates on events, and the
    view of one withdrawal in the scheduler's state. *)

(** The status rule in the words of the specification: finalized gives 2,
    else a non-zero proven output root gives 1, else 0. *)
Definition spec_status (isFinalized : reply bool) (proven : reply ProvenWithdrawal) : Z :=
  match isFinalized with
  | Reply true => 2
  | _ =>
      match proven with
      | Reply r => if bool_decide (pw_OutputRoot r = zero_bytes 32) then 0 else 1
      | Fault _ => 0
      end
  end.

(** The challenge-period rule in the words of the specification. *)
Definition spec_canFinalize (now proven_at : Z) : bool :=
  (now >=? proven_at + 43200) && (proven_at >? 0).

(** The finalize time the scheduler computes from a proven timestamp. *)
Definition finalizeTime_of (provenTimestamp : Z) : Z :=
  int64_add (big_Int64 provenTimestamp) challengePeriod.

Definition is_waiting (tx : string) (e : Event) : bool :=
  match e with
  | Notify (WaitingForChallengePeriod t _ _ _) => String.eqb t tx
  | _ => false
  end.

Definition is_reminder (tx : string) (e : Event) : bool :=
  match e with
  | Notify (FinalizeComingSoon t _ _) => String.eqb t tx
  | _ => false
  end.

(** Neither of the two notices that are guarded by a flag. *)
Definition quiet (e : Event) : bool :=
  match e with
  | Notify (WaitingForChallengePeriod _ _ _ _) => false
  | Notify (FinalizeComingSoon _ _ _) => false
  | _ => true
  end.

Definition is_starting_finalize (tx : string) (e : Event) : bool :=
  match e with
  | Notify (StartingFinalize t) => String.eqb t tx
  | _ => false
  end.

Definition is_finalize_tx (e : Event) : bool :=
  match e with
  | Submit (FinalizeWithdrawalTransaction _ _ _) => true
  | _ => false
  end.

Definition is_all_completed (e : Event) : bool :=
  match e with
  | Notify AllWithdrawalsCompleted => true
  | _ => false
  end.

Definition prove_succeeded (e : Event) : bool :=
  match e with
  | Notify (ProveSuccessful _ _ _) => true
  | _ => false
  end.

Definition count (p : Event -> bool) (evs : list Event) : nat :=
  List.length (List.filter p evs).

(** The status the scheduler holds for a hash; an untracked hash gets the
    zero status on its first check. *)
Definition status_of (tx : string) (s : WithdrawalScheduler) : WithdrawalStatus :=
  default WithdrawalStatus_zero (withdrawalStatus s !! tx).

(** At the snapshot [w] the withdrawal reads as PROVEN, proven at [T]. *)
Definition proven_at (lib : Library) (m : CrossChainMessenger) (w : World)
    (tx : string) (T : Z) : Prop :=
  exists message,
    getMessages lib m w tx = Ok message
    /\ Status message = 1
    /\ CheckProvenStatus m w (WithdrawalHash message) = Ok (true, T).

(** At the snapshot [w] the withdrawal reads as finalized and passes the
    scheduler's block check. *)
Definition finalized_on_chain (lib : Library) (m : CrossChainMessenger) (w : World)
    (tx : string) : Prop :=
  tx <> EmptyString
  /\ exists message latestProposedBlock,
       getMessages lib m w tx = Ok message
       /\ 2 <= Status message
       /\ GetLatestProposedL2Block w = Ok latestProposedBlock
       /\ BlockNumber message <= latestProposedBlock.

(** What one call of [CheckWithdrawal] for [tx] does to the two flags of
    [tx] and which guarded notices are among the events [new] it adds. *)
Inductive effect (lib : Library) (m : CrossChainMessenger) (w : World) (tx : string)
    (s s' : WithdrawalScheduler) (new : list Event) : Prop :=
| effect_quiet :
    forallb quiet new = true ->
    sentWaitingMessage (status_of tx s') = sentWaitingMessage (status_of tx s) ->
    sent5MinuteReminder (status_of tx s') = sent5MinuteReminder (status_of tx s) ->
    effect lib m w tx s s' new
| effect_waiting (T hours minutes : Z) :
    new = [Notify (WaitingForChallengePeriod tx (finalizeTime_of T) hours minutes)] ->
    proven_at lib m w tx T ->
    Now w < finalizeTime_of T ->
    sentWaitingMessage (status_of tx s) = false ->
    sentWaitingMessage (status_of tx s') = true ->
    sent5MinuteReminder (status_of tx s') = sent5MinuteReminder (status_of tx s) ->
    effect lib m w tx s s' new
| effect_reminder (T minutes : Z) :
    new = [Notify (FinalizeComingSoon tx (finalizeTime_of T) minutes)] ->
    proven_at lib m w tx T ->
    Now w < finalizeTime_of T ->
    sentWaitingMessage (status_of tx s) = true ->
    sentWaitingMessage (status_of tx s') = true ->
    sent5MinuteReminder (status_of tx s) = false ->
    sent5MinuteReminder (status_of tx s') = true ->
    effect lib m w tx s s' new
| effect_reset (T : Z) :
    forallb quiet new = true ->
    proven_at lib m w tx T ->
    finalizeTime_of T <= Now w ->
    sentWaitingMessage (status_of tx s') = false ->
    sent5MinuteReminder (status_of tx s') = false ->
    effect lib m w tx s s' new.

(** A call leaves the tracked hashes alone, only appends events, and
    touches the status of no other hash. *)
Definition framed (tx : string) (s s' : WithdrawalScheduler) (new : list Event) : Prop :=
  withdrawalHashes s' = withdrawalHashes s
  /\ events s' = events s ++ new
  /\ forall t, t <> tx -> status_of t s' = status_of t s.

(** Notices of a kind sent so far, plus one while its flag is not set. *)
Definition slack (tx : string) (flag : WithdrawalStatus -> bool) (p : Event -> bool)
    (s : WithdrawalScheduler) : nat :=
  (count p (events s) + (if flag (status_of tx s) then 0 else 1))%nat.

Definition no_more (tx : string) (s s' : WithdrawalScheduler) : Prop :=
  (slack tx sentWaitingMessage (is_waiting tx) s'
   <= slack tx sentWaitingMessage (is_waiting tx) s)%nat
  /\ (slack tx sent5MinuteReminder (is_reminder tx) s'
      <= slack tx sent5MinuteReminder (is_reminder tx) s)%nat.

Definition none_sent (tx : string) (s s' : WithdrawalScheduler) : Prop :=
  count (is_waiting tx) (events s') = count (is_waiting tx) (events s)
  /\ count (is_reminder tx) (events s') = count (is_reminder tx) (events s).

(** ** Further observations *)

(** Whether a log is a [SentMessage] log of the L2 messenger. *)
Definition is_sentMessage_log (m : CrossChainMessenger) (l : Log) : bool :=
  bytes_eqb (log_Address l)
    (Hex.HexToAddress (L2CrossDomainMessenger (Bridges (Contracts m))))
  && topic_matches l sentMessageTopic.

(** Whether a log is a [SentMessageExtension1] log of the message passer. *)
Definition is_extension_log (m : CrossChainMessenger) (l : Log) : bool :=
  bytes_eqb (log_Address l)
    (Hex.HexToAddress (L2ToL1MessagePasser (Bridges (Contracts m))))
  && topic_matches l sentMessageExtension1Topic.

(** A value of the extension event, zero when the event or the value is
    missing. *)
Definition value_or_zero (ext : option SentMessageExtension1)
    (field : SentMessageExtension1 -> option Z) : option Z :=
  match ext with
  | Some e => match field e with Some v => Some v | None => Some 0 end
  | None => Some 0
  end.

(** The message that [getMessages] builds from a receipt, the decoded
    [MessagePassed] event and the status. *)
Definition message_of (lib : Library) (m : CrossChainMessenger) (receipt : Receipt)
    (evt : MessagePassed) (status : Z) : Message :=
  let base := fold_left (sentMessage_step lib m receipt) (rcpt_Logs receipt) Message_zero in
  let ext := fold_left (sentMessageExtension1_step lib m) (rcpt_Logs receipt) None in
  mkMessage (TxHash base) (BlockNumber base) (LogIndex base) (Direction base) status
    (Some (mp_Nonce evt)) (Hex.EncodeToString (mp_WithdrawalHash evt))
    (value_or_zero ext sme_MntValue) (value_or_zero ext sme_EthValue)
    (SentMessageEvent base) ext (Some evt).

(** The status read from the portal for a withdrawal hash given as text. *)
Definition status_on_chain (m : CrossChainMessenger) (w : World) (withdrawalHash : string) : Z :=
  spec_status
    (Portal_FinalizedWithdrawals w (portal_address m) (Hex.HexToHash withdrawalHash))
    (Portal_ProvenWithdrawals w (portal_address m) (Hex.HexToHash withdrawalHash)).

(** The withdrawal and the portal an L1 transaction carries. *)
Definition call_tx (c : L1Call) : WithdrawalTransaction :=
  match c with
  | ProveWithdrawalTransaction _ _ tx _ _ _ => tx
  | FinalizeWithdrawalTransaction _ _ tx => tx
  end.

Definition call_portal (c : L1Call) : bytes :=
  match c with
  | ProveWithdrawalTransaction portal _ _ _ _ _ => portal
  | FinalizeWithdrawalTransaction portal _ _ => portal
  end.

Definition is_prove_call (c : L1Call) : bool :=
  match c with
  | ProveWithdrawalTransaction _ _ _ _ _ _ => true
  | FinalizeWithdrawalTransaction _ _ _ => false
  end.

Definition is_submit (e : Event) : bool :=
  match e with
  | Submit _ => true
  | Notify _ => false
  end.

(** What a step of the scheduler never undoes: the tracked hashes stay,
    events are only appended, a withdrawal marked finalized stays marked,
    no status entry is removed, a cancelled context stays cancelled. *)
Definition grows (s s' : WithdrawalScheduler) : Prop :=
  withdrawalHashes s' = withdrawalHashes s
  /\ (exists new, events s' = events s ++ new)
  /\ (forall t, finalized (status_of t s) = true -> finalized (status_of t s') = true)
  /\ (forall t, is_Some (withdrawalStatus s !! t) -> is_Some (withdrawalStatus s' !! t))
  /\ (cancelled s = true -> cancelled s' = true).

(** The state [CheckWithdrawal] works on once it has looked up the status
    of a hash: an untracked hash gets the zero status. *)
Definition tracked_state (tx : string) (s : WithdrawalScheduler) : WithdrawalScheduler :=
  match withdrawalStatus s !! tx with
  | Some _ => s
  | None => store_status tx WithdrawalStatus_zero s
  end.

(** The events of one call: at most one of them is a transaction, and it
    is the one [ProveMessage] or [FinalizeMessage] handed to the node. *)
Definition one_submission (lib : Library) (m : CrossChainMessenger) (w : World)
    (tx : string) (new : list Event) : Prop :=
  (count is_submit new <= 1)%nat
  /\ forall c, In (Submit c) new ->
               In c (snd (ProveMessage lib m w tx 0))
               \/ In c (snd (FinalizeMessage lib m w tx 0)).

(** Every tracked hash has a status entry, as [NewWithdrawalScheduler]
    leaves it. *)
Definition all_tracked (s : WithdrawalScheduler) : Prop :=
  Forall (fun h => is_Some (withdrawalStatus s !! h)) (withdrawalHashes s).

(** What holds of a scheduler that has sent [c0] "all completed" notices
    before it was started: while it runs there is no further one; once its
    context is cancelled every status is finalized and that notice is the
    last event. *)
Definition stop_inv (hashes : list string) (c0 : nat) (s : WithdrawalScheduler) : Prop :=
  withdrawalHashes s = hashes
  /\ all_tracked s
  /\ (cancelled s = false -> count is_all_completed (events s) = c0)
  /\ (cancelled s = true ->
      allFinalized s = true
      /\ count is_all_completed (events s) = S c0
      /\ last (events s) = Some (Notify AllWithdrawalsCompleted)).

(** One call either leaves the context alone and sends no "all completed"
    notice, or it cancels the context: then every status is finalized and
    that notice is the one new event of its kind, and the last. *)
Definition stop_step (s s' : WithdrawalScheduler) : Prop :=
  (cancelled s' = false
   /\ count is_all_completed (events s') = count is_all_completed (events s))
  \/ (cancelled s' = true
      /\ allFinalized s' = true
      /\ count is_all_completed (events s') = S (count is_all_completed (events s))
      /\ last (events s') = Some (Notify AllWithdrawalsCompleted)).

(** At the snapshot [w] the withdrawal is ready to prove, and the prove
    transaction [c] is handed to the node but [ProveMessage] fails with
    [e]. *)
Definition prove_fails (lib : Library) (m : CrossChainMessenger) (w : World)
    (tx : string) : Prop :=
  exists message latestProposedBlock e c,
    getMessages lib m w tx = Ok message
    /\ Status message = 0
    /\ GetLatestProposedL2Block w = Ok latestProposedBlock
    /\ BlockNumber message <= latestProposedBlock
    /\ ProveMessage lib m w tx 0 = (Err e, [c]).

Definition is_prove_failed (tx : string) (e : Event) : bool :=
  match e with
  | Notify (ProveFailed t _) => String.eqb t tx
  | _ => false
  end.

(** The variables that override a contract address. *)
Definition contract_variables : list string :=
  ["L1_STATE_COMMITMENT_CHAIN"; "L1_CANONICAL_TRANSACTION_CHAIN"; "L1_BOND_MANAGER";
   "L1_ADDRESS_MANAGER"; "L1_CROSS_DOMAIN_MESSENGER"; "L1_STANDARD_BRIDGE";
   "L1_OPTIMISM_PORTAL"; "L2_OUTPUT_ORACLE"; "L1_BRIDGE"; "L2_BRIDGE";
   "L2_CROSS_DOMAIN_MESSENGER"; "L2_TO_L1_MESSAGE_PASSER"].

(** Texts in the list of hashes: every byte of a text satisfies [p]. *)
Fixpoint all_chars (p : ascii -> bool) (s : string) : bool :=
  match s with
  | EmptyString => true
  | String c s' => p c && all_chars p s'
  end.

(** A printable ASCII byte other than the space and the comma. *)
Definition is_graphic (c : ascii) : bool :=
  let b := Strings.byteZ c in (33 <=? b) && (b <=? 126) && negb (b =? 44).

(** An entry of the list as it is written: a hash (possibly empty) with
    ASCII white space before and after it. *)
Record Entry := mkEntry {
  entry_before : string;
  entry_hash : string;
  entry_after : string
}.

Definition entry_text (e : Entry) : string :=
  entry_before e +:+ entry_hash e +:+ entry_after e.

Definition well_formed_entry (e : Entry) : bool :=
  all_chars Strings.asciiSpace (entry_before e)
  && all_chars is_graphic (entry_hash e)
  && all_chars Strings.asciiSpace (entry_after e).

Definition nonempty (s : string) : bool := negb (String.eqb s EmptyString).

(** The same snapshot with other answers of [provenWithdrawals]. *)
Definition with_proven (f : bytes -> bytes -> reply ProvenWithdrawal) (w : World) : World :=
  mkWorld (L2_TransactionReceipt w) (L1_TransactionReceipt w) (L2_HeaderByNumber w)
    (L2_eth_getProof w) (Portal_FinalizedWithdrawals w) f
    (Oracle_GetL2OutputIndexAfter w) (Oracle_GetL2Output w) (L1_BlockNumber w)
    (L1_FilterLogs w) (L1_ChainID w) (KMS_Transactor w) (Keyed_Transactor w)
    (HexToECDSA w) (L1_Transact w) (L1_WaitMined w) (Now w).

(** ** A recorded scenario

    One withdrawal, its receipt and the answers of both chains, used to run
    the definitions above. *)

Module Fixture.

Definition tx0 : string :=
  "0x2ddc5affc8b98cf6c9e5157347d726d0b11c79e9697a3d27ec55aa9693f9baf2".

Definition fill (b : N) (n : nat) : bytes := repeat (byte_of_N b) n.

Definition withdrawalHash0 : bytes := fill 0x11 32.
Definition stateRoot0 : bytes := fill 0x22 32.
Definition blockHash0 : bytes := fill 0x33 32.
Definition storageRoot0 : bytes := fill 0x44 32.
Definition sender0 : bytes := fill 0xaa 20.
Definition target0 : bytes := fill 0xbb 20.

(** A word of ABI-encoded data. *)
Definition abi_word (i : nat) (data : bytes) : bytes :=
  firstn 32 (skipn (32 * i) data).

Definition word_of (x : Z) : bytes := Hex.BigToHash x.

(** Decoders for logs laid out as the contracts emit them. *)
Definition decode_MessagePassed (l : Log) : reply MessagePassed :=
  match log_Topics l with
  | [_; nonce; sender; target] =>
      if Nat.ltb (List.length (log_Data l)) 160
      then Fault (ErrClient "abi: short data")
      else
        let d := log_Data l in
        let len := Z.to_nat (big_SetBytes (abi_word 5 d)) in
        Reply (mkMessagePassed (big_SetBytes nonce)
                 (skipn 12 sender) (skipn 12 target)
                 (big_SetBytes (abi_word 0 d)) (big_SetBytes (abi_word 1 d))
                 (big_SetBytes (abi_word 2 d))
                 (firstn len (skipn 192 d)) (abi_word 4 d))
  | _ => Fault (ErrClient "abi: topic count")
  end.

Definition decode_SentMessage (l : Log) : reply SentMessage :=
  match log_Topics l with
  | [_; target] =>
      if Nat.ltb (List.length (log_Data l)) 128
      then Fault (ErrClient "abi: short data")
      else
        let d := log_Data l in
        Reply (mkSentMessage (skipn 12 target) (skipn 12 (abi_word 0 d)) []
                 (big_SetBytes (abi_word 2 d)) (big_SetBytes (abi_word 3 d)))
  | _ => Fault (ErrClient "abi: topic count")
  end.

Definition decode_SentMessageExtension1 (l : Log) : reply SentMessageExtension1 :=
  match log_Topics l with
  | [_; sender] =>
      if Nat.ltb (List.length (log_Data l)) 64
      then Fault (ErrClient "abi: short data")
      else
        Reply (mkSentMessageExtension1 (skipn 12 sender)
                 (Some (big_SetBytes (abi_word 0 (log_Data l))))
                 (Some (big_SetBytes (abi_word 1 (log_Data l)))))
  | _ => Fault (ErrClient "abi: topic count")
  end.

(** A proof that needs no extra node is returned as it is. *)
Definition lib0 : Library :=
  mkLibrary decode_SentMessage decode_SentMessageExtension1 decode_MessagePassed
    (fun _ proof => Reply proof).

Definition m0 : CrossChainMessenger :=
  mkCrossChainMessenger EmptyString false
    "0x4c0883a69102937d6231471b5dbb6204fe5129617082792ae468d01a3f362318"
    EmptyString default_contracts.

Definition messagePassedLog : Log :=
  mkLog (Hex.HexToAddress "0x4200000000000000000000000000000000000016")
    [Hex.HexToHash messagePassedTopic; word_of 7;
     zero_bytes 12 ++ sender0; zero_bytes 12 ++ target0]
    (word_of 0 ++ word_of 0 ++ word_of 100000 ++ word_of 160
     ++ withdrawalHash0 ++ word_of 0)
    1 1000.

Definition sentMessageLog : Log :=
  mkLog (Hex.HexToAddress "0x4200000000000000000000000000000000000007")
    [Hex.HexToHash sentMessageTopic; zero_bytes 12 ++ target0]
    (zero_bytes 12 ++ sender0 ++ word_of 128 ++ word_of 7 ++ word_of 100000
     ++ word_of 0)
    0 1000.

Definition receipt0 : Receipt :=
  mkReceipt (Hex.HexToHash tx0) 1000 [sentMessageLog; messagePassedLog].

Definition outputProposedLog (l2Block : Z) : Log :=
  mkLog (Hex.HexToAddress L2OutputOracleAddress)
    [Hex.HexToHash OutputProposedTopic; fill 0x55 32; word_of 5; word_of l2Block]
    (word_of 1700000000) 0 20000000.

Definition proofNode0 : string :=
  "0xe2a0" +:+ Hex.EncodeToString (fill 0x66 32) +:+ "01".

(** The output root that belongs to [stateRoot0], [storageRoot0] and
    [blockHash0]. *)
Definition outputRoot0 : bytes :=
  Keccak256Hash (zero_bytes 32 ++ stateRoot0 ++ storageRoot0 ++ blockHash0).

(** The scenario, by what the portal and the oracle report. *)
Definition world (isFinalized : bool) (proven : ProvenWithdrawal)
    (output : OutputProposal) (latestProposed : Z) (storageValue : string)
    (now : Z) : World :=
  mkWorld
    (fun h => if bytes_eqb h (Hex.HexToHash tx0) then Reply receipt0
              else Fault (ErrClient "not found"))
    (fun _ => Fault (ErrClient "not found"))
    (fun _ => Reply (mkHeader stateRoot0 blockHash0))
    (fun _ _ _ =>
       Reply (mkGetProofResult []
                [mkStorageEntry "0x0" storageValue [proofNode0]]
                (Hex.Hash_Hex storageRoot0)))
    (fun _ _ => Reply isFinalized)
    (fun _ _ => Reply proven)
    (fun _ _ => Reply 5)
    (fun _ _ => Reply output)
    (Reply 20000000)
    (fun _ => Reply [outputProposedLog latestProposed])
    (Reply 1)
    (fun k c => Reply (KMSOpts k c))
    (fun k c => Reply (KeyOpts k c))
    (fun k => Reply k)
    (fun _ => Reply tt)
    (fun _ => Reply 1)
    now.

Definition notProven : ProvenWithdrawal := mkProvenWithdrawal (zero_bytes 32) 0 0.
Definition provenAt (t : Z) : ProvenWithdrawal := mkProvenWithdrawal outputRoot0 t 5.
Definition output0 : OutputProposal := mkOutputProposal outputRoot0 1700000000 1200.

End Fixture.

(** Variations of the scenario, one per property below. *)

Module OracleDown.
Import Fixture.

(** The oracle does not answer: both reads fail. *)
Definition w : World :=
  mkWorld
    (L2_TransactionReceipt (world false notProven output0 1200 "0x1" 1700050000))
    (fun _ => Fault (ErrClient "not found"))
    (fun _ => Reply (mkHeader stateRoot0 blockHash0))
    (fun _ _ _ => Fault (ErrClient "timeout"))
    (fun _ _ => Reply false)
    (fun _ _ => Reply (provenAt 1700049000))
    (fun _ _ => Fault (ErrClient "timeout"))
    (fun _ _ => Fault (ErrClient "timeout"))
    (Reply 20000000)
    (fun _ => Reply [outputProposedLog 1200])
    (Reply 1)
    (fun k c => Reply (KMSOpts k c))
    (fun k c => Reply (KeyOpts k c))
    (fun k => Reply k)
    (fun _ => Reply tt)
    (fun _ => Reply 1)
    1700050000.

Definition message : Message :=
  mkMessage tx0 1000 0 "L2_TO_L1" 1 (Some 7)
    (Hex.EncodeToString withdrawalHash0) (Some 0) (Some 0) None None None.
End OracleDown.

Module NoMessagePassed.
Import Fixture.

(** The receipt of a transaction that only emitted [SentMessage]. *)
Definition receipt : Receipt := mkReceipt (Hex.HexToHash tx0) 1000 [sentMessageLog].

Definition w : World :=
  mkWorld
    (fun _ => Reply receipt)
    (fun _ => Fault (ErrClient "not found"))
    (fun _ => Reply (mkHeader stateRoot0 blockHash0))
    (fun _ _ _ => Fault (ErrClient "timeout"))
    (fun _ _ => Reply false)
    (fun _ _ => Reply notProven)
    (fun _ _ => Reply 5)
    (fun _ _ => Reply output0)
    (Reply 20000000)
    (fun _ => Reply [outputProposedLog 1200])
    (Reply 1)
    (fun k c => Reply (KMSOpts k c))
    (fun k c => Reply (KeyOpts k c))
    (fun k => Reply k)
    (fun _ => Reply tt)
    (fun _ => Reply 1)
    1700050000.
End NoMessagePassed.

Module RootMismatch.
Import Fixture.

(** The oracle holds another output root for the proposed block 1200. *)
Definition w : World :=
  world false notProven (mkOutputProposal (fill 0x01 32) 1700000000 1200)
    1200 "0x1" 1700050000.

Definition message : Message :=
  Eval vm_compute in
    match getMessages lib0 m0 w tx0 with Ok x => x | _ => Message_zero end.

Definition withdrawalProof : WithdrawalProof :=
  Eval vm_compute in
    match generateWithdrawalProofForBlock lib0 m0 w message 1200 with
    | Ok x => x
    | _ => mkWithdrawalProof [] [] [] []
    end.
End RootMismatch.

Module OutputTooOld.
Import Fixture.

(** The oracle answers with the output for L2 block 900; the withdrawal
    is in block 1000. *)
Definition w : World :=
  world false notProven (mkOutputProposal outputRoot0 1700000000 900)
    1200 "0x1" 1700050000.

Definition message : Message :=
  Eval vm_compute in
    match getMessages lib0 m0 w tx0 with Ok x => x | _ => Message_zero end.
End OutputTooOld.

Module StorageValueZero.
Import Fixture.

(** [eth_getProof] reports the value ["0x0"] for the slot. *)
Definition w : World := world false notProven output0 1200 "0x0" 1700050000.

Definition message : Message :=
  Eval vm_compute in
    match getMessages lib0 m0 w tx0 with Ok x => x | _ => Message_zero end.

Definition proofResult : GetProofResult :=
  mkGetProofResult [] [mkStorageEntry "0x0" "0x0" [proofNode0]]
    (Hex.Hash_Hex storageRoot0).
End StorageValueZero.

Module ProvenRun.
Import Fixture.

(** Proven at 1700000000, so finalizable from 1700043200 on. *)
Definition provenTime : Z := 1700000000.

Definition tick (now : Z) : World :=
  world false (provenAt provenTime) output0 1200 "0x1" now.

(** Four ticks before the period ends, one after. *)
Definition ticks : list World :=
  List.map tick [1700010000; 1700020000; 1700043000; 1700043100; 1700050000].

Definition message : Message :=
  Eval vm_compute in
    match getMessages lib0 m0 (tick 0) tx0 with Ok x => x | _ => Message_zero end.
End ProvenRun.

Module Reprove.
Import Fixture.

Definition s0 : WithdrawalScheduler := NewWithdrawalScheduler [tx0].

(** Proven at 1700000000 and waiting; then the proof is gone after a
    reorg and the scheduler proves again; then proven at 1700020100. *)
Definition waiting1 : World :=
  world false (provenAt 1700000000) output0 1200 "0x1" 1700010000.
Definition reorged : World :=
  world false notProven output0 1200 "0x1" 1700020000.
Definition waiting2 : World :=
  world false (provenAt 1700020100) output0 1200 "0x1" 1700030000.

Definition after (ws : list World) : WithdrawalScheduler :=
  snd (Start lib0 m0 ws s0).

(** The same snapshot with every L1 transaction reverting (receipt
    status 0). *)
Definition reverting (w : World) : World :=
  mkWorld (L2_TransactionReceipt w) (L1_TransactionReceipt w) (L2_HeaderByNumber w)
    (L2_eth_getProof w) (Portal_FinalizedWithdrawals w) (Portal_ProvenWithdrawals w)
    (Oracle_GetL2OutputIndexAfter w) (Oracle_GetL2Output w) (L1_BlockNumber w)
    (L1_FilterLogs w) (L1_ChainID w) (KMS_Transactor w) (Keyed_Transactor w)
    (HexToECDSA w) (L1_Transact w) (fun _ => Reply 0) (Now w).

(** PROVEN at every tick: waiting; then the period is over but the
    finalize reverts; then the portal shows a later proof of the same
    withdrawal. *)
Definition finalizeReverts : World :=
  reverting (world false (provenAt 1700000000) output0 1200 "0x1" 1700050000).
Definition provenLater : World :=
  world false (provenAt 1700040000) output0 1200 "0x1" 1700060000.

Definition message : Message :=
  Eval vm_compute in
    match getMessages lib0 m0 waiting1 tx0 with Ok x => x | _ => Message_zero end.
End Reprove.

Module ZeroTimestamp.
Import Fixture.

(** The portal reports a non-zero output root with timestamp 0. *)
Definition proven0 : ProvenWithdrawal := mkProvenWithdrawal outputRoot0 0 5.

Definition w : World := world false proven0 output0 1200 "0x1" 1700050000.

Definition message : Message :=
  Eval vm_compute in
    match getMessages lib0 m0 w tx0 with Ok x => x | _ => Message_zero end.

Definition s' : WithdrawalScheduler :=
  snd (CheckWithdrawal lib0 m0 w tx0 (NewWithdrawalScheduler [tx0])).
End ZeroTimestamp.

Module FinalizedElsewhere.
Import Fixture.

(** The portal already reports the withdrawal as finalized. *)
Definition w : World := world true (provenAt 1700000000) output0 1200 "0x1" 1700050000.

Definition s0 : WithdrawalScheduler := NewWithdrawalScheduler [tx0].

Definition run : outcome unit * WithdrawalScheduler :=
  Start lib0 m0 [w; w; w] s0.
End FinalizedElsewhere.

(** Further variations of the scenario. *)

(** The same snapshot with another receipt for every transaction hash. *)
Definition with_receipt (receipt : Receipt) (w : World) : World :=
  mkWorld (fun _ => Reply receipt) (L1_TransactionReceipt w) (L2_HeaderByNumber w)
    (L2_eth_getProof w) (Portal_FinalizedWithdrawals w) (Portal_ProvenWithdrawals w)
    (Oracle_GetL2OutputIndexAfter w) (Oracle_GetL2Output w) (L1_BlockNumber w)
    (L1_FilterLogs w) (L1_ChainID w) (KMS_Transactor w) (Keyed_Transactor w)
    (HexToECDSA w) (L1_Transact w) (L1_WaitMined w) (Now w).

Module MalformedLast.
Import Fixture.

(** A second [MessagePassed] log whose data is cut short comes after the
    well-formed one. *)
Definition brokenLog : Log :=
  mkLog (log_Address messagePassedLog) (log_Topics messagePassedLog) [] 2 1000.

Definition receipt : Receipt :=
  mkReceipt (Hex.HexToHash tx0) 1000 [sentMessageLog; messagePassedLog; brokenLog].

Definition w : World :=
  with_receipt receipt (world false notProven output0 1200 "0x1" 1700050000).
End MalformedLast.

Module NoSentMessage.
Import Fixture.

(** The receipt carries the [MessagePassed] log only. *)
Definition receipt : Receipt := mkReceipt (Hex.HexToHash tx0) 1000 [messagePassedLog].

Definition w : World :=
  with_receipt receipt (world false notProven output0 1200 "0x1" 1700050000).

Definition message : Message :=
  Eval vm_compute in
    match getMessages lib0 m0 w tx0 with Ok x => x | _ => Message_zero end.
End NoSentMessage.

Module SameWithdrawal.
Import Fixture.

(** The prove transaction sent while the withdrawal is not proven, and the
    finalize transaction sent after the challenge period. *)
Definition proving : World := world false notProven output0 1200 "0x1" 1700000000.
Definition finalizing : World :=
  world false (provenAt 1700000000) output0 1200 "0x1" 1700050000.

Definition proveCall : L1Call :=
  Eval vm_compute in
    match snd (ProveMessage lib0 m0 proving tx0 0) with
    | c :: _ => c
    | [] => FinalizeWithdrawalTransaction [] (KeyOpts EmptyString 0)
              (mkWithdrawalTransaction None [] [] None None 0 [])
    end.

Definition finalizeCall : L1Call :=
  Eval vm_compute in
    match snd (FinalizeMessage lib0 m0 finalizing tx0 0) with
    | c :: _ => c
    | [] => FinalizeWithdrawalTransaction [] (KeyOpts EmptyString 0)
              (mkWithdrawalTransaction None [] [] None None 0 [])
    end.
End SameWithdrawal.

Module NoSigner.
Import Fixture.

(** A messenger with neither a KMS client nor a private key. *)
Definition m : CrossChainMessenger :=
  mkCrossChainMessenger EmptyString false EmptyString EmptyString default_contracts.

Definition w : World := world false notProven output0 1200 "0x1" 1700000000.
End NoSigner.

Module NotYetProposed.
Import Fixture.

(** The latest proposed L2 block is 900; the withdrawal is in block 1000. *)
Definition w : World := world false notProven output0 900 "0x1" 1700000000.
End NotYetProposed.

Module ProveReverts.
Import Fixture.

(** Ready to prove at every tick, but the prove transaction reverts. *)
Definition w : World :=
  Reprove.reverting (world false notProven output0 1200 "0x1" 1700000000).

Definition message : Message :=
  Eval vm_compute in
    match getMessages lib0 m0 w tx0 with Ok x => x | _ => Message_zero end.

Definition call : L1Call :=
  Eval vm_compute in
    match snd (ProveMessage lib0 m0 w tx0 0) with
    | c :: _ => c
    | [] => FinalizeWithdrawalTransaction [] (KeyOpts EmptyString 0)
              (mkWithdrawalTransaction None [] [] None None 0 [])
    end.
End ProveReverts.

Module KeyStartup.
Import Fixture.

(** A start with a private key in the environment.  The key library
    answers with the public key (1, 2^255 + 1) for every key. *)
Definition env : gmap string string :=
  <["PRIV_KEY" := PrivateKey m0]>
    (<["L1_RPC" := "http://l1"]>
       (<["L2_RPC" := "http://l2"]>
          (<["WITHDRAWAL_TX_HASH" := tx0]> ∅))).

Definition st : Startup :=
  mkStartup env (fun _ _ => Reply tt) (Reply tt)
    (fun _ _ => Fault (ErrClient "no KMS")) (fun _ => Reply (1, 2 ^ 255 + 1)).

Definition wallet : string :=
  Eval vm_compute in publicKeyToAddress 1 (2 ^ 255 + 1).

Definition messenger : CrossChainMessenger :=
  mkCrossChainMessenger EmptyString false (PrivateKey m0) wallet default_contracts.
End KeyStartup.

(** * Properties *)

(** Closes a goal about closed terms by running the definitions. *)
Ltac by_evaluation :=
  first [ reflexivity
        | discriminate
        | vm_compute; first [reflexivity | discriminate | intro; discriminate] ].

(** Unfolds the state updates of the scheduler down to the map. *)
Ltac sched_simpl :=
  unfold status_of;
  cbn [withdrawalHashes withdrawalStatus cancelled events sendTelegramMessage
       record_calls store_status Stop snd fst List.map].

Ltac solve_flag :=
  unfold status_of in *; sched_simpl; rewrite ?lookup_insert_eq; cbn;
  first [reflexivity | congruence].

Ltac solve_framed :=
  unfold framed; sched_simpl;
  split; [reflexivity|];
  split; [first [ reflexivity
                | rewrite <- ?app_assoc; reflexivity
                | rewrite <- ?app_assoc, ?app_nil_r; reflexivity ]|];
  let t := fresh "t" in let Ht := fresh "Ht" in
  intros t Ht; rewrite ?lookup_insert_ne by congruence; reflexivity.

(** ** Hex encoding and hashes of fixed size *)

Section HexFacts.

Lemma byte_digits_roundtrip (b : byte) :
  Hex.fromHexChar (Hex.digit (N.shiftr (Byte.to_N b) 4)) = Some (N.shiftr (Byte.to_N b) 4)
  /\ Hex.fromHexChar (Hex.digit (N.land (Byte.to_N b) 15)) = Some (N.land (Byte.to_N b) 15)
  /\ byte_of_N (N.lor (N.shiftl (N.shiftr (Byte.to_N b) 4) 4) (N.land (Byte.to_N b) 15)) = b.
Proof. destruct b; repeat split; reflexivity. Qed.

Lemma Decode_EncodeToString (bs : bytes) :
  Hex.Decode (Hex.EncodeToString bs) = (bs, true).
Proof.
  induction bs as [|b bs IH]; [reflexivity|].
  destruct (byte_digits_roundtrip b) as (Hhi & Hlo & Hb).
  cbn [Hex.EncodeToString Hex.Decode].
  rewrite Hhi, Hlo, IH. cbn [fst snd]. now rewrite Hb.
Qed.

Lemma EncodeToString_inj (a b : bytes) :
  Hex.EncodeToString a = Hex.EncodeToString b -> a = b.
Proof.
  intros H. apply (f_equal Hex.Decode) in H.
  rewrite !Decode_EncodeToString in H. congruence.
Qed.

Lemma EncodeToString_length (bs : bytes) :
  String.length (Hex.EncodeToString bs) = (2 * List.length bs)%nat.
Proof. induction bs as [|b bs IH]; cbn [Hex.EncodeToString String.length List.length]; lia. Qed.

Lemma has0xPrefix_EncodeToString (bs : bytes) :
  Hex.has0xPrefix (Hex.EncodeToString bs) = false.
Proof. destruct bs as [|b bs]; [reflexivity|]. destruct b; reflexivity. Qed.

Lemma odd_double (n : nat) : Nat.odd (2 * n) = false.
Proof.
  rewrite <- Nat.negb_even, Nat.even_mul. reflexivity.
Qed.

Lemma FromHex_EncodeToString (bs : bytes) :
  Hex.FromHex (Hex.EncodeToString bs) = bs.
Proof.
  unfold Hex.FromHex, Hex.Hex2Bytes.
  rewrite has0xPrefix_EncodeToString, EncodeToString_length, odd_double.
  now rewrite Decode_EncodeToString.
Qed.

Lemma substring_all (s : string) : String.substring 0 (String.length s) s = s.
Proof. induction s as [|c s IH]; cbn; [reflexivity | now rewrite IH]. Qed.

(** The same with the ["0x"] prefix of [Hash.Hex]. *)
Lemma FromHex_Hash_Hex (bs : bytes) : Hex.FromHex (Hex.Hash_Hex bs) = bs.
Proof.
  unfold Hex.FromHex, Hex.Hex2Bytes, Hex.Hash_Hex.
  cbn [Hex.has0xPrefix Ascii.eqb Bool.eqb andb orb String.length].
  replace (S (S (String.length (Hex.EncodeToString bs))) - 2)%nat
    with (String.length (Hex.EncodeToString bs)) by lia.
  cbn [String.substring]. rewrite substring_all.
  rewrite EncodeToString_length, odd_double.
  now rewrite Decode_EncodeToString.
Qed.

Lemma zero_bytes_length (n : nat) : List.length (zero_bytes n) = n.
Proof. apply repeat_length. Qed.

Lemma SetBytes_length (n : nat) (b : bytes) : List.length (Hex.SetBytes n b) = n.
Proof.
  unfold Hex.SetBytes. rewrite length_app, zero_bytes_length, length_skipn. lia.
Qed.

Lemma SetBytes_exact (n : nat) (b : bytes) :
  List.length b = n -> Hex.SetBytes n b = b.
Proof.
  intros <-. unfold Hex.SetBytes. cbv zeta.
  rewrite Nat.sub_diag, skipn_O, Nat.sub_diag. reflexivity.
Qed.

(** Shorter input is padded on the left. *)
Lemma SetBytes_short (n : nat) (b : bytes) :
  (List.length b <= n)%nat -> Hex.SetBytes n b = zero_bytes (n - List.length b) ++ b.
Proof.
  intros H. unfold Hex.SetBytes. cbv zeta.
  replace (List.length b - n)%nat with 0%nat by lia.
  now rewrite skipn_O.
Qed.

Lemma HexToHash_length (s : string) : List.length (Hex.HexToHash s) = 32%nat.
Proof. apply SetBytes_length. Qed.

Lemma BigToHash_zero : Hex.BigToHash 0 = zero_bytes 32.
Proof. reflexivity. Qed.

Lemma copy_into_length (n : nat) (b : bytes) : List.length (copy_into n b) = n.
Proof.
  unfold copy_into. rewrite length_firstn, length_app, zero_bytes_length. lia.
Qed.

Lemma copy_into_exact (n : nat) (b : bytes) :
  List.length b = n -> copy_into n b = b.
Proof.
  intros H. unfold copy_into. subst n.
  rewrite firstn_app, Nat.sub_diag, firstn_all. cbn [firstn].
  now rewrite app_nil_r.
Qed.

Lemma Keccak256Hash_length (data : bytes) : List.length (Keccak256Hash data) = 32%nat.
Proof.
  unfold Keccak256Hash, Keccak.Keccak256, Keccak.sponge.
  now rewrite length_map, length_seq.
Qed.

(** The digest of the empty input, as published for Keccak-256. *)
Lemma Keccak256Hash_empty :
  Hex.EncodeToString (Keccak256Hash [])
  = "c5d2460186f7233c927e7db2dcc703c0e500b653ca82273b7bfad8045d85a470".
Proof. vm_compute. reflexivity. Qed.

(** The proven test of [checkProvenStatus] is a test on the bytes. *)
Lemma root_hex_is_zero (root : bytes) :
  String.eqb (Hex.Bytes2Hex root) zero_root_hex = true <-> root = zero_bytes 32.
Proof.
  rewrite String.eqb_eq. unfold Hex.Bytes2Hex. split.
  - intros H. apply EncodeToString_inj. rewrite H. reflexivity.
  - intros ->. reflexivity.
Qed.

End HexFacts.

(** ** Storage slot of a withdrawal hash *)

(** The slot for a hash shorter than 32 bytes: the hash is padded on the
    left before mapping slot 0 is appended. *)
Lemma calculateSentMessagesSlot_padded (h : bytes) :
  (List.length h <= 32)%nat ->
  calculateSentMessagesSlot (Hex.EncodeToString h)
  = Keccak256Hash ((zero_bytes (32 - List.length h) ++ h) ++ zero_bytes 32).
Proof.
  intros H. unfold calculateSentMessagesSlot, Hex.HexToHash, Hex.BytesToHash.
  rewrite FromHex_EncodeToString, BigToHash_zero.
  now rewrite (SetBytes_short Hex.HashLength h H).
Qed.

(** C3. For every 32-byte withdrawal hash [h], given as the hex text that
    [getMessages] stores (or with a ["0x"] in front),
    [calculateSentMessagesSlot] is the Keccak-256 digest of the 64 bytes
    [h || bytes32(0)]. *)
Theorem calculateSentMessagesSlot_spec (h : bytes) :
  List.length h = 32%nat ->
  List.length (h ++ zero_bytes 32) = 64%nat
  /\ calculateSentMessagesSlot (Hex.EncodeToString h) = Keccak256Hash (h ++ zero_bytes 32)
  /\ calculateSentMessagesSlot (Hex.Hash_Hex h) = Keccak256Hash (h ++ zero_bytes 32).
Proof.
  intros H. split; [|split].
  - rewrite length_app, zero_bytes_length. lia.
  - unfold calculateSentMessagesSlot, Hex.HexToHash, Hex.BytesToHash.
    rewrite FromHex_EncodeToString, BigToHash_zero.
    now rewrite (SetBytes_exact Hex.HashLength h H).
  - unfold calculateSentMessagesSlot, Hex.HexToHash, Hex.BytesToHash.
    rewrite FromHex_Hash_Hex, BigToHash_zero.
    now rewrite (SetBytes_exact Hex.HashLength h H).
Qed.

(** The vector of the specification, [h = 0x11..11]. *)
Lemma calculateSentMessagesSlot_spec_witness :
  List.length Fixture.withdrawalHash0 = 32%nat
  /\ calculateSentMessagesSlot (Hex.EncodeToString Fixture.withdrawalHash0)
     = Keccak256Hash (Fixture.withdrawalHash0 ++ zero_bytes 32).
Proof.
  split; [reflexivity|].
  apply (calculateSentMessagesSlot_spec Fixture.withdrawalHash0). reflexivity.
Defined.

(** ** Message status from the portal *)

Lemma checkProvenStatus_spec (m : CrossChainMessenger) (w : World) (withdrawalHash : string) :
  checkProvenStatus m w withdrawalHash
  = match Portal_ProvenWithdrawals w (portal_address m) (Hex.HexToHash withdrawalHash) with
    | Reply r => Ok (bool_decide (pw_OutputRoot r <> zero_bytes 32), pw_Timestamp r)
    | Fault e => Err e
    end.
Proof.
  unfold checkProvenStatus.
  destruct (Portal_ProvenWithdrawals w _ _) as [r|e]; [|reflexivity].
  do 2 f_equal.
  destruct (String.eqb (Hex.Bytes2Hex (pw_OutputRoot r)) zero_root_hex) eqn:E.
  - apply root_hex_is_zero in E. rewrite bool_decide_eq_false_2; [reflexivity|]. tauto.
  - rewrite bool_decide_eq_true_2; [reflexivity|].
    intros H. apply root_hex_is_zero in H. congruence.
Qed.

Lemma getMessageStatus_by_portal (m : CrossChainMessenger) (w : World) (message : Message) :
  getMessageStatus m w message
  = Ok (spec_status
          (Portal_FinalizedWithdrawals w (portal_address m)
             (Hex.HexToHash (WithdrawalHash message)))
          (Portal_ProvenWithdrawals w (portal_address m)
             (Hex.HexToHash (WithdrawalHash message)))).
Proof.
  unfold getMessageStatus. rewrite checkProvenStatus_spec.
  unfold checkFinalizationStatus, spec_status.
  destruct (Portal_FinalizedWithdrawals w _ _) as [[|]|e]; [reflexivity| |];
    (destruct (Portal_ProvenWithdrawals w _ _) as [r|e']; [|reflexivity]);
    cbn; destruct (decide (pw_OutputRoot r = zero_bytes 32)) as [Hz|Hz];
    rewrite ?(bool_decide_eq_true_2 _ Hz), ?(bool_decide_eq_false_2 _ Hz);
    try (rewrite bool_decide_eq_false_2 by tauto);
    try (rewrite bool_decide_eq_true_2 by tauto);
    reflexivity.
Qed.

(** C6. [getMessageStatus] returns 2 when [finalizedWithdrawals] answers
    true; else 1 when [provenWithdrawals] answers with a non-zero output
    root; else 0 (also when a read fails).  [checkProvenStatus] reports
    proven exactly when the output root returned is non-zero, with the
    timestamp next to it. *)
Theorem getMessageStatus_spec (m : CrossChainMessenger) (w : World) (message : Message) :
  getMessageStatus m w message
  = Ok (spec_status
          (Portal_FinalizedWithdrawals w (portal_address m)
             (Hex.HexToHash (WithdrawalHash message)))
          (Portal_ProvenWithdrawals w (portal_address m)
             (Hex.HexToHash (WithdrawalHash message))))
  /\ checkProvenStatus m w (WithdrawalHash message)
     = match Portal_ProvenWithdrawals w (portal_address m)
               (Hex.HexToHash (WithdrawalHash message)) with
       | Reply r => Ok (bool_decide (pw_OutputRoot r <> zero_bytes 32), pw_Timestamp r)
       | Fault e => Err e
       end.
Proof.
  split; [apply getMessageStatus_by_portal | apply checkProvenStatus_spec].
Qed.

(** ** Finalize readiness when the oracle cannot be read *)

(** C9. When [getL2OutputIndex] fails, or it succeeds and
    [getL2OutputData] fails, [checkCanFinalize] returns [(true, nil)]. *)
Theorem checkCanFinalize_assumes_ready (w : World) (withdrawalHash : string)
    (message : Message) :
  let oracle := "0x31d543e7BE1dA6eFDc2206Ef7822879045B9f481" in
  (is_Err (getL2OutputIndex w oracle (BlockNumber message)) = true
   \/ exists outputIndex,
        getL2OutputIndex w oracle (BlockNumber message) = Ok outputIndex
        /\ is_Err (getL2OutputData w oracle outputIndex) = true) ->
  checkCanFinalize w withdrawalHash message = Ok true.
Proof.
  intros oracle [H | (outputIndex & Hidx & Hdata)]; unfold checkCanFinalize; fold oracle.
  - destruct (getL2OutputIndex w oracle (BlockNumber message)); try discriminate.
    reflexivity.
  - rewrite Hidx.
    destruct (getL2OutputData w oracle outputIndex); try discriminate.
    reflexivity.
Qed.


(** Proven 1000 seconds ago, oracle unreachable: reported ready. *)
Lemma checkCanFinalize_assumes_ready_witness :
  is_Err (getL2OutputIndex OracleDown.w "0x31d543e7BE1dA6eFDc2206Ef7822879045B9f481"
            (BlockNumber OracleDown.message)) = true
  /\ checkCanFinalize OracleDown.w (WithdrawalHash OracleDown.message) OracleDown.message
     = Ok true.
Proof.
  split; [reflexivity|].
  apply (checkCanFinalize_assumes_ready OracleDown.w). left. reflexivity.
Defined.

(** ** A receipt without a MessagePassed log *)

Lemma messagePassed_step_no_match (lib : Library) (m : CrossChainMessenger)
    (logs : list Log) (acc : option MessagePassed) :
  Forall (fun l => is_messagePassed_log m l = false) logs ->
  fold_left (messagePassed_step lib m) logs acc = acc.
Proof.
  revert acc. induction logs as [|l logs IH]; intros acc H; [reflexivity|].
  inversion H as [|? ? Hl Hrest]; subst. cbn [fold_left].
  rewrite <- (IH acc Hrest) at 2. f_equal.
  unfold messagePassed_step. unfold is_messagePassed_log in Hl.
  destruct (bytes_eqb (log_Address l) _); cbn in *; [|reflexivity].
  now rewrite Hl.
Qed.

(** C10. For a receipt with no log that carries the MessagePassed topic at
    the message-passer address, [parseMessagePassedLogsEnhanced] returns a
    nil event with a nil error, and [getMessages] then reads
    [messagePassed.Nonce] through that nil pointer: a panic, not an error. *)
Theorem getMessages_panics_without_MessagePassed
    (lib : Library) (m : CrossChainMessenger) (w : World) (txHash : string)
    (receipt : Receipt) :
  L2_TransactionReceipt w (Hex.HexToHash txHash) = Reply receipt ->
  Forall (fun l => is_messagePassed_log m l = false) (rcpt_Logs receipt) ->
  parseMessagePassedLogsEnhanced lib m receipt = Ok None
  /\ getMessages lib m w txHash = Panic "nil pointer dereference: messagePassed.Nonce"
  /\ is_Err (getMessages lib m w txHash) = false.
Proof.
  intros Hr Hlogs.
  assert (Hp : parseMessagePassedLogsEnhanced lib m receipt = Ok None).
  { unfold parseMessagePassedLogsEnhanced.
    now rewrite (messagePassed_step_no_match lib m _ None Hlogs). }
  assert (Hg : getMessages lib m w txHash
               = Panic "nil pointer dereference: messagePassed.Nonce").
  { unfold getMessages, getTransactionReceipt. cbn [String.eqb Ascii.eqb Bool.eqb].
    rewrite Hr. unfold parseSentMessageLogsEnhanced. now rewrite Hp. }
  split; [exact Hp|]. split; [exact Hg|]. now rewrite Hg.
Qed.


Lemma getMessages_panics_without_MessagePassed_witness :
  getMessages Fixture.lib0 Fixture.m0 NoMessagePassed.w Fixture.tx0
  = Panic "nil pointer dereference: messagePassed.Nonce".
Proof.
  apply (getMessages_panics_without_MessagePassed Fixture.lib0 Fixture.m0
           NoMessagePassed.w Fixture.tx0 NoMessagePassed.receipt).
  - reflexivity.
  - repeat constructor.
Defined.

(** ** The prove pipeline *)

Lemma geb_false (a b : Z) : a < b -> (a >=? b) = false.
Proof. intros H. rewrite Z.geb_leb. apply Z.leb_gt. lia. Qed.

Lemma geb_true (a b : Z) : b <= a -> (a >=? b) = true.
Proof. intros H. rewrite Z.geb_leb. apply Z.leb_le. lia. Qed.

Lemma gtb_false (a b : Z) : a <= b -> (a >? b) = false.
Proof. intros H. rewrite Z.gtb_ltb. apply Z.ltb_ge. lia. Qed.


Section ProveFacts.

Variable lib : Library.
Variable m : CrossChainMessenger.

(** A message returned by [getMessages] carries its MessagePassed event. *)
Lemma getMessages_event (w : World) (txHash : string) (message : Message) :
  getMessages lib m w txHash = Ok message ->
  exists eventData, MessagePassedEvent message = Some eventData.
Proof.
  unfold getMessages. intros H.
  destruct (getTransactionReceipt w txHash "L2") as [receipt| |]; try discriminate.
  destruct (parseSentMessageLogsEnhanced lib m receipt) as [msg| |]; try discriminate.
  destruct (parseMessagePassedLogsEnhanced lib m receipt) as [[ev|]| |];
    try discriminate.
  destruct (getMessageStatus m w _) as [st| |]; try discriminate;
    injection H as <-; eexists; reflexivity.
Qed.

(** [ProveMessage] up to the block check, once its reads have answered. *)
Lemma ProveMessage_reads (w : World) (txHash : string) (messageIndex : Z)
    (message : Message) (outputIndex : Z) (outputData : OutputProposal) :
  getMessages lib m w txHash = Ok message ->
  Status message < 2 ->
  getL2OutputIndex w (L2OutputOracle (L1 (Contracts m))) (BlockNumber message)
    = Ok outputIndex ->
  getL2OutputData w (L2OutputOracle (L1 (Contracts m))) outputIndex = Ok outputData ->
  exists eventData,
    MessagePassedEvent message = Some eventData
    /\ ProveMessage lib m w txHash messageIndex
       = let outBlock := big_Uint64 (op_L2BlockNumber outputData) in
         if BlockNumber message >? outBlock
         then (Err (ErrBlockAfterOutput (BlockNumber message) outBlock), [])
         else
           match generateWithdrawalProofForBlock lib m w message outBlock with
           | Panic p => (Panic p, [])
           | Err e => (Err (ErrWrap "failed to generate withdrawal proof" e), [])
           | Ok withdrawalProof =>
               let outputRootProof :=
                 mkOutputRootProof (zero_bytes 32)
                   (wp_StateRoot withdrawalProof)
                   (wp_MessagePasserStorageRoot withdrawalProof)
                   (wp_LatestBlockhash withdrawalProof) in
               if negb (bytes_eqb (calculateOutputRoot outputRootProof)
                          (op_OutputRoot outputData))
               then (Err (ErrOutputRootMismatch (calculateOutputRoot outputRootProof)
                            (op_OutputRoot outputData)), [])
               else
                 match callProveWithdrawalTransaction m w
                         (build_withdrawalTx message eventData) outputIndex
                         outputRootProof (wp_WithdrawalProof withdrawalProof) with
                 | (Ok _, sent) => (Ok tt, sent)
                 | (Err e, sent) =>
                     (Err (ErrWrap "failed to prove withdrawal transaction" e), sent)
                 | (Panic p, sent) => (Panic p, sent)
                 end
           end.
Proof.
  intros Hmsg Hst Hidx Hdata.
  destruct (getMessages_event w txHash message Hmsg) as [eventData Hev].
  exists eventData. split; [exact Hev|].
  unfold ProveMessage. rewrite Hmsg.
  rewrite (geb_false _ _ Hst).
  rewrite Hidx, Hdata, Hev. reflexivity.
Qed.

Lemma calculateOutputRoot_keccak (proof : OutputRootProof) :
  calculateOutputRoot proof
  = Keccak256Hash (orp_Version proof ++ orp_StateRoot proof
                   ++ orp_MessagePasserStorageRoot proof
                   ++ orp_LatestBlockhash proof).
Proof.
  unfold calculateOutputRoot. apply copy_into_exact, Keccak256Hash_length.
Qed.

(** The proof returned by [generateWithdrawalProofForBlock] has 32-byte
    state and storage roots, and the block hash of the header. *)
Lemma generateWithdrawalProofForBlock_roots (w : World) (message : Message)
    (blockNumber : Z) (withdrawalProof : WithdrawalProof) :
  generateWithdrawalProofForBlock lib m w message blockNumber = Ok withdrawalProof ->
  List.length (wp_StateRoot withdrawalProof) = 32%nat
  /\ List.length (wp_MessagePasserStorageRoot withdrawalProof) = 32%nat
  /\ exists block,
       L2_HeaderByNumber w (to_int64 blockNumber) = Reply block
       /\ wp_LatestBlockhash withdrawalProof = hdr_Hash block.
Proof.
  unfold generateWithdrawalProofForBlock. intros H.
  destruct (L2_HeaderByNumber w (to_int64 blockNumber)) as [block|]; try discriminate.
  destruct (L2_eth_getProof w _ _ _) as [proofResult|]; try discriminate.
  destruct (gp_StorageProof proofResult) as [|sp0 rest]; try discriminate.
  destruct (MaybeAddProofNode lib _ _) as [proof'|]; try discriminate.
  destruct (existsb _ proof'); try discriminate.
  injection H as <-. cbn [wp_StateRoot wp_MessagePasserStorageRoot wp_LatestBlockhash].
  rewrite !copy_into_length. repeat split. exists block. split; reflexivity.
Qed.

End ProveFacts.

(** C1. For the OutputRootProof that [ProveMessage] assembles (version
    zero, state root, message-passer storage root, block hash of the
    proposed block), [calculateOutputRoot] is the Keccak-256 digest of the
    128 bytes [version || stateRoot || messagePasserStorageRoot ||
    latestBlockhash]; when the digest differs from the [outputRoot] of the
    oracle at the chosen index, [ProveMessage] returns the mismatch error
    with no L1 transaction handed to the node. *)
Theorem ProveMessage_aborts_on_root_mismatch
    (lib : Library) (m : CrossChainMessenger) (w : World) (txHash : string)
    (messageIndex : Z) (message : Message) (outputIndex : Z)
    (outputData : OutputProposal) (withdrawalProof : WithdrawalProof) :
  getMessages lib m w txHash = Ok message ->
  Status message < 2 ->
  getL2OutputIndex w (L2OutputOracle (L1 (Contracts m))) (BlockNumber message)
    = Ok outputIndex ->
  getL2OutputData w (L2OutputOracle (L1 (Contracts m))) outputIndex = Ok outputData ->
  BlockNumber message <= big_Uint64 (op_L2BlockNumber outputData) ->
  generateWithdrawalProofForBlock lib m w message
    (big_Uint64 (op_L2BlockNumber outputData)) = Ok withdrawalProof ->
  List.length (wp_LatestBlockhash withdrawalProof) = 32%nat ->
  let outputRootProof :=
    mkOutputRootProof (zero_bytes 32) (wp_StateRoot withdrawalProof)
      (wp_MessagePasserStorageRoot withdrawalProof)
      (wp_LatestBlockhash withdrawalProof) in
  let data :=
    zero_bytes 32 ++ wp_StateRoot withdrawalProof
    ++ wp_MessagePasserStorageRoot withdrawalProof
    ++ wp_LatestBlockhash withdrawalProof in
  List.length data = 128%nat
  /\ calculateOutputRoot outputRootProof = Keccak256Hash data
  /\ (Keccak256Hash data <> op_OutputRoot outputData ->
      ProveMessage lib m w txHash messageIndex
      = (Err (ErrOutputRootMismatch (Keccak256Hash data) (op_OutputRoot outputData)), []))
  /\ (snd (ProveMessage lib m w txHash messageIndex) <> [] ->
      Keccak256Hash data = op_OutputRoot outputData).
Proof.
  intros Hmsg Hst Hidx Hdata Hblk Hgen Hlen orp data.
  destruct (generateWithdrawalProofForBlock_roots lib m w message _ _ Hgen)
    as (Hsr & Hmr & _).
  assert (Hcalc : calculateOutputRoot orp = Keccak256Hash data)
    by apply calculateOutputRoot_keccak.
  destruct (ProveMessage_reads lib m w txHash messageIndex message outputIndex
              outputData Hmsg Hst Hidx Hdata) as (eventData & Hev & Hrun).
  cbv zeta in Hrun.
  rewrite (gtb_false _ _ Hblk) in Hrun.
  rewrite Hgen in Hrun. fold orp in Hrun. rewrite Hcalc in Hrun.
  split; [|split; [exact Hcalc|split]].
  - subst data. rewrite !length_app, zero_bytes_length. lia.
  - intros Hne. rewrite Hrun. unfold bytes_eqb.
    rewrite bool_decide_eq_false_2 by exact Hne. reflexivity.
  - intros Hsent. rewrite Hrun in Hsent. unfold bytes_eqb in Hsent.
    destruct (decide (Keccak256Hash data = op_OutputRoot outputData)) as [He|Hne];
      [exact He|].
    rewrite bool_decide_eq_false_2 in Hsent by exact Hne. now cbn in Hsent.
Qed.


(** Scenario "ready to prove, proof mismatches": the digest of the four
    fields is not the root of the oracle, and nothing is sent. *)
Lemma ProveMessage_aborts_on_root_mismatch_witness :
  Keccak256Hash (zero_bytes 32 ++ Fixture.stateRoot0 ++ Fixture.storageRoot0
                 ++ Fixture.blockHash0) <> Fixture.fill 0x01 32
  /\ is_Err (fst (ProveMessage Fixture.lib0 Fixture.m0 RootMismatch.w Fixture.tx0 0)) = true
  /\ snd (ProveMessage Fixture.lib0 Fixture.m0 RootMismatch.w Fixture.tx0 0) = [].
Proof.
  assert (Hne : Keccak256Hash (zero_bytes 32 ++ Fixture.stateRoot0
                               ++ Fixture.storageRoot0 ++ Fixture.blockHash0)
                <> Fixture.fill 0x01 32) by (vm_compute; discriminate).
  split; [exact Hne|].
  destruct (ProveMessage_aborts_on_root_mismatch Fixture.lib0 Fixture.m0
              RootMismatch.w Fixture.tx0 0 RootMismatch.message 5
              (mkOutputProposal (Fixture.fill 0x01 32) 1700000000 1200)
              RootMismatch.withdrawalProof)
    as (_ & _ & Habort & _); try (vm_compute; reflexivity).
  - vm_compute. discriminate.
  - rewrite (Habort Hne). split; reflexivity.
Defined.

(** ** The proposed block is below the withdrawal block *)

Section BlockGate.

Variable lib : Library.
Variable m : CrossChainMessenger.


(** [CheckWithdrawal] on a withdrawal that is tracked, not yet proven and
    past the scheduler's own block check, in terms of [ProveMessage]. *)
Lemma CheckWithdrawal_ready_to_prove (w : World) (txHash : string)
    (s : WithdrawalScheduler) (status : WithdrawalStatus) (message : Message)
    (latestProposedBlock : Z) :
  txHash <> EmptyString ->
  withdrawalStatus s !! txHash = Some status ->
  cancelled s = false ->
  getMessages lib m w txHash = Ok message ->
  Status message < 1 ->
  GetLatestProposedL2Block w = Ok latestProposedBlock ->
  BlockNumber message <= latestProposedBlock ->
  CheckWithdrawal lib m w txHash s
  = check_ready_to_prove lib m w txHash message latestProposedBlock s.
Proof.
  intros Hne Hs Hc Hmsg Hst Hlatest Hgate.
  unfold CheckWithdrawal.
  rewrite (proj2 (String.eqb_neq txHash EmptyString) Hne), Hs, Hc.
  unfold GetMessages. rewrite Hmsg, Hlatest.
  rewrite geb_true by lia. rewrite geb_false by lia.
  replace (Status message =? 1) with false by (symmetry; apply Z.eqb_neq; lia).
  reflexivity.
Qed.

End BlockGate.





(** ** The storage value returned by eth_getProof *)

(** C4 (as amended). Whatever storage value [eth_getProof] returns, also
    one that is neither ["0x1"] nor ["0x01"], [generateWithdrawalProofForBlock]
    only prints a warning about it: with the header, one storage-proof
    entry, and [MaybeAddProofNode] answering with non-empty nodes, it
    returns the withdrawal proof built from the returned nodes. *)
Theorem generateWithdrawalProofForBlock_ignores_storage_value
    (lib : Library) (m : CrossChainMessenger) (w : World) (message : Message)
    (blockNumber : Z) (block : Header) (proofResult : GetProofResult)
    (sp0 : StorageEntry) (rest : list StorageEntry) (proof' : list bytes) :
  L2_HeaderByNumber w (to_int64 blockNumber) = Reply block ->
  L2_eth_getProof w (Hex.HexToAddress (L2ToL1MessagePasser (Bridges (Contracts m))))
    (calculateSentMessagesSlot (WithdrawalHash message))
    (big_Uint64 (to_int64 blockNumber)) = Reply proofResult ->
  gp_StorageProof proofResult = sp0 :: rest ->
  MaybeAddProofNode lib
    (copy_into 32 (calculateSentMessagesSlot (WithdrawalHash message)))
    (List.map Hex.FromHex (se_Proof sp0)) = Reply proof' ->
  Forall (fun node => node <> []) proof' ->
  generateWithdrawalProofForBlock lib m w message blockNumber
  = Ok (mkWithdrawalProof proof'
          (copy_into 32 (Hex.HexToHash (gp_StorageHash proofResult)))
          (hdr_Hash block) (copy_into 32 (hdr_Root block))).
Proof.
  intros Hhdr Hproof Hsp Hnode Hne.
  unfold generateWithdrawalProofForBlock.
  rewrite Hhdr, Hproof, Hsp, Hnode.
  replace (existsb (fun proof => Nat.eqb (List.length proof) 0) proof') with false;
    [reflexivity|].
  symmetry. apply not_true_is_false. intros Hex.
  apply existsb_exists in Hex as (node & Hin & Hlen).
  rewrite Forall_forall in Hne. apply (Hne node); [now apply list_elem_of_In|].
  apply Nat.eqb_eq in Hlen. now destruct node.
Qed.


(** With the value ["0x0"] the withdrawal proof is produced all the same,
    and [ProveMessage] goes on to submit the prove transaction. *)
Lemma storage_value_zero_is_no_error :
  se_Value (mkStorageEntry "0x0" "0x0" [Fixture.proofNode0]) <> "0x1"
  /\ se_Value (mkStorageEntry "0x0" "0x0" [Fixture.proofNode0]) <> "0x01"
  /\ L2_eth_getProof StorageValueZero.w
       (Hex.HexToAddress (L2ToL1MessagePasser (Bridges (Contracts Fixture.m0))))
       (calculateSentMessagesSlot (WithdrawalHash StorageValueZero.message)) 1200
     = Reply StorageValueZero.proofResult
  /\ is_Ok (generateWithdrawalProofForBlock Fixture.lib0 Fixture.m0
              StorageValueZero.w StorageValueZero.message 1200) = true
  /\ fst (ProveMessage Fixture.lib0 Fixture.m0 StorageValueZero.w Fixture.tx0 0) = Ok tt
  /\ List.length (snd (ProveMessage Fixture.lib0 Fixture.m0 StorageValueZero.w
                         Fixture.tx0 0)) = 1%nat.
Proof. repeat split; by_evaluation. Qed.

Lemma generateWithdrawalProofForBlock_ignores_storage_value_witness :
  generateWithdrawalProofForBlock Fixture.lib0 Fixture.m0 StorageValueZero.w
    StorageValueZero.message 1200
  = Ok (mkWithdrawalProof [Hex.FromHex Fixture.proofNode0] Fixture.storageRoot0
          Fixture.blockHash0 Fixture.stateRoot0).
Proof.
  rewrite (generateWithdrawalProofForBlock_ignores_storage_value Fixture.lib0
             Fixture.m0 StorageValueZero.w StorageValueZero.message 1200
             (mkHeader Fixture.stateRoot0 Fixture.blockHash0)
             StorageValueZero.proofResult
             (mkStorageEntry "0x0" "0x0" [Fixture.proofNode0]) []
             [Hex.FromHex Fixture.proofNode0]).
  - by_evaluation.
  - by_evaluation.
  - by_evaluation.
  - by_evaluation.
  - by_evaluation.
  - repeat constructor. by_evaluation.
Defined.

(** ** Notices and flags of the scheduler *)

Lemma count_app (p : Event -> bool) (a b : list Event) :
  count p (a ++ b) = (count p a + count p b)%nat.
Proof. unfold count. now rewrite List.filter_app, length_app. Qed.

Lemma count_quiet_waiting (tx : string) (evs : list Event) :
  forallb quiet evs = true -> count (is_waiting tx) evs = 0%nat.
Proof.
  induction evs as [|e evs IH]; [reflexivity|]. cbn [forallb].
  intros [He Hrest]%andb_prop. unfold count in *. cbn [List.filter].
  destruct e as [[]|]; try discriminate; cbn [is_waiting]; auto.
Qed.

Lemma count_quiet_reminder (tx : string) (evs : list Event) :
  forallb quiet evs = true -> count (is_reminder tx) evs = 0%nat.
Proof.
  induction evs as [|e evs IH]; [reflexivity|]. cbn [forallb].
  intros [He Hrest]%andb_prop. unfold count in *. cbn [List.filter].
  destruct e as [[]|]; try discriminate; cbn [is_reminder]; auto.
Qed.

Lemma status_of_store (tx t : string) (st : WithdrawalStatus) (s : WithdrawalScheduler) :
  status_of t (store_status tx st s)
  = if decide (tx = t) then st else status_of t s.
Proof.
  unfold status_of, store_status. cbn [withdrawalStatus].
  rewrite lookup_insert. now destruct (decide (tx = t)).
Qed.

Section Effects.

Variable lib : Library.
Variable m : CrossChainMessenger.

Lemma check_proven_effect (w : World) (tx : string) (message : Message)
    (status : WithdrawalStatus) (s : WithdrawalScheduler) :
  getMessages lib m w tx = Ok message ->
  Status message = 1 ->
  status_of tx s = status ->
  exists new,
    framed tx s (snd (check_proven lib m w tx message status s)) new
    /\ effect lib m w tx s (snd (check_proven lib m w tx message status s)) new.
Proof.
  intros Hmsg Hst <-. unfold check_proven, GetWithdrawalHash. cbv zeta.
  destruct (CheckProvenStatus m w (WithdrawalHash message)) as [[isProven T]| |] eqn:Hp.
  2,3: exists []; split; [solve_framed | now apply effect_quiet].
  destruct isProven; cbn [negb].
  2: exists []; split; [solve_framed | now apply effect_quiet].
  assert (Hat : proven_at lib m w tx T) by (exists message; auto).
  fold (finalizeTime_of T).
  destruct (Now w >=? finalizeTime_of T) eqn:Hnow.
  - (* the challenge period has passed *)
    assert (Hge : finalizeTime_of T <= Now w)
      by (rewrite Z.geb_leb in Hnow; now apply Z.leb_le).
    destruct (FinalizeMessage lib m w tx 0) as [r calls].
    set (pre := [Notify (ReadyToFinalize tx (big_Int64 T)); Notify (StartingFinalize tx)]
                ++ List.map Submit calls).
    assert (Hq : forallb quiet pre = true).
    { subst pre. cbn. clear. induction calls; [reflexivity|]. cbn. exact IHcalls. }
    destruct r as [[]|e|p]; [destruct (allFinalized _)| |].
    + exists (pre ++ [Notify (FinalizeSuccessful tx); Notify AllWithdrawalsCompleted]).
      split; [subst pre; solve_framed|].
      apply effect_reset with (T := T); auto; try solve_flag.
      rewrite forallb_app, Hq. reflexivity.
    + exists (pre ++ [Notify (FinalizeSuccessful tx)]).
      split; [subst pre; solve_framed|].
      apply effect_reset with (T := T); auto; try solve_flag.
      rewrite forallb_app, Hq. reflexivity.
    + exists (pre ++ [Notify (FinalizeFailed tx e)]).
      split; [subst pre; solve_framed|].
      apply effect_reset with (T := T); auto; try solve_flag.
      rewrite forallb_app, Hq. reflexivity.
    + exists pre. split; [subst pre; solve_framed|].
      apply effect_reset with (T := T); auto; solve_flag.
  - (* still waiting *)
    assert (Hlt : Now w < finalizeTime_of T)
      by (rewrite Z.geb_leb in Hnow; apply Z.leb_gt in Hnow; lia).
    destruct (sentWaitingMessage (status_of tx s)) eqn:Hw; cbn [negb].
    + destruct ((int64_sub (finalizeTime_of T) (Now w) <=? fiveMinutes)
                && negb (sent5MinuteReminder (status_of tx s))) eqn:Hr.
      * apply andb_prop in Hr as [_ Hr]. apply negb_true_iff in Hr.
        eexists. split; [solve_framed|].
        eapply effect_reminder with (T := T); [reflexivity|..]; auto; try solve_flag;
          congruence.
      * exists []. split; [solve_framed | now apply effect_quiet].
    + eexists. split; [solve_framed|].
      eapply effect_waiting with (T := T); [reflexivity|..]; auto; try solve_flag;
        congruence.
Qed.


Lemma check_ready_to_prove_effect (w : World) (tx : string) (message : Message)
    (latestProposedBlock : Z) (s : WithdrawalScheduler) :
  exists new,
    framed tx s (snd (check_ready_to_prove lib m w tx message latestProposedBlock s)) new
    /\ forallb quiet new = true
    /\ withdrawalStatus (snd (check_ready_to_prove lib m w tx message latestProposedBlock s))
       = withdrawalStatus s.
Proof.
  unfold check_ready_to_prove.
  destruct (ProveMessage lib m w tx 0) as [r calls].
  set (pre := [Notify (ReadyToProve tx (BlockNumber message) latestProposedBlock);
               Notify (StartingProve tx)] ++ List.map Submit calls).
  assert (Hq : forallb quiet pre = true).
  { subst pre. cbn. clear. induction calls; [reflexivity|]. cbn. exact IHcalls. }
  destruct r as [[]|e|p].
  - eexists (pre ++ [_]). split; [subst pre; solve_framed|].
    split; [|reflexivity]. rewrite forallb_app, Hq. reflexivity.
  - eexists (pre ++ [_]). split; [subst pre; solve_framed|].
    split; [|reflexivity]. rewrite forallb_app, Hq. reflexivity.
  - exists pre. split; [subst pre; solve_framed|]. split; [exact Hq|reflexivity].
Qed.

(** The summary of one call of [CheckWithdrawal]. *)
Lemma CheckWithdrawal_effect (w : World) (tx : string) (s : WithdrawalScheduler) :
  exists new,
    framed tx s (snd (CheckWithdrawal lib m w tx s)) new
    /\ effect lib m w tx s (snd (CheckWithdrawal lib m w tx s)) new.
Proof.
  unfold CheckWithdrawal.
  destruct (String.eqb tx EmptyString).
  { exists []. split; [solve_framed | now apply effect_quiet]. }
  set (entry := match withdrawalStatus s !! tx with
                | Some st => (st, s)
                | None => (WithdrawalStatus_zero,
                           store_status tx WithdrawalStatus_zero s)
                end).
  assert (Hentry : fst entry = status_of tx s
                   /\ withdrawalHashes (snd entry) = withdrawalHashes s
                   /\ events (snd entry) = events s
                   /\ cancelled (snd entry) = cancelled s
                   /\ forall t, status_of t (snd entry) = status_of t s).
  { subst entry. unfold status_of.
    destruct (withdrawalStatus s !! tx) as [st|] eqn:Hl; cbn; [repeat split|].
    repeat split. intros t. destruct (decide (tx = t)) as [<-|Hne].
    - now rewrite lookup_insert_eq, Hl.
    - now rewrite lookup_insert_ne. }
  destruct entry as [status s0]. cbn [fst snd] in Hentry.
  destruct Hentry as (Hstatus & Hh & Hev & Hc & Hview).
  assert (Hlift : forall s' new,
             framed tx s0 s' new /\ effect lib m w tx s0 s' new ->
             framed tx s s' new /\ effect lib m w tx s s' new).
  { intros s' new [(F1 & F2 & F3) E]. split.
    - repeat split; [congruence | congruence |].
      intros t Ht. rewrite (F3 t Ht). apply Hview.
    - destruct E as [Q W R | T h mi -> P L W0 W1 R | T mi -> P L W0 W1 R0 R1
                     | T Q P L W R].
      + apply effect_quiet; [exact Q | |]; rewrite <- Hview; assumption.
      + apply effect_waiting with (T := T) (hours := h) (minutes := mi); [reflexivity|..]; auto;
          rewrite <- Hview; assumption.
      + apply effect_reminder with (T := T) (minutes := mi); [reflexivity|..]; auto;
          rewrite <- Hview; assumption.
      + apply effect_reset with (T := T); auto. }
  assert (Hnone : exists new, framed tx s s0 new /\ effect lib m w tx s s0 new).
  { exists []. split.
    - repeat split; [exact Hh | now rewrite app_nil_r | intros t _; apply Hview].
    - apply effect_quiet; [reflexivity | |]; now rewrite Hview. }
  destruct (if cancelled s0 then _ else GetMessages lib m w tx) as [message| |] eqn:Hgot;
    [|exact Hnone..].
  assert (Hmsg : getMessages lib m w tx = Ok message).
  { destruct (cancelled s0); [discriminate | exact Hgot]. }
  destruct (GetLatestProposedL2Block w) as [latest| |]; [|exact Hnone..].
  destruct (latest >=? BlockNumber message).
  2: { eexists. apply Hlift. split; [solve_framed | now apply effect_quiet]. }
  destruct (Status message >=? 2).
  { eexists. apply Hlift. split; [solve_framed|].
    apply effect_quiet; [reflexivity | solve_flag..]. }
  destruct (Status message =? 1) eqn:Hst.
  - apply Z.eqb_eq in Hst.
    assert (Hs0 : status_of tx s0 = status) by (rewrite Hstatus; apply Hview).
    destruct (check_proven_effect w tx message status s0 Hmsg Hst Hs0)
      as (new & F & E).
    exists new. apply Hlift. split; assumption.
  - destruct (check_ready_to_prove_effect w tx message latest s0) as (new & F & Q & St).
    exists new. apply Hlift. split; [exact F|].
    apply effect_quiet; [exact Q | |]; unfold status_of; now rewrite St.
Qed.

End Effects.

(** ** Many ticks on a proven withdrawal *)

Section Ticks.

Variable lib : Library.
Variable m : CrossChainMessenger.
Variable tx : string.
Variable T : Z.

Lemma proven_at_inj (w : World) (T1 T2 : Z) :
  proven_at lib m w tx T1 -> proven_at lib m w tx T2 -> T1 = T2.
Proof.
  intros (m1 & G1 & _ & P1) (m2 & G2 & _ & P2).
  rewrite G1 in G2. injection G2 as <-. rewrite P1 in P2. congruence.
Qed.

(** A call for another hash sends no guarded notice about [tx]. *)
Lemma effect_other (w : World) (h : string) (s s' : WithdrawalScheduler)
    (new : list Event) :
  h <> tx ->
  effect lib m w h s s' new ->
  count (is_waiting tx) new = 0%nat /\ count (is_reminder tx) new = 0%nat.
Proof.
  intros Hne E.
  assert (Hb : String.eqb h tx = false) by now apply String.eqb_neq.
  destruct E as [Q _ _ | ? ? ? -> _ _ _ _ _ | ? ? -> _ _ _ _ _ _ | ? Q _ _ _ _].
  - split; [now apply count_quiet_waiting | now apply count_quiet_reminder].
  - unfold count. cbn. now rewrite Hb.
  - unfold count. cbn. now rewrite Hb.
  - split; [now apply count_quiet_waiting | now apply count_quiet_reminder].
Qed.

Lemma call_while_waiting (w : World) (h : string) (s : WithdrawalScheduler) :
  proven_at lib m w tx T ->
  Now w < finalizeTime_of T ->
  no_more tx s (snd (CheckWithdrawal lib m w h s)).
Proof.
  intros Hat Hlt.
  destruct (CheckWithdrawal_effect lib m w h s) as (new & (_ & Hev & Hfr) & E).
  set (s' := snd (CheckWithdrawal lib m w h s)) in *.
  unfold no_more, slack. rewrite Hev, !count_app.
  destruct (decide (h = tx)) as [->|Hne].
  - destruct E as [Q W R | T' ? ? -> P L W0 W1 R | T' ? -> P L W0 W1 R0 R1
                   | T' Q P L W R].
    + rewrite (count_quiet_waiting tx new Q), (count_quiet_reminder tx new Q), W, R. lia.
    + rewrite W0, W1, R. unfold count. cbn. rewrite String.eqb_refl. cbn. lia.
    + rewrite W0, W1, R0, R1. unfold count. cbn. rewrite String.eqb_refl. cbn. lia.
    + rewrite (proven_at_inj w T' T P Hat) in L. lia.
  - destruct (effect_other w h s s' new Hne E) as [-> ->].
    rewrite (Hfr tx) by congruence. lia.
Qed.

Lemma call_when_ready (w : World) (h : string) (s : WithdrawalScheduler) :
  proven_at lib m w tx T ->
  finalizeTime_of T <= Now w ->
  none_sent tx s (snd (CheckWithdrawal lib m w h s)).
Proof.
  intros Hat Hge.
  destruct (CheckWithdrawal_effect lib m w h s) as (new & (_ & Hev & Hfr) & E).
  set (s' := snd (CheckWithdrawal lib m w h s)) in *.
  unfold none_sent. rewrite Hev, !count_app.
  destruct (decide (h = tx)) as [->|Hne].
  - destruct E as [Q W R | T' ? ? -> P L W0 W1 R | T' ? -> P L W0 W1 R0 R1
                   | T' Q P L W R].
    + rewrite (count_quiet_waiting tx new Q), (count_quiet_reminder tx new Q). lia.
    + rewrite (proven_at_inj w T' T P Hat) in L. lia.
    + rewrite (proven_at_inj w T' T P Hat) in L. lia.
    + rewrite (count_quiet_waiting tx new Q), (count_quiet_reminder tx new Q). lia.
  - destruct (effect_other w h s s' new Hne E) as [-> ->]. lia.
Qed.

(** A property of single calls that is reflexive and transitive holds
    for the whole tick. *)
Lemma check_each_lifts (R : WithdrawalScheduler -> WithdrawalScheduler -> Prop)
    (w : World) :
  (forall s, R s s) ->
  (forall a b c, R a b -> R b c -> R a c) ->
  (forall h s, R s (snd (CheckWithdrawal lib m w h s))) ->
  forall hashes s, R s (snd (check_each lib m w hashes s)).
Proof.
  intros Hrefl Htrans Hcall hashes.
  induction hashes as [|h rest IH]; intros s; [apply Hrefl|].
  cbn [check_each]. specialize (Hcall h s).
  destruct (CheckWithdrawal lib m w h s) as [[u|e|p] s1]; cbn [snd] in *;
    try exact Hcall; exact (Htrans _ _ _ Hcall (IH s1)).
Qed.

Lemma no_more_refl (s : WithdrawalScheduler) : no_more tx s s.
Proof. unfold no_more. lia. Qed.

Lemma no_more_trans (a b c : WithdrawalScheduler) :
  no_more tx a b -> no_more tx b c -> no_more tx a c.
Proof. unfold no_more. lia. Qed.

Lemma none_sent_refl (s : WithdrawalScheduler) : none_sent tx s s.
Proof. unfold none_sent. lia. Qed.

Lemma none_sent_trans (a b c : WithdrawalScheduler) :
  none_sent tx a b -> none_sent tx b c -> none_sent tx a c.
Proof. unfold none_sent. lia. Qed.

Lemma tick_while_waiting (w : World) (s : WithdrawalScheduler) :
  proven_at lib m w tx T ->
  Now w < finalizeTime_of T ->
  no_more tx s (snd (CheckAllWithdrawals lib m w s)).
Proof.
  intros Hat Hlt. unfold CheckAllWithdrawals.
  apply check_each_lifts;
    [apply no_more_refl | apply no_more_trans
     | intros; now apply call_while_waiting].
Qed.

Lemma tick_when_ready (w : World) (s : WithdrawalScheduler) :
  proven_at lib m w tx T ->
  finalizeTime_of T <= Now w ->
  none_sent tx s (snd (CheckAllWithdrawals lib m w s)).
Proof.
  intros Hat Hge. unfold CheckAllWithdrawals.
  apply check_each_lifts;
    [apply none_sent_refl | apply none_sent_trans
     | intros; now apply call_when_ready].
Qed.

(** Once the challenge period is over, neither notice is sent again. *)
Lemma Start_when_ready (ws : list World) (s : WithdrawalScheduler) :
  Forall (fun w => proven_at lib m w tx T /\ finalizeTime_of T <= Now w) ws ->
  none_sent tx s (snd (Start lib m ws s)).
Proof.
  revert s. induction ws as [|w rest IH]; intros s H; [apply none_sent_refl|].
  inversion H as [|? ? [Hat Hge] Hrest]; subst. cbn [Start].
  pose proof (tick_when_ready w s Hat Hge) as Htick.
  destruct (CheckAllWithdrawals lib m w s) as [[u|e|p] s1]; cbn [snd] in *;
    try exact Htick;
    (destruct (cancelled s1); [exact Htick|];
     exact (none_sent_trans _ _ _ Htick (IH s1 Hrest))).
Qed.

(** With a clock that does not run backwards, the notices of each kind
    sent over all ticks stay within the slack of the first state. *)
Lemma Start_bounded (ws : list World) (s : WithdrawalScheduler) :
  Forall (fun w => proven_at lib m w tx T) ws ->
  StronglySorted (fun a b => Now a <= Now b) ws ->
  (count (is_waiting tx) (events (snd (Start lib m ws s)))
   <= slack tx sentWaitingMessage (is_waiting tx) s)%nat
  /\ (count (is_reminder tx) (events (snd (Start lib m ws s)))
      <= slack tx sent5MinuteReminder (is_reminder tx) s)%nat.
Proof.
  revert s. induction ws as [|w rest IH]; intros s Hall Hsorted.
  { cbn. unfold slack. lia. }
  inversion Hall as [|? ? Hat Hrest]; subst.
  inversion Hsorted as [|? ? Hs Hle]; subst.
  destruct (Z_lt_le_dec (Now w) (finalizeTime_of T)) as [Hlt|Hge].
  - cbn [Start]. pose proof (tick_while_waiting w s Hat Hlt) as Htick.
    assert (Hnow : forall s1, no_more tx s s1 ->
              (count (is_waiting tx) (events s1)
               <= slack tx sentWaitingMessage (is_waiting tx) s)%nat
              /\ (count (is_reminder tx) (events s1)
                  <= slack tx sent5MinuteReminder (is_reminder tx) s)%nat).
    { intros s1 [A B]. unfold slack in *. lia. }
    destruct (CheckAllWithdrawals lib m w s) as [[u|e|p] s1]; cbn [snd] in *;
      try (now apply Hnow);
      (destruct (cancelled s1); [now apply Hnow|];
       destruct (IH s1 Hrest Hs) as [A B]; destruct Htick as [C D]; lia).
  - assert (Hready : Forall (fun w' => proven_at lib m w' tx T
                                       /\ finalizeTime_of T <= Now w') (w :: rest)).
    { constructor; [split; [exact Hat | lia]|].
      rewrite Forall_forall in *. intros w' Hin.
      split; [now apply Hrest|]. specialize (Hle w' Hin). cbn in Hle. lia. }
    destruct (Start_when_ready (w :: rest) s Hready) as [A B].
    unfold slack. lia.
Qed.

End Ticks.

(** ** The two flags: when they are set and when they are reset *)

Section Flags.

Variable lib : Library.
Variable m : CrossChainMessenger.
Variable tx : string.

(** Each flag goes from unset to set in a call exactly when the call
    sends the notice it guards, and a call sends it at most once. *)
Lemma CheckWithdrawal_flags_track_notices (w : World) (s : WithdrawalScheduler) :
  exists new,
    events (snd (CheckWithdrawal lib m w tx s)) = events s ++ new
    /\ (count (is_waiting tx) new <= 1)%nat
    /\ (count (is_reminder tx) new <= 1)%nat
    /\ ((0 < count (is_waiting tx) new)%nat
        <-> sentWaitingMessage (status_of tx s) = false
            /\ sentWaitingMessage (status_of tx (snd (CheckWithdrawal lib m w tx s))) = true)
    /\ ((0 < count (is_reminder tx) new)%nat
        <-> sent5MinuteReminder (status_of tx s) = false
            /\ sent5MinuteReminder (status_of tx (snd (CheckWithdrawal lib m w tx s))) = true).
Proof.
  destruct (CheckWithdrawal_effect lib m w tx s) as (new & (_ & Hev & _) & E).
  exists new. split; [exact Hev|].
  destruct E as [Q W R | T' ? ? -> P L W0 W1 R | T' ? -> P L W0 W1 R0 R1
                 | T' Q P L W R].
  - rewrite (count_quiet_waiting tx new Q), (count_quiet_reminder tx new Q), W, R.
    repeat split; try lia; intros [A B]; congruence.
  - rewrite W0, W1, R. unfold count. cbn. rewrite String.eqb_refl. cbn.
    repeat split; try lia; intros [A B]; congruence.
  - rewrite W0, W1, R0, R1. unfold count. cbn. rewrite String.eqb_refl. cbn.
    repeat split; try lia; intros [A B]; congruence.
  - rewrite (count_quiet_waiting tx new Q), (count_quiet_reminder tx new Q), W, R.
    repeat split; try lia; intros [A B]; congruence.
Qed.

(** [CheckWithdrawal] on a proven withdrawal past the scheduler's block check. *)
Lemma CheckWithdrawal_proven (w : World) (s : WithdrawalScheduler)
    (message : Message) (latestProposedBlock : Z) :
  tx <> EmptyString ->
  cancelled s = false ->
  getMessages lib m w tx = Ok message ->
  Status message = 1 ->
  GetLatestProposedL2Block w = Ok latestProposedBlock ->
  BlockNumber message <= latestProposedBlock ->
  exists s0,
    CheckWithdrawal lib m w tx s
    = check_proven lib m w tx message (status_of tx s) s0
    /\ events s0 = events s
    /\ cancelled s0 = false
    /\ (s0 = s \/ s0 = store_status tx WithdrawalStatus_zero s).
Proof.
  intros Hne Hc Hmsg Hst Hlatest Hgate.
  unfold CheckWithdrawal, status_of.
  rewrite (proj2 (String.eqb_neq tx EmptyString) Hne).
  destruct (withdrawalStatus s !! tx) as [status|]; cbn [default].
  - exists s. rewrite Hc. unfold GetMessages. rewrite Hmsg, Hlatest.
    rewrite geb_true by lia. rewrite geb_false by lia.
    rewrite (proj2 (Z.eqb_eq _ _) Hst). auto.
  - exists (store_status tx WithdrawalStatus_zero s).
    cbn [cancelled store_status]. rewrite Hc. unfold GetMessages.
    rewrite Hmsg, Hlatest.
    rewrite geb_true by lia. rewrite geb_false by lia.
    rewrite (proj2 (Z.eqb_eq _ _) Hst). auto.
Qed.

(** Both flags are cleared when the challenge period is found to have
    passed, whatever the finalize attempt that follows gives. *)
Lemma CheckWithdrawal_resets_when_ready (w : World) (s : WithdrawalScheduler)
    (message : Message) (latestProposedBlock T : Z) :
  tx <> EmptyString ->
  cancelled s = false ->
  getMessages lib m w tx = Ok message ->
  Status message = 1 ->
  CheckProvenStatus m w (WithdrawalHash message) = Ok (true, T) ->
  GetLatestProposedL2Block w = Ok latestProposedBlock ->
  BlockNumber message <= latestProposedBlock ->
  finalizeTime_of T <= Now w ->
  sentWaitingMessage (status_of tx (snd (CheckWithdrawal lib m w tx s))) = false
  /\ sent5MinuteReminder (status_of tx (snd (CheckWithdrawal lib m w tx s))) = false.
Proof.
  intros Hne Hc Hmsg Hst Hp Hlatest Hgate Hready.
  destruct (CheckWithdrawal_proven w s message latestProposedBlock)
    as (s0 & -> & _ & _ & _); try assumption.
  unfold check_proven, GetWithdrawalHash. cbv zeta. rewrite Hp. cbn [negb].
  fold (finalizeTime_of T). rewrite geb_true by lia.
  destruct (FinalizeMessage lib m w tx 0) as [[[]|e|p] calls];
    [destruct (allFinalized _)| |]; split; solve_flag.
Qed.

(** A successful prove leaves the status map, and so both flags, as they
    were. *)
Lemma CheckWithdrawal_prove_keeps_flags (w : World) (s : WithdrawalScheduler)
    (status : WithdrawalStatus) (message : Message) (latestProposedBlock : Z) :
  tx <> EmptyString ->
  withdrawalStatus s !! tx = Some status ->
  cancelled s = false ->
  getMessages lib m w tx = Ok message ->
  Status message < 1 ->
  GetLatestProposedL2Block w = Ok latestProposedBlock ->
  BlockNumber message <= latestProposedBlock ->
  fst (ProveMessage lib m w tx 0) = Ok tt ->
  fst (CheckWithdrawal lib m w tx s) = Ok tt
  /\ withdrawalStatus (snd (CheckWithdrawal lib m w tx s)) = withdrawalStatus s
  /\ List.last (events (snd (CheckWithdrawal lib m w tx s))) (Notify AllWithdrawalsCompleted)
     = Notify (ProveSuccessful tx (BlockNumber message)
                 (int64_add (Now w) challengePeriod)).
Proof.
  intros Hne Hs Hc Hmsg Hst Hlatest Hgate Hok.
  rewrite (CheckWithdrawal_ready_to_prove lib m w tx s status message
             latestProposedBlock) by assumption.
  unfold check_ready_to_prove.
  destruct (ProveMessage lib m w tx 0) as [r calls]. cbn [fst] in Hok. subst r.
  cbn [fst snd sendTelegramMessage withdrawalStatus record_calls events].
  repeat split. apply last_last.
Qed.

End Flags.

(** C7 (as amended). For a withdrawal that reads as PROVEN, proven at the
    same time [T], at every tick of a run whose clock does not go back, the
    scheduler sends the "waiting for challenge period" notice at most once
    and the "5 minutes remaining" notice at most once; in every call each
    flag goes from unset to set exactly when its notice is sent; both flags
    are cleared when the challenge period is found to have passed, before
    the finalize attempt; a successful prove leaves the flags unchanged. *)
Theorem notices_once_flags_reset_when_ready
    (lib : Library) (m : CrossChainMessenger) (tx : string) (T : Z) :
  (forall (ws : list World) (s : WithdrawalScheduler),
      Forall (fun w => proven_at lib m w tx T) ws ->
      StronglySorted (fun a b => Now a <= Now b) ws ->
      (count (is_waiting tx) (events (snd (Start lib m ws s)))
       <= count (is_waiting tx) (events s) + 1)%nat
      /\ (count (is_reminder tx) (events (snd (Start lib m ws s)))
          <= count (is_reminder tx) (events s) + 1)%nat)
  /\ (forall (w : World) (s : WithdrawalScheduler),
        exists new,
          events (snd (CheckWithdrawal lib m w tx s)) = events s ++ new
          /\ (count (is_waiting tx) new <= 1)%nat
          /\ (count (is_reminder tx) new <= 1)%nat
          /\ ((0 < count (is_waiting tx) new)%nat
              <-> sentWaitingMessage (status_of tx s) = false
                  /\ sentWaitingMessage
                       (status_of tx (snd (CheckWithdrawal lib m w tx s))) = true)
          /\ ((0 < count (is_reminder tx) new)%nat
              <-> sent5MinuteReminder (status_of tx s) = false
                  /\ sent5MinuteReminder
                       (status_of tx (snd (CheckWithdrawal lib m w tx s))) = true))
  /\ (forall (w : World) (s : WithdrawalScheduler) (message : Message)
             (latestProposedBlock : Z),
        tx <> EmptyString ->
        cancelled s = false ->
        getMessages lib m w tx = Ok message ->
        Status message = 1 ->
        CheckProvenStatus m w (WithdrawalHash message) = Ok (true, T) ->
        GetLatestProposedL2Block w = Ok latestProposedBlock ->
        BlockNumber message <= latestProposedBlock ->
        finalizeTime_of T <= Now w ->
        sentWaitingMessage (status_of tx (snd (CheckWithdrawal lib m w tx s))) = false
        /\ sent5MinuteReminder (status_of tx (snd (CheckWithdrawal lib m w tx s))) = false)
  /\ (forall (w : World) (s : WithdrawalScheduler) (status : WithdrawalStatus)
             (message : Message) (latestProposedBlock : Z),
        tx <> EmptyString ->
        withdrawalStatus s !! tx = Some status ->
        cancelled s = false ->
        getMessages lib m w tx = Ok message ->
        Status message < 1 ->
        GetLatestProposedL2Block w = Ok latestProposedBlock ->
        BlockNumber message <= latestProposedBlock ->
        fst (ProveMessage lib m w tx 0) = Ok tt ->
        fst (CheckWithdrawal lib m w tx s) = Ok tt
        /\ withdrawalStatus (snd (CheckWithdrawal lib m w tx s)) = withdrawalStatus s).
Proof.
  split; [|split; [|split]].
  - intros ws s Hall Hsorted.
    destruct (Start_bounded lib m tx T ws s Hall Hsorted) as [A B].
    unfold slack in *.
    destruct (sentWaitingMessage (status_of tx s));
      destruct (sent5MinuteReminder (status_of tx s)); lia.
  - apply CheckWithdrawal_flags_track_notices.
  - intros w s message latest. apply CheckWithdrawal_resets_when_ready.
  - intros w s status message latest Hne Hs Hc Hmsg Hst Hlatest Hgate Hok.
    destruct (CheckWithdrawal_prove_keeps_flags lib m tx w s status message latest)
      as (A & B & _); auto.
Qed.


Lemma ProvenRun_proven (now : Z) :
  proven_at Fixture.lib0 Fixture.m0 (ProvenRun.tick now) Fixture.tx0 ProvenRun.provenTime.
Proof. exists ProvenRun.message. repeat split. Qed.

(** Five ticks on the proven withdrawal, the last one after the challenge
    period; then the tick that finds the period over, and a successful
    prove on a state whose waiting flag is set. *)
Lemma notices_once_flags_reset_when_ready_witness :
  ((count (is_waiting Fixture.tx0)
      (events (snd (Start Fixture.lib0 Fixture.m0 ProvenRun.ticks
                      (NewWithdrawalScheduler [Fixture.tx0])))) <= 1)%nat
   /\ (count (is_reminder Fixture.tx0)
         (events (snd (Start Fixture.lib0 Fixture.m0 ProvenRun.ticks
                         (NewWithdrawalScheduler [Fixture.tx0])))) <= 1)%nat)
  /\ (sentWaitingMessage
        (status_of Fixture.tx0
           (snd (CheckWithdrawal Fixture.lib0 Fixture.m0 (ProvenRun.tick 1700050000)
                   Fixture.tx0 (Reprove.after [Reprove.waiting1])))) = false
      /\ sent5MinuteReminder
           (status_of Fixture.tx0
              (snd (CheckWithdrawal Fixture.lib0 Fixture.m0 (ProvenRun.tick 1700050000)
                      Fixture.tx0 (Reprove.after [Reprove.waiting1])))) = false)
  /\ (fst (CheckWithdrawal Fixture.lib0 Fixture.m0 Reprove.reorged Fixture.tx0
             (Reprove.after [Reprove.waiting1])) = Ok tt
      /\ withdrawalStatus
           (snd (CheckWithdrawal Fixture.lib0 Fixture.m0 Reprove.reorged Fixture.tx0
                   (Reprove.after [Reprove.waiting1])))
         = withdrawalStatus (Reprove.after [Reprove.waiting1])).
Proof.
  destruct (notices_once_flags_reset_when_ready Fixture.lib0 Fixture.m0
              Fixture.tx0 ProvenRun.provenTime) as (Honce & _ & Hreset & Hkeep).
  split; [|split].
  - apply (Honce ProvenRun.ticks (NewWithdrawalScheduler [Fixture.tx0])).
    + repeat constructor; apply ProvenRun_proven.
    + repeat constructor; by_evaluation.
  - apply (Hreset (ProvenRun.tick 1700050000) (Reprove.after [Reprove.waiting1])
             ProvenRun.message 1200); by_evaluation.
  - apply (Hkeep Reprove.reorged (Reprove.after [Reprove.waiting1])
             (mkWithdrawalStatus true false false)
             (mkMessage (TxHash ProvenRun.message) 1000 0 "L2_TO_L1" 0
                (MsgNonce ProvenRun.message) (WithdrawalHash ProvenRun.message)
                (Some 0) (Some 0) (SentMessageEvent ProvenRun.message) None
                (MessagePassedEvent ProvenRun.message))
             1200); by_evaluation.
Defined.


(** A withdrawal that was proven loses its proof in a reorg and is proven
    again by the scheduler: after the successful prove the waiting flag is
    still set, and the tick in the new challenge period sends no waiting
    notice.  The flags are cleared by the finalize attempt instead: a
    withdrawal that reads PROVEN at every tick, whose finalize reverts and
    whose proof is then replaced by a later one, is notified twice. *)
Lemma reprove_does_not_reset_flags :
  (sentWaitingMessage (status_of Fixture.tx0 (Reprove.after [Reprove.waiting1])) = true
   /\ count prove_succeeded
        (events (Reprove.after [Reprove.waiting1; Reprove.reorged])) = 1%nat
   /\ sentWaitingMessage
        (status_of Fixture.tx0 (Reprove.after [Reprove.waiting1; Reprove.reorged])) = true
   /\ count (is_waiting Fixture.tx0)
        (events (Reprove.after [Reprove.waiting1; Reprove.reorged; Reprove.waiting2]))
      = 1%nat)
  /\ (proven_at Fixture.lib0 Fixture.m0 Reprove.waiting1 Fixture.tx0 1700000000
      /\ proven_at Fixture.lib0 Fixture.m0 Reprove.finalizeReverts Fixture.tx0 1700000000
      /\ proven_at Fixture.lib0 Fixture.m0 Reprove.provenLater Fixture.tx0 1700040000
      /\ count (is_waiting Fixture.tx0)
           (events (Reprove.after [Reprove.waiting1; Reprove.finalizeReverts;
                                   Reprove.provenLater]))
         = 2%nat).
Proof.
  split; [repeat split; by_evaluation|].
  repeat split; try (exists Reprove.message; repeat split; by_evaluation); by_evaluation.
Qed.

(** ** Challenge-period arithmetic of the scheduler *)

(** For timestamps that fit [int64] with the period added, the finalize
    time of the scheduler is the sum. *)
Lemma finalizeTime_of_in_range (T : Z) :
  0 <= T < two63 - challengePeriod -> finalizeTime_of T = T + 43200.
Proof.
  intros H. unfold finalizeTime_of, int64_add, big_Int64, to_int64,
    challengePeriod, two63, two64 in *.
  rewrite (proj2 (Z.ltb_ge T 0)) by lia.
  rewrite Z.abs_eq by lia.
  rewrite (Z.mod_small (T + 2 ^ 63) (2 ^ 64)) by lia.
  replace (T + 2 ^ 63 - 2 ^ 63 + 12 * 60 * 60 + 2 ^ 63) with (T + 43200 + 2 ^ 63) by lia.
  rewrite Z.mod_small by lia. lia.
Qed.

(** The sibling computation in [getMessageStatus] follows the rule. *)
Lemma readiness_of_spec (now proven_at : Z) :
  spec_canFinalize now proven_at = true <-> readiness_of now proven_at = CanFinalizeNow.
Proof.
  unfold spec_canFinalize, readiness_of.
  destruct ((now >=? proven_at + 43200) && (proven_at >? 0)); [tauto|].
  destruct (proven_at =? 0); split; discriminate.
Qed.

Section ChallengePeriod.

Variable lib : Library.
Variable m : CrossChainMessenger.

(** The scheduler starts a finalize on a proven withdrawal exactly when
    the clock has reached its finalize time; the proven timestamp is not
    compared with zero. *)
Lemma CheckWithdrawal_finalize_iff (w : World) (tx : string)
    (s : WithdrawalScheduler) (message : Message) (latestProposedBlock T : Z) :
  tx <> EmptyString ->
  cancelled s = false ->
  getMessages lib m w tx = Ok message ->
  Status message = 1 ->
  CheckProvenStatus m w (WithdrawalHash message) = Ok (true, T) ->
  GetLatestProposedL2Block w = Ok latestProposedBlock ->
  BlockNumber message <= latestProposedBlock ->
  exists new,
    events (snd (CheckWithdrawal lib m w tx s)) = events s ++ new
    /\ (existsb (is_starting_finalize tx) new = true <-> finalizeTime_of T <= Now w).
Proof.
  intros Hne Hc Hmsg Hst Hp Hlatest Hgate.
  destruct (CheckWithdrawal_proven lib m tx w s message latestProposedBlock)
    as (s0 & -> & Hev & _ & _); try assumption.
  unfold check_proven, GetWithdrawalHash. cbv zeta. rewrite Hp. cbn [negb].
  fold (finalizeTime_of T).
  destruct (Z_lt_le_dec (Now w) (finalizeTime_of T)) as [Hlt|Hge].
  - rewrite geb_false by lia.
    destruct (sentWaitingMessage (status_of tx s));
      [destruct (_ && _)|]; cbn [negb]; sched_simpl; rewrite Hev;
      eexists; (split; [first [reflexivity | symmetry; apply app_nil_r]|]);
      cbn; split; first [discriminate | lia].
  - rewrite geb_true by lia.
    destruct (FinalizeMessage lib m w tx 0) as [[[]|e|p] calls];
      [destruct (allFinalized _)| |]; sched_simpl; rewrite Hev;
      rewrite <- ?app_assoc; eexists; (split; [reflexivity|]);
      cbn; rewrite String.eqb_refl; cbn; (split; [intros _; exact Hge | reflexivity]).
Qed.

End ChallengePeriod.


(** C2, at the input where the code leaves the rule: output root set,
    [proven_at = 0].  The rule (and [getMessageStatus]) say "not
    finalizable"; [CheckWithdrawal] starts the finalize and submits the
    transaction. *)
Theorem CheckWithdrawal_finalizes_at_zero_timestamp :
  Status ZeroTimestamp.message = 1
  /\ CheckProvenStatus Fixture.m0 ZeroTimestamp.w (WithdrawalHash ZeroTimestamp.message)
     = Ok (true, 0)
  /\ spec_canFinalize (Now ZeroTimestamp.w) 0 = false
  /\ readiness_of (Now ZeroTimestamp.w) 0 = NotYetProven
  /\ existsb (is_starting_finalize Fixture.tx0) (events ZeroTimestamp.s') = true
  /\ count is_finalize_tx (events ZeroTimestamp.s') = 1%nat.
Proof. repeat split; by_evaluation. Qed.

(** The boundary [now = proven_at + 43200] is finalizable, as the rule
    says. *)
Lemma CheckWithdrawal_boundary :
  spec_canFinalize 1700043200 1700000000 = true
  /\ existsb (is_starting_finalize Fixture.tx0)
       (events (snd (CheckWithdrawal Fixture.lib0 Fixture.m0
                       (ProvenRun.tick 1700043200) Fixture.tx0
                       (NewWithdrawalScheduler [Fixture.tx0])))) = true
  /\ existsb (is_starting_finalize Fixture.tx0)
       (events (snd (CheckWithdrawal Fixture.lib0 Fixture.m0
                       (ProvenRun.tick 1700043199) Fixture.tx0
                       (NewWithdrawalScheduler [Fixture.tx0])))) = false.
Proof. repeat split; by_evaluation. Qed.

(** ** Termination when every withdrawal is finalized *)

Section AlreadyFinalized.

Variable lib : Library.
Variable m : CrossChainMessenger.

(** The "already finalized" branch marks the withdrawal and returns:
    the loop over the status map and [Stop] are not reached. *)
Lemma CheckWithdrawal_already_finalized (w : World) (tx : string)
    (s : WithdrawalScheduler) :
  finalized_on_chain lib m w tx ->
  cancelled s = false ->
  exists message,
    getMessages lib m w tx = Ok message
    /\ CheckWithdrawal lib m w tx s
       = (Ok tt,
          mkWithdrawalScheduler (withdrawalHashes s)
            (<[tx := mkWithdrawalStatus (sentWaitingMessage (status_of tx s))
                       (sent5MinuteReminder (status_of tx s)) true]>
               (withdrawalStatus s))
            false
            (events s ++ [Notify (AlreadyFinalized tx (Status message))])).
Proof.
  intros (Hne & message & latest & Hmsg & Hst & Hlatest & Hgate) Hc.
  exists message. split; [exact Hmsg|].
  unfold CheckWithdrawal, status_of.
  rewrite (proj2 (String.eqb_neq tx EmptyString) Hne).
  destruct (withdrawalStatus s !! tx) as [status|]; cbn [default];
    cbn [cancelled store_status]; rewrite Hc; unfold GetMessages;
    rewrite Hmsg, Hlatest; rewrite geb_true by lia; rewrite geb_true by lia;
    unfold sendTelegramMessage, store_status;
    cbn [withdrawalHashes withdrawalStatus cancelled events];
    rewrite ?Hc, ?insert_insert_eq; reflexivity.
Qed.

Lemma check_each_already_finalized (w : World) (hashes : list string)
    (s : WithdrawalScheduler) :
  Forall (finalized_on_chain lib m w) hashes ->
  cancelled s = false ->
  fst (check_each lib m w hashes s) = Ok tt
  /\ withdrawalHashes (snd (check_each lib m w hashes s)) = withdrawalHashes s
  /\ cancelled (snd (check_each lib m w hashes s)) = false
  /\ count is_all_completed (events (snd (check_each lib m w hashes s)))
     = count is_all_completed (events s)
  /\ forall tx, In tx hashes ->
                finalized (status_of tx (snd (check_each lib m w hashes s))) = true.
Proof.
  revert s. induction hashes as [|tx rest IH]; intros s Hall Hc.
  { cbn; repeat split; auto; intros ? []. }
  inversion Hall as [|? ? Htx Hrest]; subst.
  destruct (CheckWithdrawal_already_finalized w tx s Htx Hc) as (message & _ & Hrun).
  cbn [check_each]. rewrite Hrun.
  set (s1 := mkWithdrawalScheduler _ _ _ _).
  destruct (IH s1 Hrest eq_refl) as (A & B & C & D & E).
  repeat split; [exact A | exact B | exact C | |].
  - rewrite D. subst s1. cbn [events]. rewrite count_app. unfold count. cbn. lia.
  - intros t [<-|Hin]; [|now apply E].
    assert (Hkeep : forall hs s2,
               Forall (finalized_on_chain lib m w) hs -> cancelled s2 = false ->
               finalized (status_of tx s2) = true ->
               finalized (status_of tx (snd (check_each lib m w hs s2))) = true).
    { clear. induction hs as [|h hs IHhs]; intros s2 Hall Hc Hf; [exact Hf|].
      inversion Hall as [|? ? Hh Hhs]; subst.
      destruct (CheckWithdrawal_already_finalized w h s2 Hh Hc) as (msg & _ & Hrun).
      cbn [check_each]. rewrite Hrun. apply IHhs; [exact Hhs | reflexivity |].
      unfold status_of in *. cbn [withdrawalStatus].
      destruct (decide (h = tx)) as [->|Hneq].
      - now rewrite lookup_insert_eq.
      - now rewrite lookup_insert_ne. }
    apply Hkeep; [exact Hrest | reflexivity |].
    subst s1. unfold status_of. cbn [withdrawalStatus].
    now rewrite lookup_insert_eq.
Qed.

(** However many ticks see every tracked withdrawal finalized on-chain,
    the scheduler marks them all, and neither sends "all withdrawals
    completed" nor cancels its context. *)
Lemma Start_already_finalized (ws : list World) (s : WithdrawalScheduler) :
  Forall (fun w => Forall (finalized_on_chain lib m w) (withdrawalHashes s)) ws ->
  cancelled s = false ->
  fst (Start lib m ws s) = Ok tt
  /\ cancelled (snd (Start lib m ws s)) = false
  /\ count is_all_completed (events (snd (Start lib m ws s)))
     = count is_all_completed (events s)
  /\ (ws <> [] ->
      forall tx, In tx (withdrawalHashes s) ->
                 finalized (status_of tx (snd (Start lib m ws s))) = true).
Proof.
  revert s. induction ws as [|w rest IH]; intros s Hall Hc.
  { cbn; repeat split; auto; intros H; now destruct H. }
  inversion Hall as [|? ? Hw Hrest]; subst.
  destruct (check_each_already_finalized w (withdrawalHashes s) s Hw Hc)
    as (A & B & C & D & E).
  cbn [Start]. unfold CheckAllWithdrawals.
  destruct (check_each lib m w (withdrawalHashes s) s) as [r s1].
  cbn [fst snd] in *. subst r. rewrite C.
  rewrite <- B in Hrest.
  destruct (IH s1 Hrest C) as (A' & C' & D' & E').
  repeat split; [exact A' | exact C' | congruence |].
  intros _ tx Hin. destruct rest as [|w' rest'].
  - cbn. now apply E.
  - apply E'; [discriminate | now rewrite B].
Qed.

End AlreadyFinalized.


(** C8, at the input where the code leaves it: one tracked withdrawal that
    is observed finalized on-chain.  Every tick completes with all
    [finalized] flags true, yet "all withdrawals completed" is never sent
    and the context is never cancelled: [Start] keeps ticking. *)
Theorem observed_finalized_never_stops :
  fst FinalizedElsewhere.run = Ok tt
  /\ allFinalized (snd FinalizedElsewhere.run) = true
  /\ finalized (status_of Fixture.tx0 (snd FinalizedElsewhere.run)) = true
  /\ count is_all_completed (events (snd FinalizedElsewhere.run)) = 0%nat
  /\ cancelled (snd FinalizedElsewhere.run) = false
  /\ List.length (events (snd FinalizedElsewhere.run)) = 3%nat.
Proof. repeat split; by_evaluation. Qed.

(** The sibling path: when the scheduler's own finalize transaction
    succeeds, the same state of the flags does stop it. *)
Lemma own_finalize_stops :
  let run := Start Fixture.lib0 Fixture.m0
               [ProvenRun.tick 1700050000; ProvenRun.tick 1700050600]
               (NewWithdrawalScheduler [Fixture.tx0]) in
  allFinalized (snd run) = true
  /\ count is_all_completed (events (snd run)) = 1%nat
  /\ cancelled (snd run) = true.
Proof. repeat split; by_evaluation. Qed.

(** * Further properties of the code *)

(** ** What [getMessages] returns *)

Section MessageFacts.

Variable lib : Library.
Variable m : CrossChainMessenger.

Lemma spec_status_range (f : reply bool) (p : reply ProvenWithdrawal) :
  spec_status f p = 0 \/ spec_status f p = 1 \/ spec_status f p = 2.
Proof.
  unfold spec_status. destruct f as [[|]|]; auto;
    destruct p as [r|]; auto; destruct (bool_decide _); auto.
Qed.

(** [getMessages] answers with a message exactly when the receipt is read
    and a [MessagePassed] event is decoded; the message is then fixed by
    the receipt, the event and the two portal reads. *)
Lemma getMessages_inv (w : World) (txHash : string) (message : Message) :
  getMessages lib m w txHash = Ok message ->
  exists receipt evt,
    L2_TransactionReceipt w (Hex.HexToHash txHash) = Reply receipt
    /\ fold_left (messagePassed_step lib m) (rcpt_Logs receipt) None = Some evt
    /\ message
       = message_of lib m receipt evt
           (status_on_chain m w (Hex.EncodeToString (mp_WithdrawalHash evt))).
Proof.
  unfold getMessages, getTransactionReceipt. cbn [String.eqb Ascii.eqb Bool.eqb].
  intros H.
  destruct (L2_TransactionReceipt w (Hex.HexToHash txHash)) as [receipt|e];
    [|discriminate].
  exists receipt.
  unfold parseSentMessageLogsEnhanced, parseMessagePassedLogsEnhanced,
    parseSentMessageExtension1LogsEnhanced in H.
  destruct (fold_left (messagePassed_step lib m) (rcpt_Logs receipt) None)
    as [evt|]; [|discriminate].
  exists evt. split; [reflexivity|]. split; [reflexivity|].
  rewrite getMessageStatus_by_portal in H. cbn in H.
  injection H as <-. reflexivity.
Qed.

Lemma getMessages_complete (w : World) (txHash : string) (receipt : Receipt)
    (evt : MessagePassed) :
  L2_TransactionReceipt w (Hex.HexToHash txHash) = Reply receipt ->
  fold_left (messagePassed_step lib m) (rcpt_Logs receipt) None = Some evt ->
  getMessages lib m w txHash
  = Ok (message_of lib m receipt evt
          (status_on_chain m w (Hex.EncodeToString (mp_WithdrawalHash evt)))).
Proof.
  intros Hr He. unfold getMessages, getTransactionReceipt.
  cbn [String.eqb Ascii.eqb Bool.eqb]. rewrite Hr.
  unfold parseSentMessageLogsEnhanced, parseMessagePassedLogsEnhanced,
    parseSentMessageExtension1LogsEnhanced.
  rewrite He. rewrite getMessageStatus_by_portal. reflexivity.
Qed.

End MessageFacts.

Section MessageShape.

Variable lib : Library.
Variable m : CrossChainMessenger.



Lemma sentMessage_fold_no_match (receipt : Receipt) (logs : list Log) (acc : Message) :
  Forall (fun l => is_sentMessage_log m l = false) logs ->
  fold_left (sentMessage_step lib m receipt) logs acc = acc.
Proof.
  revert acc. induction logs as [|l logs IH]; intros acc H; [reflexivity|].
  inversion H as [|? ? Hl Hrest]; subst. cbn [fold_left].
  rewrite <- (IH acc Hrest) at 2. f_equal.
  unfold sentMessage_step. unfold is_sentMessage_log in Hl.
  destruct (bytes_eqb (log_Address l) _); cbn in *; [|reflexivity].
  now rewrite Hl.
Qed.

Lemma extension_fold_no_match (logs : list Log) (acc : option SentMessageExtension1) :
  Forall (fun l => is_extension_log m l = false) logs ->
  fold_left (sentMessageExtension1_step lib m) logs acc = acc.
Proof.
  revert acc. induction logs as [|l logs IH]; intros acc H; [reflexivity|].
  inversion H as [|? ? Hl Hrest]; subst. cbn [fold_left].
  rewrite <- (IH acc Hrest) at 2. f_equal.
  unfold sentMessageExtension1_step. unfold is_extension_log in Hl.
  destruct (bytes_eqb (log_Address l) _); cbn in *; [|reflexivity].
  now rewrite Hl.
Qed.

Lemma value_or_zero_some (ext : option SentMessageExtension1)
    (field : SentMessageExtension1 -> option Z) :
  exists v, value_or_zero ext field = Some v.
Proof.
  unfold value_or_zero. destruct ext as [e|]; [destruct (field e)|]; eauto.
Qed.

Lemma HexToHash_EncodeToString (h : bytes) :
  List.length h = 32%nat -> Hex.HexToHash (Hex.EncodeToString h) = h.
Proof.
  intros Hlen. unfold Hex.HexToHash, Hex.BytesToHash.
  rewrite FromHex_EncodeToString. now apply SetBytes_exact.
Qed.

Lemma big_Uint64_range (x : Z) : 0 <= big_Uint64 x < two64.
Proof. unfold big_Uint64. apply Z.mod_pos_bound. reflexivity. Qed.

Lemma GetLatestProposedL2Block_range (w : World) (latest : Z) :
  GetLatestProposedL2Block w = Ok latest -> 0 <= latest < two64.
Proof.
  unfold GetLatestProposedL2Block. intros H.
  destruct (L1_BlockNumber w); [|discriminate].
  destruct (L1_FilterLogs w _) as [logs|]; [|discriminate].
  destruct (last logs) as [l|]; [|discriminate].
  destruct (log_Topics l) as [|t0 [|t1 [|t2 [|t3 ts]]]]; try discriminate.
  injection H as <-. apply big_Uint64_range.
Qed.

End MessageShape.



(** X2. Every message [getMessages] returns has a status of 0, 1 or 2,
    which is the status the portal shows for its withdrawal hash; its
    event, nonce and withdrawal hash come from the decoded MessagePassed
    event; its MNT and ETH values are never nil, and are zero when the
    receipt has no extension event; its status description is never
    UNKNOWN. *)
Theorem getMessages_fields
    (lib : Library) (m : CrossChainMessenger) (w : World) (txHash : string)
    (message : Message) :
  getMessages lib m w txHash = Ok message ->
  (Status message = 0 \/ Status message = 1 \/ Status message = 2)
  /\ Status message = status_on_chain m w (WithdrawalHash message)
  /\ (exists evt,
        MessagePassedEvent message = Some evt
        /\ MsgNonce message = Some (mp_Nonce evt)
        /\ WithdrawalHash message = Hex.EncodeToString (mp_WithdrawalHash evt))
  /\ (exists mnt eth, MntValue message = Some mnt /\ EthValue message = Some eth)
  /\ (SentMessageExtension1Event message = None ->
      MntValue message = Some 0 /\ EthValue message = Some 0)
  /\ getStatusDescription (Status message) <> "UNKNOWN"
  /\ Main.getStatusDescription (Status message) <> "UNKNOWN".
Proof.
  intros H. apply getMessages_inv in H as (receipt & evt & _ & _ & ->).
  unfold message_of. cbn [Status WithdrawalHash MessagePassedEvent MsgNonce MntValue
                          EthValue SentMessageExtension1Event].
  assert (Hr := spec_status_range
                  (Portal_FinalizedWithdrawals w (portal_address m)
                     (Hex.HexToHash (Hex.EncodeToString (mp_WithdrawalHash evt))))
                  (Portal_ProvenWithdrawals w (portal_address m)
                     (Hex.HexToHash (Hex.EncodeToString (mp_WithdrawalHash evt))))).
  fold (status_on_chain m w (Hex.EncodeToString (mp_WithdrawalHash evt))) in Hr.
  split; [exact Hr|]. split; [reflexivity|].
  split; [exists evt; repeat split|].
  split.
  { destruct (value_or_zero_some
                (fold_left (sentMessageExtension1_step lib m) (rcpt_Logs receipt) None)
                sme_MntValue) as [mnt Hm].
    destruct (value_or_zero_some
                (fold_left (sentMessageExtension1_step lib m) (rcpt_Logs receipt) None)
                sme_EthValue) as [eth He].
    exists mnt, eth. now rewrite Hm, He. }
  split; [intros ->; split; reflexivity|].
  destruct Hr as [-> | [-> | ->]]; split; discriminate.
Qed.

Lemma getMessages_fields_witness :
  Status RootMismatch.message = 0
  /\ MntValue RootMismatch.message = Some 0
  /\ getStatusDescription (Status RootMismatch.message) <> "UNKNOWN".
Proof.
  destruct (getMessages_fields Fixture.lib0 Fixture.m0 RootMismatch.w Fixture.tx0
              RootMismatch.message) as (_ & _ & _ & _ & H & Hd & _).
  - vm_compute; reflexivity.
  - split; [reflexivity|]. split; [|exact Hd]. apply H. reflexivity.
Defined.

(** X3. The withdrawal hash of a message is the hex text of the 32 bytes
    of its event, so reading it back gives these bytes: the portal is asked
    about exactly the event's withdrawal hash, for the status and for the
    proof timestamp. *)
Theorem getMessages_status_by_event_hash
    (lib : Library) (m : CrossChainMessenger) (w : World) (txHash : string)
    (message : Message) (evt : MessagePassed) :
  getMessages lib m w txHash = Ok message ->
  MessagePassedEvent message = Some evt ->
  List.length (mp_WithdrawalHash evt) = 32%nat ->
  String.length (WithdrawalHash message) = 64%nat
  /\ Hex.HexToHash (WithdrawalHash message) = mp_WithdrawalHash evt
  /\ Status message
     = spec_status
         (Portal_FinalizedWithdrawals w (portal_address m) (mp_WithdrawalHash evt))
         (Portal_ProvenWithdrawals w (portal_address m) (mp_WithdrawalHash evt))
  /\ CheckProvenStatus m w (GetWithdrawalHash message)
     = match Portal_ProvenWithdrawals w (portal_address m) (mp_WithdrawalHash evt) with
       | Reply r => Ok (bool_decide (pw_OutputRoot r <> zero_bytes 32), pw_Timestamp r)
       | Fault e => Err e
       end.
Proof.
  intros H Hevt Hlen.
  apply getMessages_inv in H as (receipt & evt' & _ & _ & ->).
  unfold message_of in *. cbn [MessagePassedEvent] in Hevt. injection Hevt as ->.
  unfold GetWithdrawalHash, CheckProvenStatus.
  cbn [Status WithdrawalHash]. unfold status_on_chain.
  rewrite checkProvenStatus_spec.
  rewrite HexToHash_EncodeToString by exact Hlen.
  rewrite EncodeToString_length, Hlen. repeat split; reflexivity.
Qed.

Lemma getMessages_status_by_event_hash_witness :
  Hex.HexToHash (WithdrawalHash ProvenRun.message) = Fixture.withdrawalHash0
  /\ Status ProvenRun.message = 1.
Proof.
  destruct (getMessages_status_by_event_hash Fixture.lib0 Fixture.m0
              (ProvenRun.tick 0) Fixture.tx0 ProvenRun.message
              (match MessagePassedEvent ProvenRun.message with
               | Some e => e
               | None => mkMessagePassed 0 [] [] 0 0 0 [] []
               end))
    as (_ & H & _).
  - vm_compute; reflexivity.
  - reflexivity.
  - reflexivity.
  - split; [exact H|reflexivity].
Defined.

(** X4. When the receipt has no SentMessage log of the L2 messenger, the
    message keeps the zero values of [parseSentMessageLogsEnhanced]: empty
    transaction hash and direction, block number and log index 0, no
    SentMessage event.  The scheduler's block check then passes for every
    proposed block. *)
Theorem getMessages_without_SentMessage
    (lib : Library) (m : CrossChainMessenger) (w : World) (txHash : string)
    (receipt : Receipt) (message : Message) :
  L2_TransactionReceipt w (Hex.HexToHash txHash) = Reply receipt ->
  Forall (fun l => is_sentMessage_log m l = false) (rcpt_Logs receipt) ->
  getMessages lib m w txHash = Ok message ->
  TxHash message = EmptyString
  /\ BlockNumber message = 0
  /\ LogIndex message = 0
  /\ Direction message = EmptyString
  /\ SentMessageEvent message = None
  /\ forall latestProposedBlock,
       GetLatestProposedL2Block w = Ok latestProposedBlock ->
       (latestProposedBlock >=? BlockNumber message) = true.
Proof.
  intros Hr Hno H.
  apply getMessages_inv in H as (receipt' & evt & Hr' & _ & ->).
  rewrite Hr in Hr'. injection Hr' as <-.
  unfold message_of. rewrite sentMessage_fold_no_match by exact Hno.
  cbn. repeat split.
  intros latest Hl. apply GetLatestProposedL2Block_range in Hl.
  apply geb_true. lia.
Qed.

Lemma getMessages_without_SentMessage_witness :
  BlockNumber NoSentMessage.message = 0
  /\ TxHash NoSentMessage.message = EmptyString
  /\ rcpt_BlockNumber NoSentMessage.receipt = 1000.
Proof.
  destruct (getMessages_without_SentMessage Fixture.lib0 Fixture.m0 NoSentMessage.w
              Fixture.tx0 NoSentMessage.receipt NoSentMessage.message)
    as (Ht & Hb & _).
  - reflexivity.
  - repeat constructor.
  - vm_compute; reflexivity.
  - repeat split; assumption.
Defined.

(** ** What the engine hands to the node *)

Section Sending.

Variable lib : Library.
Variable m : CrossChainMessenger.

Lemma send_and_wait_sent (w : World) (call : L1Call) (msg : string) :
  snd (send_and_wait w call msg) = [call].
Proof.
  unfold send_and_wait. destruct (L1_Transact w call); [|reflexivity].
  destruct (L1_WaitMined w call) as [st|]; [|reflexivity].
  now destruct (st =? 0).
Qed.

(** The result of a submission: success needs the node to accept the
    transaction and a receipt whose status is not 0. *)
Lemma send_and_wait_ok (w : World) (call : L1Call) (msg : string) :
  fst (send_and_wait w call msg) = Ok tt
  <-> exists u st, L1_Transact w call = Reply u
                   /\ L1_WaitMined w call = Reply st /\ st <> 0.
Proof.
  unfold send_and_wait. split.
  - destruct (L1_Transact w call) as [u|]; [|discriminate].
    destruct (L1_WaitMined w call) as [st|]; [|discriminate].
    destruct (Z.eqb_spec st 0); [discriminate|]. intros _. now exists u, st.
  - intros (u & st & -> & -> & Hst).
    destruct (Z.eqb_spec st 0); [contradiction|reflexivity].
Qed.

Lemma FinalizeMessage_inv (w : World) (txHash : string) (messageIndex : Z) :
  snd (FinalizeMessage lib m w txHash messageIndex) <> [] ->
  exists message evt opts,
    getMessages lib m w txHash = Ok message
    /\ Status message = 1
    /\ MessagePassedEvent message = Some evt
    /\ getTransactOpts m w = Ok opts
    /\ FinalizeMessage lib m w txHash messageIndex
       = send_and_wait w
           (FinalizeWithdrawalTransaction (portal_address m) opts
              (build_withdrawalTx message evt))
           "failed to finalize withdrawal transaction".
Proof.
  unfold FinalizeMessage. intros H.
  destruct (getMessages lib m w txHash) as [message| |] eqn:Hm;
    try (exfalso; apply H; reflexivity).
  destruct (Z.geb_spec (Status message) 2) as [Hge|Hlt];
    [exfalso; apply H; reflexivity|].
  destruct (Z.ltb_spec (Status message) 1) as [Hlt1|Hge1];
    [exfalso; apply H; reflexivity|].
  destruct (MessagePassedEvent message) as [evt|] eqn:He;
    [|exfalso; apply H; reflexivity].
  destruct (getTransactOpts m w) as [opts| |] eqn:Ho;
    try (exfalso; apply H; reflexivity).
  exists message, evt, opts. repeat split; try reflexivity; try assumption. lia.
Qed.

Lemma ProveMessage_inv (w : World) (txHash : string) (messageIndex : Z) :
  snd (ProveMessage lib m w txHash messageIndex) <> [] ->
  exists message evt outputIndex outputData withdrawalProof opts,
    getMessages lib m w txHash = Ok message
    /\ Status message < 2
    /\ MessagePassedEvent message = Some evt
    /\ getL2OutputIndex w (L2OutputOracle (L1 (Contracts m))) (BlockNumber message)
       = Ok outputIndex
    /\ getL2OutputData w (L2OutputOracle (L1 (Contracts m))) outputIndex = Ok outputData
    /\ BlockNumber message <= big_Uint64 (op_L2BlockNumber outputData)
    /\ generateWithdrawalProofForBlock lib m w message
         (big_Uint64 (op_L2BlockNumber outputData)) = Ok withdrawalProof
    /\ calculateOutputRoot
         (mkOutputRootProof (zero_bytes 32) (wp_StateRoot withdrawalProof)
            (wp_MessagePasserStorageRoot withdrawalProof)
            (wp_LatestBlockhash withdrawalProof))
       = op_OutputRoot outputData
    /\ getTransactOpts m w = Ok opts
    /\ snd (ProveMessage lib m w txHash messageIndex)
       = [ProveWithdrawalTransaction (portal_address m) opts
            (build_withdrawalTx message evt) (to_int64 outputIndex)
            (mkOutputRootProof (zero_bytes 32) (wp_StateRoot withdrawalProof)
               (wp_MessagePasserStorageRoot withdrawalProof)
               (wp_LatestBlockhash withdrawalProof))
            (wp_WithdrawalProof withdrawalProof)].
Proof.
  unfold ProveMessage. intros H.
  destruct (getMessages lib m w txHash) as [message| |] eqn:Hm;
    try (exfalso; apply H; reflexivity).
  destruct (Z.geb_spec (Status message) 2) as [Hge|Hlt];
    [exfalso; apply H; reflexivity|].
  destruct (getL2OutputIndex w _ _) as [outputIndex| |] eqn:Hi;
    try (exfalso; apply H; reflexivity).
  destruct (getL2OutputData w _ _) as [outputData| |] eqn:Hd;
    try (exfalso; apply H; reflexivity).
  destruct (MessagePassedEvent message) as [evt|] eqn:He;
    [|exfalso; apply H; reflexivity].
  cbv zeta in *.
  destruct (Z.gtb_spec (BlockNumber message) (big_Uint64 (op_L2BlockNumber outputData)))
    as [Hgt|Hle]; [exfalso; apply H; reflexivity|].
  destruct (generateWithdrawalProofForBlock lib m w message _) as [wp| |] eqn:Hp;
    try (exfalso; apply H; reflexivity).
  destruct (bytes_eqb (calculateOutputRoot _) (op_OutputRoot outputData)) eqn:Hroot;
    cbn [negb] in *; [|exfalso; apply H; reflexivity].
  unfold callProveWithdrawalTransaction in *.
  destruct (getTransactOpts m w) as [opts| |] eqn:Ho;
    try (exfalso; apply H; reflexivity).
  exists message, evt, outputIndex, outputData, wp, opts.
  repeat (split; [first [reflexivity | assumption | lia]|]).
  split; [unfold bytes_eqb in Hroot; now apply bool_decide_eq_true in Hroot|].
  split; [reflexivity|].
  match goal with
  | |- snd (let '(_, _) := ?x in _) = _ =>
      pose proof (send_and_wait_sent w
                    (ProveWithdrawalTransaction (portal_address m) opts
                       (build_withdrawalTx message evt) (to_int64 outputIndex)
                       (mkOutputRootProof (zero_bytes 32) (wp_StateRoot wp)
                          (wp_MessagePasserStorageRoot wp) (wp_LatestBlockhash wp))
                       (wp_WithdrawalProof wp))
                    "failed to prove withdrawal transaction") as Hs
  | _ => idtac
  end.
  destruct (send_and_wait w _ _) as [[u|e|p] sent]; cbn in *; exact Hs.
Qed.

End Sending.

(** X5. [FinalizeMessage] hands a transaction to the node only for a
    withdrawal that reads PROVEN (status 1) and with signing options at
    hand; it is then exactly one [finalizeWithdrawalTransaction] to the
    configured portal, carrying the withdrawal built from the message and
    its MessagePassed event. *)
Theorem FinalizeMessage_sends_only_for_proven
    (lib : Library) (m : CrossChainMessenger) (w : World) (txHash : string)
    (messageIndex : Z) :
  snd (FinalizeMessage lib m w txHash messageIndex) <> [] ->
  exists message evt opts,
    getMessages lib m w txHash = Ok message
    /\ Status message = 1
    /\ status_on_chain m w (WithdrawalHash message) = 1
    /\ MessagePassedEvent message = Some evt
    /\ getTransactOpts m w = Ok opts
    /\ snd (FinalizeMessage lib m w txHash messageIndex)
       = [FinalizeWithdrawalTransaction (portal_address m) opts
            (build_withdrawalTx message evt)].
Proof.
  intros H. destruct (FinalizeMessage_inv lib m w txHash messageIndex H)
    as (message & evt & opts & Hm & Hs & He & Ho & Heq).
  exists message, evt, opts. repeat (split; [assumption|]).
  split.
  - apply getMessages_inv in Hm as (receipt & evt' & _ & _ & ->). exact Hs.
  - split; [assumption|]. split; [assumption|].
    rewrite Heq. apply send_and_wait_sent.
Qed.

Lemma FinalizeMessage_sends_only_for_proven_witness :
  snd (FinalizeMessage Fixture.lib0 Fixture.m0 SameWithdrawal.finalizing Fixture.tx0 0)
  = [SameWithdrawal.finalizeCall]
  /\ status_on_chain Fixture.m0 SameWithdrawal.finalizing
       (Hex.EncodeToString Fixture.withdrawalHash0) = 1.
Proof.
  destruct (FinalizeMessage_sends_only_for_proven Fixture.lib0 Fixture.m0
              SameWithdrawal.finalizing Fixture.tx0 0)
    as (message & evt & opts & _ & _ & _ & _ & _ & _).
  - vm_compute; discriminate.
  - split; vm_compute; reflexivity.
Defined.

(** X6. The guards of [FinalizeMessage]: a withdrawal that reads finalized
    is a success with nothing sent; one that is not proven is the error
    "message not proven" with nothing sent. *)
Theorem FinalizeMessage_guards
    (lib : Library) (m : CrossChainMessenger) (w : World) (txHash : string)
    (messageIndex : Z) (message : Message) :
  getMessages lib m w txHash = Ok message ->
  (Status message = 2 -> FinalizeMessage lib m w txHash messageIndex = (Ok tt, []))
  /\ (Status message = 0 ->
      FinalizeMessage lib m w txHash messageIndex
      = (Err (ErrNew "message not proven"), []))
  /\ (fst (FinalizeMessage lib m w txHash messageIndex) = Err (ErrNew "message not proven")
      -> Status message = 0).
Proof.
  intros Hm. unfold FinalizeMessage. rewrite Hm.
  assert (Hr : Status message = 0 \/ Status message = 1 \/ Status message = 2).
  { apply getMessages_inv in Hm as (receipt & evt & _ & _ & ->).
    apply spec_status_range. }
  split; [intros ->; reflexivity|]. split; [intros ->; reflexivity|].
  destruct Hr as [-> | [-> | ->]]; cbn; [reflexivity| |discriminate].
  destruct (MessagePassedEvent message); [|discriminate].
  destruct (getTransactOpts m w); try discriminate.
  unfold send_and_wait. destruct (L1_Transact w _); [|discriminate].
  destruct (L1_WaitMined w _) as [st|]; [|discriminate].
  destruct (st =? 0); discriminate.
Qed.

Lemma FinalizeMessage_guards_witness :
  FinalizeMessage Fixture.lib0 Fixture.m0 RootMismatch.w Fixture.tx0 0
  = (Err (ErrNew "message not proven"), []).
Proof.
  destruct (FinalizeMessage_guards Fixture.lib0 Fixture.m0 RootMismatch.w Fixture.tx0 0
              RootMismatch.message) as (_ & H & _).
  - vm_compute; reflexivity.
  - apply H. reflexivity.
Defined.

(** X7. [ProveMessage] hands a transaction to the node only after all its
    checks: the withdrawal does not read finalized, its block is not after
    the block of the oracle's output, the proof was generated for that
    output block, and the output root computed from the proof equals the
    oracle's.  It is then exactly one [proveWithdrawalTransaction] with a
    zero version and that output index. *)
Theorem ProveMessage_sends_one_checked_proof
    (lib : Library) (m : CrossChainMessenger) (w : World) (txHash : string)
    (messageIndex : Z) :
  snd (ProveMessage lib m w txHash messageIndex) <> [] ->
  exists message evt outputIndex outputData withdrawalProof opts,
    getMessages lib m w txHash = Ok message
    /\ (Status message = 0 \/ Status message = 1)
    /\ MessagePassedEvent message = Some evt
    /\ getL2OutputIndex w (L2OutputOracle (L1 (Contracts m))) (BlockNumber message)
       = Ok outputIndex
    /\ getL2OutputData w (L2OutputOracle (L1 (Contracts m))) outputIndex = Ok outputData
    /\ BlockNumber message <= big_Uint64 (op_L2BlockNumber outputData)
    /\ generateWithdrawalProofForBlock lib m w message
         (big_Uint64 (op_L2BlockNumber outputData)) = Ok withdrawalProof
    /\ Keccak256Hash (zero_bytes 32 ++ wp_StateRoot withdrawalProof
                      ++ wp_MessagePasserStorageRoot withdrawalProof
                      ++ wp_LatestBlockhash withdrawalProof)
       = op_OutputRoot outputData
    /\ snd (ProveMessage lib m w txHash messageIndex)
       = [ProveWithdrawalTransaction (portal_address m) opts
            (build_withdrawalTx message evt) (to_int64 outputIndex)
            (mkOutputRootProof (zero_bytes 32) (wp_StateRoot withdrawalProof)
               (wp_MessagePasserStorageRoot withdrawalProof)
               (wp_LatestBlockhash withdrawalProof))
            (wp_WithdrawalProof withdrawalProof)].
Proof.
  intros H. destruct (ProveMessage_inv lib m w txHash messageIndex H)
    as (message & evt & outputIndex & outputData & wp & opts
        & Hm & Hs & He & Hi & Hd & Hb & Hp & Hroot & Ho & Hsent).
  exists message, evt, outputIndex, outputData, wp, opts.
  split; [assumption|]. split.
  { pose proof Hm as Hm'.
    apply getMessages_inv in Hm' as (receipt & evt' & _ & _ & ->).
    unfold message_of in *. cbn [Status] in *.
    destruct (spec_status_range
                (Portal_FinalizedWithdrawals w (portal_address m)
                   (Hex.HexToHash (Hex.EncodeToString (mp_WithdrawalHash evt'))))
                (Portal_ProvenWithdrawals w (portal_address m)
                   (Hex.HexToHash (Hex.EncodeToString (mp_WithdrawalHash evt')))))
      as [Hz | [Hz | Hz]]; unfold status_on_chain in *; [now left|now right|lia]. }
  do 5 (split; [assumption|]).
  split; [|assumption].
  rewrite <- Hroot, calculateOutputRoot_keccak. reflexivity.
Qed.

Lemma ProveMessage_sends_one_checked_proof_witness :
  snd (ProveMessage Fixture.lib0 Fixture.m0 SameWithdrawal.proving Fixture.tx0 0)
  = [SameWithdrawal.proveCall]
  /\ is_prove_call SameWithdrawal.proveCall = true.
Proof.
  destruct (ProveMessage_sends_one_checked_proof Fixture.lib0 Fixture.m0
              SameWithdrawal.proving Fixture.tx0 0)
    as (message & _).
  - vm_compute; discriminate.
  - split; vm_compute; reflexivity.
Defined.

(** X8. For one receipt, the prove transaction and the finalize
    transaction carry the same withdrawal and go to the same portal, also
    when they are sent at different times: the withdrawal is built from
    the receipt alone. *)
Theorem prove_and_finalize_same_withdrawal
    (lib : Library) (m : CrossChainMessenger) (w1 w2 : World) (txHash : string)
    (i1 i2 : Z) (c1 c2 : L1Call) :
  L2_TransactionReceipt w1 (Hex.HexToHash txHash)
  = L2_TransactionReceipt w2 (Hex.HexToHash txHash) ->
  In c1 (snd (ProveMessage lib m w1 txHash i1)) ->
  In c2 (snd (FinalizeMessage lib m w2 txHash i2)) ->
  call_tx c1 = call_tx c2
  /\ call_portal c1 = call_portal c2
  /\ is_prove_call c1 = true
  /\ is_prove_call c2 = false.
Proof.
  intros Hr H1 H2.
  assert (N1 : snd (ProveMessage lib m w1 txHash i1) <> []).
  { intros E. rewrite E in H1. destruct H1. }
  assert (N2 : snd (FinalizeMessage lib m w2 txHash i2) <> []).
  { intros E. rewrite E in H2. destruct H2. }
  destruct (ProveMessage_inv lib m w1 txHash i1 N1)
    as (m1 & e1 & outputIndex & outputData & wp & o1
        & Hm1 & _ & He1 & _ & _ & _ & _ & _ & _ & Hs1).
  destruct (FinalizeMessage_inv lib m w2 txHash i2 N2)
    as (m2 & e2 & o2 & Hm2 & _ & He2 & _ & Hs2).
  rewrite Hs1 in H1. rewrite Hs2, send_and_wait_sent in H2.
  destruct H1 as [<-|[]]. destruct H2 as [<-|[]].
  cbn [call_tx call_portal is_prove_call].
  repeat split.
  apply getMessages_inv in Hm1 as (r1 & ev1 & Hr1 & Hf1 & ->).
  apply getMessages_inv in Hm2 as (r2 & ev2 & Hr2 & Hf2 & ->).
  rewrite Hr, Hr2 in Hr1. injection Hr1 as <-.
  rewrite Hf2 in Hf1. injection Hf1 as <-.
  unfold message_of in *. cbn [MessagePassedEvent] in *.
  injection He1 as <-. injection He2 as <-. reflexivity.
Qed.

Lemma prove_and_finalize_same_withdrawal_witness :
  call_tx SameWithdrawal.proveCall = call_tx SameWithdrawal.finalizeCall
  /\ Now SameWithdrawal.proving <> Now SameWithdrawal.finalizing.
Proof.
  destruct (prove_and_finalize_same_withdrawal Fixture.lib0 Fixture.m0
              SameWithdrawal.proving SameWithdrawal.finalizing Fixture.tx0 0 0
              SameWithdrawal.proveCall SameWithdrawal.finalizeCall)
    as (H & _).
  - vm_compute; reflexivity.
  - vm_compute. left; reflexivity.
  - vm_compute. left; reflexivity.
  - split; [exact H|]. vm_compute; discriminate.
Defined.

(** X9. A messenger with neither a KMS client nor a private key never
    hands a transaction to the node; the signing step answers "no signing
    method configured". *)
Theorem no_signer_sends_nothing
    (lib : Library) (m : CrossChainMessenger) (w : World) (txHash : string)
    (messageIndex : Z) :
  KMSClient m = false ->
  PrivateKey m = EmptyString ->
  getTransactOpts m w = Err (ErrNew "no signing method configured")
  /\ snd (ProveMessage lib m w txHash messageIndex) = []
  /\ snd (FinalizeMessage lib m w txHash messageIndex) = [].
Proof.
  intros Hk Hp.
  assert (Ho : getTransactOpts m w = Err (ErrNew "no signing method configured")).
  { unfold getTransactOpts. rewrite Hk, Hp. reflexivity. }
  split; [exact Ho|]. split.
  - destruct (snd (ProveMessage lib m w txHash messageIndex)) eqn:E; [reflexivity|].
    assert (N : snd (ProveMessage lib m w txHash messageIndex) <> [])
      by (rewrite E; discriminate).
    destruct (ProveMessage_inv lib m w txHash messageIndex N)
      as (? & ? & ? & ? & ? & opts & _ & _ & _ & _ & _ & _ & _ & _ & Ho' & _).
    congruence.
  - destruct (snd (FinalizeMessage lib m w txHash messageIndex)) eqn:E; [reflexivity|].
    assert (N : snd (FinalizeMessage lib m w txHash messageIndex) <> [])
      by (rewrite E; discriminate).
    destruct (FinalizeMessage_inv lib m w txHash messageIndex N)
      as (? & ? & opts & _ & _ & _ & Ho' & _).
    congruence.
Qed.

Lemma no_signer_sends_nothing_witness :
  ProveMessage Fixture.lib0 NoSigner.m NoSigner.w Fixture.tx0 0
  = (Err (ErrWrap "failed to prove withdrawal transaction"
            (ErrWrap "failed to get transaction options"
               (ErrNew "no signing method configured"))), []).
Proof.
  destruct (no_signer_sends_nothing Fixture.lib0 NoSigner.m NoSigner.w Fixture.tx0 0)
    as (_ & H & _).
  - reflexivity.
  - reflexivity.
  - vm_compute; reflexivity.
Defined.

(** ** What the scheduler never undoes *)

Section Monotone.

Variable lib : Library.
Variable m : CrossChainMessenger.

Lemma grows_refl (s : WithdrawalScheduler) : grows s s.
Proof.
  unfold grows. repeat split; auto. exists []. now rewrite app_nil_r.
Qed.

Lemma grows_trans (a b c : WithdrawalScheduler) : grows a b -> grows b c -> grows a c.
Proof.
  intros (H1 & (n1 & E1) & F1 & K1 & C1) (H2 & (n2 & E2) & F2 & K2 & C2).
  unfold grows. repeat split; auto; try congruence.
  exists (n1 ++ n2). rewrite E2, E1. now rewrite app_assoc.
Qed.

Lemma grows_send (n : Notice) (s : WithdrawalScheduler) : grows s (sendTelegramMessage n s).
Proof. unfold grows. repeat split; auto. now exists [Notify n]. Qed.

Lemma grows_record (calls : list L1Call) (s : WithdrawalScheduler) :
  grows s (record_calls calls s).
Proof. unfold grows. repeat split; auto. now exists (List.map Submit calls). Qed.

Lemma grows_Stop (s : WithdrawalScheduler) : grows s (Stop s).
Proof.
  unfold grows. repeat split; auto. exists []. cbn. now rewrite app_nil_r.
Qed.

Lemma grows_store (tx : string) (st : WithdrawalStatus) (s : WithdrawalScheduler) :
  (finalized (status_of tx s) = true -> finalized st = true) ->
  grows s (store_status tx st s).
Proof.
  intros Hf. unfold grows. split; [reflexivity|].
  split; [exists []; cbn; now rewrite app_nil_r|].
  split; [|split; [|auto]].
  - intros t Ht. rewrite status_of_store. destruct (decide (tx = t)) as [<-|]; auto.
  - intros t Ht. cbn. destruct (decide (tx = t)) as [<-|Hne].
    + rewrite lookup_insert_eq. eauto.
    + now rewrite lookup_insert_ne.
Qed.

Lemma check_proven_grows (w : World) (tx : string) (message : Message)
    (s : WithdrawalScheduler) :
  grows s (snd (check_proven lib m w tx message (status_of tx s) s)).
Proof.
  unfold check_proven. cbv zeta.
  destruct (CheckProvenStatus m w _) as [[isProven T]| |]; try apply grows_refl.
  destruct isProven; cbn [negb]; [|apply grows_refl].
  destruct (Now w >=? _).
  - destruct (FinalizeMessage lib m w tx 0) as [r calls].
    set (s1 := store_status tx _ s).
    assert (G1 : grows s s1) by (apply grows_store; auto).
    set (s4 := record_calls calls _).
    assert (G4 : grows s s4).
    { eapply grows_trans; [exact G1|]. eapply grows_trans; [apply grows_send|].
      eapply grows_trans; [apply grows_send|]. apply grows_record. }
    destruct r as [[]|e|p]; cbn [snd]; [|eapply grows_trans; [exact G4|apply grows_send]
                                        |exact G4].
    set (s6 := store_status tx _ _).
    assert (G6 : grows s s6).
    { eapply grows_trans; [exact G4|]. eapply grows_trans; [apply grows_send|].
      apply grows_store. reflexivity. }
    destruct (allFinalized s6); cbn [snd]; [|exact G6].
    eapply grows_trans; [exact G6|]. eapply grows_trans; [apply grows_send|].
    apply grows_Stop.
  - destruct (negb (sentWaitingMessage _)); cbn [snd].
    + eapply grows_trans; [apply grows_send|]. apply grows_store.
      cbn. unfold status_of. cbn. auto.
    + destruct (_ && _); cbn [snd]; [|apply grows_refl].
      eapply grows_trans; [apply grows_send|]. apply grows_store.
      cbn. unfold status_of. cbn. auto.
Qed.

Lemma check_ready_to_prove_grows (w : World) (tx : string) (message : Message)
    (latestProposedBlock : Z) (s : WithdrawalScheduler) :
  grows s (snd (check_ready_to_prove lib m w tx message latestProposedBlock s)).
Proof.
  unfold check_ready_to_prove. cbv zeta.
  destruct (ProveMessage lib m w tx 0) as [r calls].
  assert (G : grows s (record_calls calls
                         (sendTelegramMessage (StartingProve tx)
                            (sendTelegramMessage
                               (ReadyToProve tx (BlockNumber message) latestProposedBlock)
                               s)))).
  { eapply grows_trans; [apply grows_send|].
    eapply grows_trans; [apply grows_send|]. apply grows_record. }
  destruct r as [[]|e|p]; cbn [snd]; try exact G;
    (eapply grows_trans; [exact G|apply grows_send]).
Qed.

Lemma lookup_or_insert (tx : string) (s : WithdrawalScheduler) :
  match withdrawalStatus s !! tx with
  | Some st => (st, s)
  | None => (WithdrawalStatus_zero, store_status tx WithdrawalStatus_zero s)
  end = (status_of tx s, tracked_state tx s).
Proof.
  unfold status_of, tracked_state. now destruct (withdrawalStatus s !! tx).
Qed.

Lemma tracked_state_facts (tx : string) (s : WithdrawalScheduler) :
  status_of tx (tracked_state tx s) = status_of tx s
  /\ events (tracked_state tx s) = events s
  /\ cancelled (tracked_state tx s) = cancelled s
  /\ withdrawalHashes (tracked_state tx s) = withdrawalHashes s
  /\ is_Some (withdrawalStatus (tracked_state tx s) !! tx)
  /\ grows s (tracked_state tx s).
Proof.
  assert (G : grows s (tracked_state tx s)).
  { unfold tracked_state. destruct (withdrawalStatus s !! tx) as [st|] eqn:E.
    - apply grows_refl.
    - apply grows_store. unfold status_of. rewrite E. cbn. discriminate. }
  unfold tracked_state, status_of in *.
  destruct (withdrawalStatus s !! tx) as [st|] eqn:E.
  - rewrite E. do 5 (split; [eauto|]). exact G.
  - cbn. rewrite lookup_insert_eq. do 5 (split; [eauto|]). exact G.
Qed.

Lemma CheckWithdrawal_grows (w : World) (tx : string) (s : WithdrawalScheduler) :
  grows s (snd (CheckWithdrawal lib m w tx s)).
Proof.
  unfold CheckWithdrawal.
  destruct (String.eqb tx EmptyString); [apply grows_refl|].
  rewrite lookup_or_insert.
  destruct (tracked_state_facts tx s) as (Hst & _ & _ & _ & _ & G0).
  eapply grows_trans; [exact G0|].
  destruct (if cancelled (tracked_state tx s) then _ else _) as [message| |];
    try apply grows_refl.
  destruct (GetLatestProposedL2Block w) as [latest| |]; try apply grows_refl.
  destruct (latest >=? BlockNumber message); [|apply grows_send].
  destruct (Status message >=? 2).
  { cbn [snd]. eapply grows_trans; [|apply grows_send].
    apply grows_store. reflexivity. }
  destruct (Status message =? 1).
  - rewrite <- Hst. apply check_proven_grows.
  - apply check_ready_to_prove_grows.
Qed.

Lemma Start_lifts (R : WithdrawalScheduler -> WithdrawalScheduler -> Prop) :
  (forall s, R s s) ->
  (forall a b c, R a b -> R b c -> R a c) ->
  (forall w h s, R s (snd (CheckWithdrawal lib m w h s))) ->
  forall ws s, R s (snd (Start lib m ws s)).
Proof.
  intros Hrefl Htrans Hstep. induction ws as [|w ws IH]; intros s; [apply Hrefl|].
  cbn [Start]. unfold CheckAllWithdrawals.
  pose proof (check_each_lifts lib m R w Hrefl Htrans (Hstep w) (withdrawalHashes s) s)
    as Ht.
  destruct (check_each lib m w (withdrawalHashes s) s) as [[[]|e|p] s']; cbn [snd] in *;
    try exact Ht;
    (destruct (cancelled s'); [exact Ht|]; eapply Htrans; [exact Ht|apply IH]).
Qed.

End Monotone.

(** X10. Across any run of the scheduler, whatever the chains answer: the
    tracked hashes stay the same, events are only appended, a withdrawal
    once marked finalized stays marked, no status entry is removed, and a
    cancelled context stays cancelled. *)
Theorem Start_never_undoes
    (lib : Library) (m : CrossChainMessenger) (ws : list World)
    (s : WithdrawalScheduler) :
  withdrawalHashes (snd (Start lib m ws s)) = withdrawalHashes s
  /\ (exists new, events (snd (Start lib m ws s)) = events s ++ new)
  /\ (forall t, finalized (status_of t s) = true ->
                finalized (status_of t (snd (Start lib m ws s))) = true)
  /\ (forall t, is_Some (withdrawalStatus s !! t) ->
                is_Some (withdrawalStatus (snd (Start lib m ws s)) !! t))
  /\ (cancelled s = true -> cancelled (snd (Start lib m ws s)) = true).
Proof.
  assert (G : grows s (snd (Start lib m ws s))).
  { apply Start_lifts.
    - apply grows_refl.
    - apply grows_trans.
    - intros w h s1. apply CheckWithdrawal_grows. }
  exact G.
Qed.

(** ** How many transactions the scheduler sends *)

Section Submissions.

Variable lib : Library.
Variable m : CrossChainMessenger.

Lemma ProveMessage_at_most_one (w : World) (txHash : string) (messageIndex : Z) :
  (List.length (snd (ProveMessage lib m w txHash messageIndex)) <= 1)%nat.
Proof.
  destruct (snd (ProveMessage lib m w txHash messageIndex)) eqn:E; [cbn; lia|].
  assert (N : snd (ProveMessage lib m w txHash messageIndex) <> [])
    by (rewrite E; discriminate).
  destruct (ProveMessage_inv lib m w txHash messageIndex N)
    as (? & ? & ? & ? & ? & ? & _ & _ & _ & _ & _ & _ & _ & _ & _ & Hs).
  rewrite <- E, Hs. cbn. lia.
Qed.

Lemma FinalizeMessage_at_most_one (w : World) (txHash : string) (messageIndex : Z) :
  (List.length (snd (FinalizeMessage lib m w txHash messageIndex)) <= 1)%nat.
Proof.
  destruct (snd (FinalizeMessage lib m w txHash messageIndex)) eqn:E; [cbn; lia|].
  assert (N : snd (FinalizeMessage lib m w txHash messageIndex) <> [])
    by (rewrite E; discriminate).
  destruct (FinalizeMessage_inv lib m w txHash messageIndex N)
    as (? & ? & ? & _ & _ & _ & _ & Hs).
  rewrite <- E, Hs, send_and_wait_sent. cbn. lia.
Qed.

Lemma count_submit_calls (calls : list L1Call) :
  count is_submit (List.map Submit calls) = List.length calls.
Proof.
  unfold count. induction calls as [|c calls IH]; [reflexivity|]. cbn. now rewrite IH.
Qed.

Lemma In_submit_calls (c : L1Call) (calls : list L1Call) :
  In (Submit c) (List.map Submit calls) -> In c calls.
Proof.
  induction calls as [|c' calls IH]; [intros []|]. cbn.
  intros [E|H]; [left; congruence|right; auto].
Qed.

Lemma one_submission_notices (w : World) (tx : string) (ns : list Notice) :
  one_submission lib m w tx (List.map Notify ns).
Proof.
  split.
  - unfold count. induction ns as [|n ns IH]; [cbn; lia|]. cbn. exact IH.
  - intros c H. exfalso. induction ns as [|n ns IH]; [destruct H|].
    destruct H as [E|H]; [discriminate|auto].
Qed.

Lemma check_proven_submits (w : World) (tx : string) (message : Message)
    (status : WithdrawalStatus) (s : WithdrawalScheduler) :
  exists new,
    events (snd (check_proven lib m w tx message status s)) = events s ++ new
    /\ one_submission lib m w tx new.
Proof.
  unfold check_proven. cbv zeta.
  destruct (CheckProvenStatus m w _) as [[isProven T]| |];
    try (exists []; split; [cbn; now rewrite app_nil_r
                           |apply (one_submission_notices w tx [])]).
  destruct isProven; cbn [negb];
    [|exists []; split; [cbn; now rewrite app_nil_r
                        |apply (one_submission_notices w tx [])]].
  destruct (Now w >=? _).
  - pose proof (FinalizeMessage_at_most_one w tx 0) as Hlen.
    destruct (FinalizeMessage lib m w tx 0) as [r calls] eqn:EF. cbn [snd] in Hlen.
    assert (Hin : forall c, In c calls ->
                            In c (snd (ProveMessage lib m w tx 0))
                            \/ In c (snd (FinalizeMessage lib m w tx 0)))
      by (intros c Hc; right; rewrite EF; exact Hc).
    assert (Hone : forall before after,
               one_submission lib m w tx
                 (List.map Notify before ++ List.map Submit calls
                  ++ List.map Notify after)).
    { intros before after. split.
      - rewrite !count_app, count_submit_calls.
        destruct (one_submission_notices w tx before) as [Hb _].
        destruct (one_submission_notices w tx after) as [Ha _].
        assert (count is_submit (List.map Notify before) = 0%nat).
        { clear. unfold count. induction before; [reflexivity|]. cbn. auto. }
        assert (count is_submit (List.map Notify after) = 0%nat).
        { clear. unfold count. induction after; [reflexivity|]. cbn. auto. }
        lia.
      - intros c H. apply in_app_or in H as [H|H].
        { exfalso. clear -H. induction before; [destruct H|].
          destruct H as [E|H]; [discriminate|auto]. }
        apply in_app_or in H as [H|H]; [apply Hin, In_submit_calls, H|].
        exfalso. clear -H. induction after; [destruct H|].
        destruct H as [E|H]; [discriminate|auto]. }
    destruct r as [[]|e|p]; [destruct (allFinalized _)| |]; cbn [snd].
    + exists (List.map Notify [ReadyToFinalize tx (big_Int64 T); StartingFinalize tx]
              ++ List.map Submit calls
              ++ List.map Notify [FinalizeSuccessful tx; AllWithdrawalsCompleted]).
      split; [sched_simpl; cbn; rewrite <- !app_assoc; reflexivity|apply Hone].
    + exists (List.map Notify [ReadyToFinalize tx (big_Int64 T); StartingFinalize tx]
              ++ List.map Submit calls
              ++ List.map Notify [FinalizeSuccessful tx]).
      split; [sched_simpl; cbn; rewrite <- !app_assoc; reflexivity|apply Hone].
    + exists (List.map Notify [ReadyToFinalize tx (big_Int64 T); StartingFinalize tx]
              ++ List.map Submit calls
              ++ List.map Notify [FinalizeFailed tx e]).
      split; [sched_simpl; cbn; rewrite <- !app_assoc; reflexivity|apply Hone].
    + exists (List.map Notify [ReadyToFinalize tx (big_Int64 T); StartingFinalize tx]
              ++ List.map Submit calls
              ++ List.map Notify []).
      split; [sched_simpl; cbn; rewrite <- !app_assoc, ?app_nil_r; reflexivity
             |apply Hone].
  - destruct (negb (sentWaitingMessage status)); cbn [snd].
    + eexists (List.map Notify [_]). split; [reflexivity|apply one_submission_notices].
    + destruct (_ && _); cbn [snd].
      * eexists (List.map Notify [_]).
        split; [reflexivity|apply one_submission_notices].
      * exists []. split; [now rewrite app_nil_r
                          |apply (one_submission_notices w tx [])].
Qed.

Lemma check_ready_to_prove_submits (w : World) (tx : string) (message : Message)
    (latestProposedBlock : Z) (s : WithdrawalScheduler) :
  exists new,
    events (snd (check_ready_to_prove lib m w tx message latestProposedBlock s))
    = events s ++ new
    /\ one_submission lib m w tx new.
Proof.
  unfold check_ready_to_prove. cbv zeta.
  pose proof (ProveMessage_at_most_one w tx 0) as Hlen.
  destruct (ProveMessage lib m w tx 0) as [r calls] eqn:EP. cbn [snd] in Hlen.
  assert (Hin : forall c, In c calls ->
                          In c (snd (ProveMessage lib m w tx 0))
                          \/ In c (snd (FinalizeMessage lib m w tx 0)))
    by (intros c Hc; left; rewrite EP; exact Hc).
  assert (Hone : forall before after,
             one_submission lib m w tx
               (List.map Notify before ++ List.map Submit calls
                ++ List.map Notify after)).
  { intros before after. split.
    - rewrite !count_app, count_submit_calls.
      assert (count is_submit (List.map Notify before) = 0%nat).
      { clear. unfold count. induction before; [reflexivity|]. cbn. auto. }
      assert (count is_submit (List.map Notify after) = 0%nat).
      { clear. unfold count. induction after; [reflexivity|]. cbn. auto. }
      lia.
    - intros c H. apply in_app_or in H as [H|H].
      { exfalso. clear -H. induction before; [destruct H|].
        destruct H as [E|H]; [discriminate|auto]. }
      apply in_app_or in H as [H|H]; [apply Hin, In_submit_calls, H|].
      exfalso. clear -H. induction after; [destruct H|].
      destruct H as [E|H]; [discriminate|auto]. }
  destruct r as [[]|e|p]; cbn [snd].
  - eexists (List.map Notify [_; _] ++ List.map Submit calls ++ List.map Notify [_]).
    split; [sched_simpl; cbn; rewrite <- !app_assoc; reflexivity|apply Hone].
  - eexists (List.map Notify [_; _] ++ List.map Submit calls ++ List.map Notify [_]).
    split; [sched_simpl; cbn; rewrite <- !app_assoc; reflexivity|apply Hone].
  - eexists (List.map Notify [_; _] ++ List.map Submit calls ++ List.map Notify []).
    split; [sched_simpl; cbn; rewrite <- !app_assoc, ?app_nil_r; reflexivity|apply Hone].
Qed.

Lemma CheckWithdrawal_submits (w : World) (tx : string) (s : WithdrawalScheduler) :
  exists new,
    events (snd (CheckWithdrawal lib m w tx s)) = events s ++ new
    /\ one_submission lib m w tx new.
Proof.
  unfold CheckWithdrawal.
  destruct (String.eqb tx EmptyString).
  { exists []. split; [now rewrite app_nil_r|apply (one_submission_notices w tx [])]. }
  rewrite lookup_or_insert.
  destruct (tracked_state_facts tx s) as (_ & He & _).
  rewrite <- He.
  destruct (if cancelled (tracked_state tx s) then _ else _) as [message| |];
    try (exists []; split; [cbn; now rewrite app_nil_r
                           |apply (one_submission_notices w tx [])]).
  destruct (GetLatestProposedL2Block w) as [latest| |];
    try (exists []; split; [cbn; now rewrite app_nil_r
                           |apply (one_submission_notices w tx [])]).
  destruct (latest >=? BlockNumber message).
  2: { eexists (List.map Notify [_]). split; [reflexivity|apply one_submission_notices]. }
  destruct (Status message >=? 2).
  { eexists (List.map Notify [_]). split; [reflexivity|apply one_submission_notices]. }
  destruct (Status message =? 1).
  - apply check_proven_submits.
  - apply check_ready_to_prove_submits.
Qed.

Lemma check_each_submits (w : World) (hashes : list string) (s : WithdrawalScheduler) :
  (count is_submit (events (snd (check_each lib m w hashes s)))
   <= count is_submit (events s) + List.length hashes)%nat.
Proof.
  revert s. induction hashes as [|h hashes IH]; intros s; [cbn; lia|].
  cbn [check_each List.length].
  destruct (CheckWithdrawal_submits w h s) as (new & He & Hc & _).
  destruct (CheckWithdrawal lib m w h s) as [[[]|e|p] s']; cbn [snd] in *;
    try (specialize (IH s')); rewrite He, count_app in *; lia.
Qed.

Lemma Start_submits (ws : list World) (s : WithdrawalScheduler) :
  (count is_submit (events (snd (Start lib m ws s)))
   <= count is_submit (events s)
      + List.length ws * List.length (withdrawalHashes s))%nat.
Proof.
  revert s. induction ws as [|w ws IH]; intros s; [cbn; lia|].
  cbn [Start List.length]. unfold CheckAllWithdrawals.
  pose proof (check_each_submits w (withdrawalHashes s) s) as Ht.
  pose proof (check_each_lifts lib m grows w grows_refl grows_trans
                (CheckWithdrawal_grows lib m w) (withdrawalHashes s) s) as (Hh & _).
  destruct (check_each lib m w (withdrawalHashes s) s) as [[[]|e|p] s']; cbn [snd] in *;
    try lia;
    (destruct (cancelled s'); cbn [snd]; [lia|]; specialize (IH s'); rewrite Hh in IH;
     lia).
Qed.

End Submissions.

(** X11. One call of [CheckWithdrawal] hands at most one transaction to the
    node, and only one that [ProveMessage] or [FinalizeMessage] sent for
    that hash; so a run of [n] ticks over [k] tracked hashes adds at most
    [n * k] transactions, whatever the chains answer. *)
Theorem scheduler_sends_at_most_one_per_check
    (lib : Library) (m : CrossChainMessenger) :
  (forall (w : World) (tx : string) (s : WithdrawalScheduler),
      exists new,
        events (snd (CheckWithdrawal lib m w tx s)) = events s ++ new
        /\ (count is_submit new <= 1)%nat
        /\ forall c, In (Submit c) new ->
                     In c (snd (ProveMessage lib m w tx 0))
                     \/ In c (snd (FinalizeMessage lib m w tx 0)))
  /\ (forall (ws : list World) (s : WithdrawalScheduler),
         (count is_submit (events (snd (Start lib m ws s)))
          <= count is_submit (events s)
             + List.length ws * List.length (withdrawalHashes s))%nat).
Proof.
  split.
  - intros w tx s. destruct (CheckWithdrawal_submits lib m w tx s) as (new & He & Ho).
    exists new. split; [exact He|exact Ho].
  - intros ws s. apply Start_submits.
Qed.

(** ** The branch before the withdrawal's block is proposed *)

Section Pending.

Variable lib : Library.
Variable m : CrossChainMessenger.

Lemma sentMessage_fold_BlockNumber (receipt : Receipt) (logs : list Log) (acc : Message) :
  0 <= BlockNumber acc < two64 ->
  0 <= BlockNumber (fold_left (sentMessage_step lib m receipt) logs acc) < two64.
Proof.
  revert acc. induction logs as [|l logs IH]; intros acc H; [exact H|].
  cbn [fold_left]. apply IH. unfold sentMessage_step.
  destruct (negb _); [exact H|]. cbv zeta.
  destruct (topic_matches l sentMessageTopic); [|exact H].
  cbn [BlockNumber]. apply big_Uint64_range.
Qed.

Lemma getMessages_BlockNumber_range (w : World) (txHash : string) (message : Message) :
  getMessages lib m w txHash = Ok message -> 0 <= BlockNumber message < two64.
Proof.
  intros H. apply getMessages_inv in H as (receipt & evt & _ & _ & ->).
  unfold message_of. cbn [BlockNumber]. apply sentMessage_fold_BlockNumber.
  cbn. unfold two64. lia.
Qed.

Lemma status_of_tracked_state (tx t : string) (s : WithdrawalScheduler) :
  status_of t (tracked_state tx s) = status_of t s.
Proof.
  unfold tracked_state. destruct (withdrawalStatus s !! tx) as [st|] eqn:E;
    [reflexivity|].
  rewrite status_of_store. destruct (decide (tx = t)) as [<-|]; [|reflexivity].
  unfold status_of. now rewrite E.
Qed.

End Pending.

(** X12. While the latest proposed L2 block is before the withdrawal's
    block, [CheckWithdrawal] succeeds and only reports: one "prove pending"
    notice with the number of blocks still missing, nothing sent to L1, no
    status changed.  No flag guards the notice, so it is sent at every
    such check. *)
Theorem CheckWithdrawal_prove_pending
    (lib : Library) (m : CrossChainMessenger) (w : World) (tx : string)
    (s : WithdrawalScheduler) (message : Message) (latestProposedBlock : Z) :
  tx <> EmptyString ->
  cancelled s = false ->
  getMessages lib m w tx = Ok message ->
  GetLatestProposedL2Block w = Ok latestProposedBlock ->
  latestProposedBlock < BlockNumber message ->
  fst (CheckWithdrawal lib m w tx s) = Ok tt
  /\ events (snd (CheckWithdrawal lib m w tx s))
     = events s
       ++ [Notify (ProvePending tx (BlockNumber message - latestProposedBlock)
                     latestProposedBlock)]
  /\ (forall t, status_of t (snd (CheckWithdrawal lib m w tx s)) = status_of t s)
  /\ cancelled (snd (CheckWithdrawal lib m w tx s)) = false.
Proof.
  intros Htx Hc Hm Hl Hlt.
  pose proof (getMessages_BlockNumber_range lib m w tx message Hm) as Hb.
  pose proof (GetLatestProposedL2Block_range w latestProposedBlock Hl) as Hr.
  destruct (tracked_state_facts tx s) as (_ & He & Hc' & _).
  unfold CheckWithdrawal.
  destruct (String.eqb_spec tx EmptyString) as [->|_]; [contradiction|].
  rewrite lookup_or_insert. rewrite Hc', Hc.
  unfold GetMessages. rewrite Hm, Hl.
  rewrite geb_false by exact Hlt.
  assert (Hsub : uint64_sub (BlockNumber message) latestProposedBlock
                 = BlockNumber message - latestProposedBlock).
  { unfold uint64_sub, to_uint64. apply Z.mod_small. lia. }
  rewrite Hsub. cbn [fst snd]. split; [reflexivity|].
  split; [sched_simpl; now rewrite He|].
  split; [|sched_simpl; now rewrite Hc', Hc].
  intros t. unfold sendTelegramMessage, status_of. cbn [withdrawalStatus].
  apply status_of_tracked_state.
Qed.

Lemma CheckWithdrawal_prove_pending_witness :
  events (snd (CheckWithdrawal Fixture.lib0 Fixture.m0 NotYetProposed.w Fixture.tx0
                 (snd (CheckWithdrawal Fixture.lib0 Fixture.m0 NotYetProposed.w
                         Fixture.tx0 (NewWithdrawalScheduler [Fixture.tx0])))))
  = [Notify (ProvePending Fixture.tx0 100 900);
     Notify (ProvePending Fixture.tx0 100 900)].
Proof.
  assert (Hm : getMessages Fixture.lib0 Fixture.m0 NotYetProposed.w Fixture.tx0
               = Ok OutputTooOld.message) by (vm_compute; reflexivity).
  assert (Hl : GetLatestProposedL2Block NotYetProposed.w = Ok 900)
    by (vm_compute; reflexivity).
  destruct (CheckWithdrawal_prove_pending Fixture.lib0 Fixture.m0 NotYetProposed.w
              Fixture.tx0 (NewWithdrawalScheduler [Fixture.tx0])
              OutputTooOld.message 900)
    as (_ & E1 & _ & C1); [discriminate|reflexivity|exact Hm|exact Hl|reflexivity|].
  destruct (CheckWithdrawal_prove_pending Fixture.lib0 Fixture.m0 NotYetProposed.w
              Fixture.tx0
              (snd (CheckWithdrawal Fixture.lib0 Fixture.m0 NotYetProposed.w
                      Fixture.tx0 (NewWithdrawalScheduler [Fixture.tx0])))
              OutputTooOld.message 900)
    as (_ & E2 & _); [discriminate|exact C1|exact Hm|exact Hl|reflexivity|].
  rewrite E2, E1. reflexivity.
Defined.

(** ** When the scheduler stops *)

Lemma allFinalized_spec (s : WithdrawalScheduler) :
  allFinalized s = true
  <-> forall h st, withdrawalStatus s !! h = Some st -> finalized st = true.
Proof.
  unfold allFinalized.
  apply (map_fold_weak_ind
           (fun (r : bool) (mp : gmap string WithdrawalStatus) =>
              r = true <-> forall h st, mp !! h = Some st -> finalized st = true)).
  - split; [|reflexivity]. intros _ h st H. now rewrite lookup_empty in H.
  - intros i x mp r Hi IH. rewrite andb_true_iff, IH. split.
    + intros [Hall Hx] h st H. destruct (decide (i = h)) as [<-|Hne].
      * rewrite lookup_insert_eq in H. now injection H as <-.
      * rewrite lookup_insert_ne in H by exact Hne. eauto.
    + intros H. split.
      * intros h st Hh. apply (H h). rewrite lookup_insert_ne; [exact Hh|].
        intros <-. congruence.
      * apply (H i). apply lookup_insert_eq.
Qed.

Lemma count_all_completed_calls (calls : list L1Call) :
  count is_all_completed (List.map Submit calls) = 0%nat.
Proof. unfold count. induction calls; [reflexivity|]. cbn. assumption. Qed.

Section Stopping.

Variable lib : Library.
Variable m : CrossChainMessenger.

Lemma stop_step_same (s s' : WithdrawalScheduler) :
  cancelled s' = false ->
  count is_all_completed (events s') = count is_all_completed (events s) ->
  stop_step s s'.
Proof. intros. left. auto. Qed.

Lemma stop_step_events (a b s' : WithdrawalScheduler) :
  events a = events b -> stop_step a s' -> stop_step b s'.
Proof. unfold stop_step. intros ->. auto. Qed.

Lemma check_proven_stop (w : World) (tx : string) (message : Message)
    (status : WithdrawalStatus) (s : WithdrawalScheduler) :
  cancelled s = false ->
  stop_step s (snd (check_proven lib m w tx message status s)).
Proof.
  intros Hc. unfold check_proven. cbv zeta.
  destruct (CheckProvenStatus m w _) as [[isProven T]| |];
    try (apply stop_step_same; [exact Hc|reflexivity]).
  destruct isProven; cbn [negb]; [|apply stop_step_same; [exact Hc|reflexivity]].
  destruct (Now w >=? _).
  - destruct (FinalizeMessage lib m w tx 0) as [r calls].
    destruct r as [[]|e|p]; cbn [snd].
    + destruct (allFinalized _) eqn:Hall; cbn [snd].
      * right. split; [reflexivity|]. split; [exact Hall|].
        sched_simpl. rewrite !count_app, count_all_completed_calls. cbn.
        split; [lia|]. rewrite ?app_assoc. apply last_snoc.
      * apply stop_step_same; [exact Hc|].
        sched_simpl. rewrite !count_app, count_all_completed_calls. cbn. lia.
    + apply stop_step_same; [exact Hc|].
      sched_simpl. rewrite !count_app, count_all_completed_calls. cbn. lia.
    + apply stop_step_same; [exact Hc|].
      sched_simpl. rewrite !count_app, count_all_completed_calls. cbn. lia.
  - destruct (negb (sentWaitingMessage status)); cbn [snd].
    + apply stop_step_same; [exact Hc|]. sched_simpl. rewrite count_app. cbn. lia.
    + destruct (_ && _); cbn [snd].
      * apply stop_step_same; [exact Hc|]. sched_simpl. rewrite count_app. cbn. lia.
      * apply stop_step_same; [exact Hc|reflexivity].
Qed.

Lemma check_ready_to_prove_stop (w : World) (tx : string) (message : Message)
    (latestProposedBlock : Z) (s : WithdrawalScheduler) :
  cancelled s = false ->
  stop_step s (snd (check_ready_to_prove lib m w tx message latestProposedBlock s)).
Proof.
  intros Hc. unfold check_ready_to_prove. cbv zeta.
  destruct (ProveMessage lib m w tx 0) as [r calls].
  destruct r as [[]|e|p]; cbn [snd]; (apply stop_step_same; [exact Hc|]);
    sched_simpl; rewrite !count_app, count_all_completed_calls; cbn; lia.
Qed.

Lemma CheckWithdrawal_stop (w : World) (tx : string) (s : WithdrawalScheduler) :
  cancelled s = false ->
  stop_step s (snd (CheckWithdrawal lib m w tx s)).
Proof.
  intros Hc. unfold CheckWithdrawal.
  destruct (String.eqb tx EmptyString); [apply stop_step_same; auto|].
  rewrite lookup_or_insert.
  destruct (tracked_state_facts tx s) as (_ & He & Hc' & _).
  assert (Hc0 : cancelled (tracked_state tx s) = false) by congruence.
  apply (stop_step_events (tracked_state tx s)); [exact He|].
  destruct (if cancelled (tracked_state tx s) then _ else _) as [message| |];
    try (apply stop_step_same; [exact Hc0|reflexivity]).
  destruct (GetLatestProposedL2Block w) as [latest| |];
    try (apply stop_step_same; [exact Hc0|reflexivity]).
  destruct (latest >=? BlockNumber message).
  2: { apply stop_step_same; [exact Hc0|]. sched_simpl. rewrite count_app. cbn. lia. }
  destruct (Status message >=? 2).
  { apply stop_step_same; [exact Hc0|]. sched_simpl. rewrite count_app. cbn. lia. }
  destruct (Status message =? 1).
  - now apply check_proven_stop.
  - now apply check_ready_to_prove_stop.
Qed.

Lemma CheckWithdrawal_cancelled (w : World) (tx : string) (s : WithdrawalScheduler) :
  cancelled s = true ->
  is_Some (withdrawalStatus s !! tx) ->
  snd (CheckWithdrawal lib m w tx s) = s.
Proof.
  intros Hc [st Hst]. unfold CheckWithdrawal.
  destruct (String.eqb tx EmptyString); [reflexivity|].
  rewrite Hst, Hc. reflexivity.
Qed.

Lemma all_tracked_grows (s s' : WithdrawalScheduler) :
  grows s s' -> all_tracked s -> all_tracked s'.
Proof.
  intros (Hh & _ & _ & Hk & _). unfold all_tracked. rewrite Hh.
  rewrite !List.Forall_forall. intros H h Hin. apply Hk, H, Hin.
Qed.

Lemma CheckWithdrawal_stop_inv (w : World) (hashes : list string) (c0 : nat)
    (tx : string) (s : WithdrawalScheduler) :
  In tx hashes ->
  stop_inv hashes c0 s ->
  stop_inv hashes c0 (snd (CheckWithdrawal lib m w tx s)).
Proof.
  intros Hin (Hh & Ht & Hrun & Hstop).
  destruct (cancelled s) eqn:Hc.
  - assert (Hs : snd (CheckWithdrawal lib m w tx s) = s).
    { apply CheckWithdrawal_cancelled; [exact Hc|].
      unfold all_tracked in Ht. rewrite List.Forall_forall in Ht.
      apply Ht. now rewrite Hh. }
    rewrite Hs. unfold stop_inv. rewrite Hc.
    split; [exact Hh|]. split; [exact Ht|]. split; [discriminate|exact Hstop].
  - pose proof (CheckWithdrawal_grows lib m w tx s) as G.
    pose proof (CheckWithdrawal_stop w tx s Hc) as St.
    split; [destruct G as (-> & _); exact Hh|].
    split; [now apply (all_tracked_grows s)|].
    unfold stop_step in St. rewrite (Hrun eq_refl) in St.
    destruct St as [(Hc' & Hn)|(Hc' & Ha & Hn & Hl)]; split; intros E; try congruence.
    auto.
Qed.

Lemma check_each_stop_inv (w : World) (hashes : list string) (c0 : nat)
    (todo : list string) (s : WithdrawalScheduler) :
  (forall h, In h todo -> In h hashes) ->
  stop_inv hashes c0 s ->
  stop_inv hashes c0 (snd (check_each lib m w todo s)).
Proof.
  revert s. induction todo as [|h todo IH]; intros s Hsub Hinv; [exact Hinv|].
  cbn [check_each].
  pose proof (CheckWithdrawal_stop_inv w hashes c0 h s (Hsub h (or_introl eq_refl)) Hinv)
    as H1.
  destruct (CheckWithdrawal lib m w h s) as [[[]|e|p] s']; cbn [snd] in *;
    try exact H1; apply IH; auto; intros h' Hh'; apply Hsub; now right.
Qed.

Lemma Start_stop_inv (ws : list World) (hashes : list string) (c0 : nat)
    (s : WithdrawalScheduler) :
  stop_inv hashes c0 s ->
  stop_inv hashes c0 (snd (Start lib m ws s)).
Proof.
  revert s. induction ws as [|w ws IH]; intros s Hinv; [exact Hinv|].
  cbn [Start]. unfold CheckAllWithdrawals.
  assert (H1 : stop_inv hashes c0 (snd (check_each lib m w (withdrawalHashes s) s))).
  { apply check_each_stop_inv; [|exact Hinv]. destruct Hinv as (-> & _). auto. }
  destruct (check_each lib m w (withdrawalHashes s) s) as [[[]|e|p] s']; cbn [snd] in *;
    try exact H1; (destruct (cancelled s'); [exact H1|apply IH, H1]).
Qed.

End Stopping.

(** X13. A scheduler that starts with an entry for each of its hashes and
    a live context ends with a cancelled context only after it has marked
    every withdrawal finalized: then [allFinalized] holds, every tracked
    hash is marked, exactly one "all withdrawals completed" notice was
    added, and that notice is the last event - nothing is sent after the
    stop. *)
Theorem Start_stops_only_when_all_finalized
    (lib : Library) (m : CrossChainMessenger) (ws : list World)
    (s : WithdrawalScheduler) :
  cancelled s = false ->
  all_tracked s ->
  cancelled (snd (Start lib m ws s)) = true ->
  allFinalized (snd (Start lib m ws s)) = true
  /\ (forall h, In h (withdrawalHashes s) ->
                finalized (status_of h (snd (Start lib m ws s))) = true)
  /\ count is_all_completed (events (snd (Start lib m ws s)))
     = S (count is_all_completed (events s))
  /\ last (events (snd (Start lib m ws s))) = Some (Notify AllWithdrawalsCompleted).
Proof.
  intros Hc Ht Hend.
  assert (Hinv : stop_inv (withdrawalHashes s) (count is_all_completed (events s)) s).
  { split; [reflexivity|]. split; [exact Ht|]. split; [reflexivity|congruence]. }
  apply (Start_stop_inv lib m ws) in Hinv.
  destruct Hinv as (Hh & Ht' & _ & Hstop).
  destruct (Hstop Hend) as (Hall & Hn & Hl).
  split; [exact Hall|]. split; [|split; assumption].
  intros h Hin. unfold all_tracked in Ht'. rewrite List.Forall_forall, Hh in Ht'.
  destruct (Ht' h Hin) as [st Hst].
  unfold status_of. rewrite Hst. cbn.
  exact (proj1 (allFinalized_spec _) Hall h st Hst).
Qed.

Lemma Start_stops_only_when_all_finalized_witness :
  count is_all_completed
    (events (snd (Start Fixture.lib0 Fixture.m0
                    [ProvenRun.tick 1700050000; ProvenRun.tick 1700050600]
                    (NewWithdrawalScheduler [Fixture.tx0])))) = 1%nat
  /\ finalized
       (status_of Fixture.tx0
          (snd (Start Fixture.lib0 Fixture.m0
                  [ProvenRun.tick 1700050000; ProvenRun.tick 1700050600]
                  (NewWithdrawalScheduler [Fixture.tx0])))) = true.
Proof.
  destruct (Start_stops_only_when_all_finalized Fixture.lib0 Fixture.m0
              [ProvenRun.tick 1700050000; ProvenRun.tick 1700050600]
              (NewWithdrawalScheduler [Fixture.tx0]))
    as (_ & Hf & Hn & _).
  - reflexivity.
  - constructor; [|constructor]. vm_compute. eexists; reflexivity.
  - vm_compute; reflexivity.
  - split; [exact Hn|]. apply Hf. left; reflexivity.
Defined.

(** ** The status map *)

Lemma fold_insert_zero_lookup (hashes : list string)
    (acc : gmap string WithdrawalStatus) (h : string) :
  fold_left (fun a k => <[k := WithdrawalStatus_zero]> a) hashes acc !! h
  = if bool_decide (h ∈ hashes) then Some WithdrawalStatus_zero else acc !! h.
Proof.
  revert acc. induction hashes as [|k hashes IH]; intros acc.
  - cbn. rewrite bool_decide_eq_false_2; [reflexivity|]. apply not_elem_of_nil || (intros H; inversion H).
  - cbn [fold_left]. rewrite IH.
    destruct (decide (h ∈ hashes)) as [Hin|Hnin].
    + rewrite !bool_decide_eq_true_2; [reflexivity| |exact Hin].
      apply elem_of_cons. now right.
    + rewrite (bool_decide_eq_false_2 _ Hnin).
      destruct (decide (k = h)) as [->|Hne].
      * rewrite lookup_insert_eq, bool_decide_eq_true_2; [reflexivity|].
        apply elem_of_cons. now left.
      * rewrite lookup_insert_ne by exact Hne.
        rewrite bool_decide_eq_false_2; [reflexivity|].
        rewrite elem_of_cons. intros [E|Hin]; [congruence|contradiction].
Qed.

(** X14. A new scheduler holds the zero status for exactly the hashes it
    tracks (one entry also for a hash listed twice), has a live context
    and no events; with no hash at all, every status counts as finalized
    from the start. *)
Theorem NewWithdrawalScheduler_status (hashes : list string) :
  (forall h st,
      withdrawalStatus (NewWithdrawalScheduler hashes) !! h = Some st
      <-> In h hashes /\ st = WithdrawalStatus_zero)
  /\ all_tracked (NewWithdrawalScheduler hashes)
  /\ cancelled (NewWithdrawalScheduler hashes) = false
  /\ events (NewWithdrawalScheduler hashes) = []
  /\ (allFinalized (NewWithdrawalScheduler hashes) = true <-> hashes = []).
Proof.
  assert (Hl : forall h st,
             withdrawalStatus (NewWithdrawalScheduler hashes) !! h = Some st
             <-> In h hashes /\ st = WithdrawalStatus_zero).
  { intros h st. unfold NewWithdrawalScheduler. cbn [withdrawalStatus].
    rewrite fold_insert_zero_lookup, <- list_elem_of_In.
    destruct (decide (h ∈ hashes)) as [Hin|Hnin].
    - rewrite (bool_decide_eq_true_2 _ Hin). split.
      + intros E. injection E as <-. auto.
      + intros [_ ->]. reflexivity.
    - rewrite (bool_decide_eq_false_2 _ Hnin), lookup_empty. split; [discriminate|].
      intros [Hin _]. contradiction. }
  split; [exact Hl|]. split.
  { unfold all_tracked. rewrite List.Forall_forall. intros h Hin.
    exists WithdrawalStatus_zero. apply Hl. auto. }
  split; [reflexivity|]. split; [reflexivity|].
  rewrite allFinalized_spec. split.
  - intros H. destruct hashes as [|h hashes]; [reflexivity|].
    specialize (H h WithdrawalStatus_zero). rewrite Hl in H.
    discriminate H. split; [now left|reflexivity].
  - intros -> h st H. apply Hl in H as [[] _].
Qed.

(** ** When a withdrawal is marked finalized *)

Section Marking.

Variable lib : Library.
Variable m : CrossChainMessenger.



End Marking.



(** ** The result of a submission *)

(** X16. Once [ProveMessage] or [FinalizeMessage] has handed its
    transaction to the node, it succeeds exactly when the node accepts the
    transaction and the receipt waited for has a status other than 0: a
    rejected submission, a failed wait and a reverted transaction are all
    errors reported after the hand-over. *)
Theorem result_after_submission
    (lib : Library) (m : CrossChainMessenger) (w : World) (txHash : string)
    (messageIndex : Z) (c : L1Call) :
  (In c (snd (ProveMessage lib m w txHash messageIndex)) ->
   (fst (ProveMessage lib m w txHash messageIndex) = Ok tt
    <-> exists u st, L1_Transact w c = Reply u
                     /\ L1_WaitMined w c = Reply st /\ st <> 0))
  /\ (In c (snd (FinalizeMessage lib m w txHash messageIndex)) ->
      (fst (FinalizeMessage lib m w txHash messageIndex) = Ok tt
       <-> exists u st, L1_Transact w c = Reply u
                        /\ L1_WaitMined w c = Reply st /\ st <> 0)).
Proof.
  split; intros Hin.
  - assert (N : snd (ProveMessage lib m w txHash messageIndex) <> []).
    { intros E. rewrite E in Hin. destruct Hin. }
    destruct (ProveMessage_inv lib m w txHash messageIndex N)
      as (message & evt & outputIndex & outputData & wp & opts
          & Hm & Hs & He & Hi & Hd & Hb & Hp & Hroot & Ho & Hsent).
    rewrite Hsent in Hin. destruct Hin as [<-|[]].
    pose proof (ProveMessage_reads lib m w txHash messageIndex message outputIndex
                  outputData Hm Hs Hi Hd) as (evt' & He' & Heq).
    rewrite He in He'. injection He' as <-.
    rewrite Heq. cbv zeta.
    rewrite gtb_false by exact Hb. rewrite Hp.
    unfold bytes_eqb. rewrite (bool_decide_eq_true_2 _ Hroot). cbn [negb].
    unfold callProveWithdrawalTransaction. rewrite Ho.
    rewrite <- (send_and_wait_ok w _ "failed to prove withdrawal transaction").
    destruct (send_and_wait w _ _) as [[[]|e|p] sent]; cbn [fst]; split;
      intros H; try reflexivity; try discriminate.
  - assert (N : snd (FinalizeMessage lib m w txHash messageIndex) <> []).
    { intros E. rewrite E in Hin. destruct Hin. }
    destruct (FinalizeMessage_inv lib m w txHash messageIndex N)
      as (message & evt & opts & _ & _ & _ & _ & Heq).
    rewrite Heq in Hin |- *. rewrite send_and_wait_sent in Hin.
    destruct Hin as [<-|[]]. apply send_and_wait_ok.
Qed.

(** ** A prove that keeps failing *)

Section Retrying.

Variable lib : Library.
Variable m : CrossChainMessenger.
Variable tx : string.

Lemma count_prove_failed_calls (calls : list L1Call) :
  count (is_prove_failed tx) (List.map Submit calls) = 0%nat.
Proof. unfold count. induction calls; [reflexivity|]. cbn. assumption. Qed.

Lemma CheckWithdrawal_prove_fails (w : World) (s : WithdrawalScheduler) :
  tx <> EmptyString ->
  cancelled s = false ->
  prove_fails lib m w tx ->
  is_Err (fst (CheckWithdrawal lib m w tx s)) = true
  /\ cancelled (snd (CheckWithdrawal lib m w tx s)) = false
  /\ count is_submit (events (snd (CheckWithdrawal lib m w tx s)))
     = S (count is_submit (events s))
  /\ count (is_prove_failed tx) (events (snd (CheckWithdrawal lib m w tx s)))
     = S (count (is_prove_failed tx) (events s))
  /\ forall t, status_of t (snd (CheckWithdrawal lib m w tx s)) = status_of t s.
Proof.
  intros Htx Hc (message & latest & e & c & Hm & Hs & Hl & Hb & Hp).
  destruct (tracked_state_facts tx s) as (_ & He & Hc' & _).
  assert (Hc0 : cancelled (tracked_state tx s) = false) by congruence.
  unfold CheckWithdrawal.
  destruct (String.eqb_spec tx EmptyString) as [E|_]; [contradiction|].
  rewrite lookup_or_insert, Hc0. unfold GetMessages. rewrite Hm, Hl.
  rewrite geb_true by exact Hb. rewrite Hs.
  change (0 >=? 2) with false. change (0 =? 1) with false. cbv iota.
  unfold check_ready_to_prove. cbv zeta. rewrite Hp. cbn [fst snd is_Err].
  split; [reflexivity|]. split; [sched_simpl; exact Hc0|].
  split; [|split].
  - sched_simpl. rewrite He, !count_app. cbn. lia.
  - sched_simpl. rewrite He, !count_app. cbn. rewrite String.eqb_refl. cbn. lia.
  - intros t. unfold sendTelegramMessage, record_calls, status_of.
    cbn [withdrawalStatus]. apply status_of_tracked_state.
Qed.

Lemma Start_prove_fails (ws : list World) (s : WithdrawalScheduler) :
  tx <> EmptyString ->
  withdrawalHashes s = [tx] ->
  cancelled s = false ->
  Forall (fun w => prove_fails lib m w tx) ws ->
  cancelled (snd (Start lib m ws s)) = false
  /\ count is_submit (events (snd (Start lib m ws s)))
     = (count is_submit (events s) + List.length ws)%nat
  /\ count (is_prove_failed tx) (events (snd (Start lib m ws s)))
     = (count (is_prove_failed tx) (events s) + List.length ws)%nat
  /\ forall t, status_of t (snd (Start lib m ws s)) = status_of t s.
Proof.
  intros Htx. revert s. induction ws as [|w ws IH]; intros s Hh Hc Hall.
  - cbn. repeat split; auto; lia.
  - inversion Hall as [|? ? Hw Hrest]; subst.
    destruct (CheckWithdrawal_prove_fails w s Htx Hc Hw)
      as (Herr & Hc1 & Hn1 & Hf1 & Hst1).
    pose proof (CheckWithdrawal_grows lib m w tx s) as (Hh1 & _).
    cbn [Start]. unfold CheckAllWithdrawals. rewrite Hh. cbn [check_each].
    destruct (CheckWithdrawal lib m w tx s) as [r s'] eqn:E. cbn [fst snd] in *.
    destruct r as [[]|e|p]; try discriminate. rewrite Hc1.
    destruct (IH s') as (Hc2 & Hn2 & Hf2 & Hst2);
      [congruence|exact Hc1|exact Hrest|].
    cbn [List.length]. repeat split; try congruence; try lia;
      intros t; rewrite Hst2; apply Hst1.
Qed.

End Retrying.

(** X17. The scheduler keeps no memory of a failed prove: while a
    withdrawal stays ready to prove and the prove fails after the
    hand-over (for instance the transaction reverts), every tick hands the
    transaction to the node again and sends another "prove failed" notice;
    the context stays live and no status changes. *)
Theorem failed_prove_is_retried_every_tick
    (lib : Library) (m : CrossChainMessenger) (tx : string) (ws : list World)
    (s : WithdrawalScheduler) :
  tx <> EmptyString ->
  withdrawalHashes s = [tx] ->
  cancelled s = false ->
  Forall (fun w => prove_fails lib m w tx) ws ->
  cancelled (snd (Start lib m ws s)) = false
  /\ count is_submit (events (snd (Start lib m ws s)))
     = (count is_submit (events s) + List.length ws)%nat
  /\ count (is_prove_failed tx) (events (snd (Start lib m ws s)))
     = (count (is_prove_failed tx) (events s) + List.length ws)%nat
  /\ forall t, status_of t (snd (Start lib m ws s)) = status_of t s.
Proof.
  intros Htx Hh Hc Hall.
  destruct (Start_prove_fails lib m tx ws s Htx Hh Hc Hall) as (H1 & H2 & H3 & H4).
  repeat split; assumption.
Qed.

Lemma failed_prove_is_retried_every_tick_witness :
  count is_submit
    (events (snd (Start Fixture.lib0 Fixture.m0
                    [ProveReverts.w; ProveReverts.w; ProveReverts.w]
                    (NewWithdrawalScheduler [Fixture.tx0])))) = 3%nat.
Proof.
  assert (Hw : prove_fails Fixture.lib0 Fixture.m0 ProveReverts.w Fixture.tx0).
  { exists ProveReverts.message, 1200, (ErrWrap "failed to prove withdrawal transaction"
                                         (ErrNew "transaction failed (status: 0)")),
      ProveReverts.call.
    split; [vm_compute; reflexivity|]. split; [reflexivity|].
    split; [vm_compute; reflexivity|]. split; [vm_compute; discriminate|].
    vm_compute; reflexivity. }
  destruct (failed_prove_is_retried_every_tick Fixture.lib0 Fixture.m0 Fixture.tx0
              [ProveReverts.w; ProveReverts.w; ProveReverts.w]
              (NewWithdrawalScheduler [Fixture.tx0]))
    as (_ & H & _).
  - discriminate.
  - reflexivity.
  - reflexivity.
  - repeat constructor; exact Hw.
  - exact H.
Defined.

(** ** Big-endian bytes of a number *)

Section BigBytes.

Lemma to_N_byte_of_N (n : N) : Byte.to_N (byte_of_N n) = (n mod 256)%N.
Proof.
  unfold byte_of_N. destruct (Byte.of_N (n mod 256)) as [b|] eqn:E.
  - now apply Byte.to_of_N.
  - apply Byte.of_N_None_iff in E.
    pose proof (N.mod_upper_bound n 256). lia.
Qed.

Lemma big_SetBytes_snoc (b : bytes) (x : byte) :
  big_SetBytes (b ++ [x]) = big_SetBytes b * 256 + Z.of_N (Byte.to_N x).
Proof. unfold big_SetBytes. now rewrite fold_left_app. Qed.

Lemma big_SetBytes_zeros (k : nat) (b : bytes) :
  big_SetBytes (zero_bytes k ++ b) = big_SetBytes b.
Proof.
  unfold big_SetBytes. rewrite fold_left_app. f_equal.
  induction k as [|k IH]; [reflexivity|]. cbn. exact IH.
Qed.

(** What [big.Int.Bytes] returns for a value that is not negative: the
    big-endian digits in base 256, as few as possible. *)
Lemma big_Bytes_spec (x : Z) :
  0 <= x ->
  big_SetBytes (Hex.big_Bytes x) = x
  /\ (forall k : nat, x < 256 ^ Z.of_nat k -> (List.length (Hex.big_Bytes x) <= k)%nat)
  /\ (Hex.big_Bytes x = [] <-> x = 0)
  /\ (forall b rest, Hex.big_Bytes x = b :: rest -> b <> Byte.x00).
Proof.
  intros Hx. unfold Hex.big_Bytes.
  set (go := fix go (fuel : nat) (n : N) (acc : bytes) {struct fuel} : bytes :=
               match fuel with
               | O => acc
               | S fuel' =>
                   if (n =? 0)%N then acc
                   else go fuel' (N.shiftr n 8) (byte_of_N n :: acc)
               end).
  assert (Hgo : forall fuel n acc,
             (n < 256 ^ N.of_nat fuel)%N ->
             exists pre,
               go fuel n acc = pre ++ acc
               /\ big_SetBytes pre = Z.of_N n
               /\ (forall k : nat, (n < 256 ^ N.of_nat k)%N -> (List.length pre <= k)%nat)
               /\ (pre = [] <-> n = 0%N)
               /\ (forall b rest, pre = b :: rest -> b <> Byte.x00)).
  { induction fuel as [|fuel IH]; intros n acc Hn.
    - exists []. cbn in Hn. assert (n = 0%N) by lia. subst n. cbn.
      repeat split; auto; try lia; discriminate.
    - cbn [go]. destruct (N.eqb_spec n 0) as [->|Hne].
      + exists []. cbn. repeat split; auto; try lia; discriminate.
      + assert (Hshift : (N.shiftr n 8 < 256 ^ N.of_nat fuel)%N).
        { rewrite N.shiftr_div_pow2. change (2 ^ 8)%N with 256%N.
          apply N.Div0.div_lt_upper_bound.
          replace (N.of_nat (S fuel)) with (N.succ (N.of_nat fuel)) in Hn by lia.
          rewrite N.pow_succ_r' in Hn. exact Hn. }
        destruct (IH (N.shiftr n 8) (byte_of_N n :: acc) Hshift)
          as (pre & Hpre & Hval & Hlen & Hnil & Hhead).
        exists (pre ++ [byte_of_N n]). rewrite Hpre, <- app_assoc.
        split; [reflexivity|]. split.
        { rewrite big_SetBytes_snoc, Hval, to_N_byte_of_N.
          rewrite N.shiftr_div_pow2. change (2 ^ 8)%N with 256%N.
          rewrite (N.div_mod n 256) at 3 by lia. lia. }
        split.
        { intros k Hk. rewrite length_app. cbn.
          destruct k as [|k]; [cbn in Hk; lia|].
          assert ((N.shiftr n 8 < 256 ^ N.of_nat k)%N).
          { rewrite N.shiftr_div_pow2. change (2 ^ 8)%N with 256%N.
            apply N.Div0.div_lt_upper_bound.
            replace (N.of_nat (S k)) with (N.succ (N.of_nat k)) in Hk by lia.
            rewrite N.pow_succ_r' in Hk. exact Hk. }
          specialize (Hlen k H). lia. }
        split.
        { split; [|contradiction]. intros E. destruct pre; discriminate. }
        intros b rest E. destruct pre as [|p pre].
        * cbn in E. injection E as <- <-.
          assert (Hz : N.shiftr n 8 = 0%N) by (now apply Hnil).
          rewrite N.shiftr_div_pow2 in Hz. change (2 ^ 8)%N with 256%N in Hz.
          intros Hb. apply (f_equal Byte.to_N) in Hb.
          rewrite to_N_byte_of_N in Hb. cbn in Hb.
          pose proof (N.div_mod n 256). lia.
        * cbn in E. injection E as <- <-. now apply (Hhead p pre). }
  assert (Hfuel : (Z.to_N x < 256 ^ N.of_nat (S (N.to_nat (N.log2 (Z.to_N x)))))%N).
  { destruct (N.eq_dec (Z.to_N x) 0%N) as [->|Hne]; [cbn; lia|].
    assert (Hlt : (Z.to_N x < 2 ^ N.succ (N.log2 (Z.to_N x)))%N).
    { apply N.log2_lt_pow2; lia. }
    eapply N.lt_le_trans; [exact Hlt|].
    replace (N.of_nat (S (N.to_nat (N.log2 (Z.to_N x)))))
      with (N.succ (N.log2 (Z.to_N x))) by lia.
    apply N.pow_le_mono_l. lia. }
  destruct (Hgo _ _ [] Hfuel) as (pre & Hpre & Hval & Hlen & Hnil & Hhead).
  rewrite app_nil_r in Hpre.
  change (if (Z.to_N x =? 0)%N then []
          else go (N.to_nat (N.log2 (Z.to_N x))) (N.shiftr (Z.to_N x) 8)
                 [byte_of_N (Z.to_N x)])
    with (go (S (N.to_nat (N.log2 (Z.to_N x)))) (Z.to_N x) []).
  rewrite Hpre.
  split; [rewrite Hval; lia|]. split.
  { intros k Hk. apply Hlen.
    apply N2Z.inj_lt. rewrite Z2N.id by exact Hx.
    rewrite N2Z.inj_pow. cbn. replace (Z.of_N (N.of_nat k)) with (Z.of_nat k) by lia.
    exact Hk. }
  split; [rewrite Hnil; lia|exact Hhead].
Qed.

Lemma big_SetBytes_BigToHash (n : Z) :
  0 <= n < 2 ^ 256 -> big_SetBytes (Hex.BigToHash n) = n.
Proof.
  intros [H0 H1]. destruct (big_Bytes_spec n H0) as (Hval & Hlen & _).
  unfold Hex.BigToHash, Hex.BytesToHash.
  rewrite SetBytes_short by (apply (Hlen 32%nat); exact H1).
  now rewrite big_SetBytes_zeros.
Qed.

End BigBytes.

(** ** The latest proposed block, and the check against the output's time *)

Lemma to_int64_small (x : Z) : - two63 <= x < two63 -> to_int64 x = x.
Proof.
  intros H. unfold to_int64. rewrite Z.mod_small; [lia|].
  unfold two64, two63 in *. lia.
Qed.

Lemma to_int64_to_uint64 (x : Z) : - two63 <= x < two63 -> to_int64 (to_uint64 x) = x.
Proof.
  intros H. unfold to_int64, to_uint64.
  rewrite Zplus_mod_idemp_l. rewrite Z.mod_small; [lia|].
  unfold two64, two63 in *. lia.
Qed.

Lemma big_Int64_small (x : Z) : 0 <= x < two63 -> big_Int64 x = x.
Proof.
  intros H. unfold big_Int64. cbv zeta.
  destruct (Z.ltb_spec x 0); [lia|]. rewrite Z.abs_eq by lia.
  apply to_int64_small. unfold two63 in *. lia.
Qed.

(** X18. [GetLatestProposedL2Block] asks for the OutputProposed logs of
    the oracle in the L1 blocks [latest - 1000 .. latest] (the lower bound
    is negative while the chain is shorter than 1000 blocks), fails when
    there is none or when the last one has fewer than four topics, and
    otherwise returns the low 64 bits of the number held in the fourth
    topic of the last log, whatever the earlier logs say. *)
Theorem GetLatestProposedL2Block_reads_last_log
    (w : World) (latestBlock : Z) (logs : list Log) :
  L1_BlockNumber w = Reply latestBlock ->
  0 <= latestBlock < two63 ->
  L1_FilterLogs w
    (mkFilterQuery (latestBlock - 1000) latestBlock
       [Hex.HexToAddress L2OutputOracleAddress]
       [[Hex.HexToHash OutputProposedTopic]]) = Reply logs ->
  (logs = [] ->
   GetLatestProposedL2Block w
   = Err (ErrNew "no OutputProposed events found in recent blocks"))
  /\ (forall earlier l,
        logs = earlier ++ [l] ->
        ((List.length (log_Topics l) < 4)%nat ->
         GetLatestProposedL2Block w
         = Err (ErrNew "invalid log format: expected 4 topics"))
        /\ (forall t0 t1 t2 rest n,
              log_Topics l = t0 :: t1 :: t2 :: Hex.BigToHash n :: rest ->
              0 <= n < 2 ^ 256 ->
              GetLatestProposedL2Block w = Ok (n mod two64))).
Proof.
  intros Hb Hr Hq. unfold GetLatestProposedL2Block. rewrite Hb. cbv zeta.
  unfold uint64_sub. rewrite to_int64_to_uint64 by (unfold two63 in *; lia).
  rewrite to_int64_small by (unfold two63 in *; lia).
  rewrite Hq. split.
  - intros ->. reflexivity.
  - intros earlier l ->. rewrite last_snoc. split.
    + intros Hlen.
      destruct (log_Topics l) as [|t0 [|t1 [|t2 [|t3 ts]]]]; try reflexivity.
      cbn in Hlen. lia.
    + intros t0 t1 t2 rest n -> Hn.
      rewrite big_SetBytes_BigToHash by exact Hn.
      unfold big_Uint64. rewrite Z.abs_eq by lia. reflexivity.
Qed.

Lemma GetLatestProposedL2Block_reads_last_log_witness :
  GetLatestProposedL2Block
    (Fixture.world false Fixture.notProven Fixture.output0 1200 "0x1" 1700000000)
  = Ok 1200.
Proof.
  destruct (GetLatestProposedL2Block_reads_last_log
              (Fixture.world false Fixture.notProven Fixture.output0 1200 "0x1"
                 1700000000)
              20000000 [Fixture.outputProposedLog 1200])
    as (_ & H).
  - reflexivity.
  - vm_compute. split; [discriminate|reflexivity].
  - reflexivity.
  - destruct (H [] (Fixture.outputProposedLog 1200) eq_refl) as (_ & H').
    apply (H' (Hex.HexToHash OutputProposedTopic) (Fixture.fill 85 32)
              (Fixture.word_of 5) [] 1200).
    + reflexivity.
    + vm_compute. split; [discriminate|reflexivity].
Defined.

(** X19. When the oracle answers, [checkCanFinalize] compares the clock
    with the timestamp of the oracle's output for the withdrawal's block:
    it returns true exactly from 43200 seconds after that output on.  The
    withdrawal hash and the time of the proof play no part. *)
Theorem checkCanFinalize_by_output_timestamp
    (w : World) (withdrawalHash : string) (message : Message)
    (outputIndex : Z) (outputData : OutputProposal) :
  getL2OutputIndex w "0x31d543e7BE1dA6eFDc2206Ef7822879045B9f481" (BlockNumber message)
  = Ok outputIndex ->
  getL2OutputData w "0x31d543e7BE1dA6eFDc2206Ef7822879045B9f481" outputIndex
  = Ok outputData ->
  0 <= op_Timestamp outputData < two63 ->
  0 <= Now w < two63 ->
  checkCanFinalize w withdrawalHash message
  = Ok (bool_decide (op_Timestamp outputData + 43200 <= Now w)).
Proof.
  intros Hi Hd Ht Hn. unfold checkCanFinalize. cbv zeta. rewrite Hi, Hd.
  unfold getCurrentTimestamp, int64_sub.
  rewrite big_Int64_small by exact Ht.
  rewrite to_int64_small by (unfold two63 in *; lia).
  f_equal. change (12 * 60 * 60) with 43200.
  destruct (Z.geb_spec (Now w - op_Timestamp outputData) 43200) as [H|H].
  - rewrite bool_decide_eq_true_2; [reflexivity|lia].
  - rewrite bool_decide_eq_false_2; [reflexivity|lia].
Qed.

Lemma checkCanFinalize_by_output_timestamp_witness :
  checkCanFinalize
    (Fixture.world false Fixture.notProven Fixture.output0 1200 "0x1" 1700043199)
    EmptyString ProvenRun.message = Ok false
  /\ checkCanFinalize
       (Fixture.world false Fixture.notProven Fixture.output0 1200 "0x1" 1700043200)
       EmptyString ProvenRun.message = Ok true.
Proof.
  split.
  - rewrite (checkCanFinalize_by_output_timestamp
               (Fixture.world false Fixture.notProven Fixture.output0 1200 "0x1"
                  1700043199)
               EmptyString ProvenRun.message 5 Fixture.output0);
      try reflexivity; vm_compute; split; first [discriminate | reflexivity].
  - rewrite (checkCanFinalize_by_output_timestamp
               (Fixture.world false Fixture.notProven Fixture.output0 1200 "0x1"
                  1700043200)
               EmptyString ProvenRun.message 5 Fixture.output0);
      try reflexivity; vm_compute; split; first [discriminate | reflexivity].
Defined.

(** X20. The outcomes of [generateWithdrawalProofForBlock]: a proof is
    returned exactly from the header of the block, the first storage-proof
    entry of [eth_getProof] and the non-empty nodes [MaybeAddProofNode]
    answers with; a panic is an empty node in that answer; an error is a
    failed header read, a failed [eth_getProof], an empty storage-proof
    list or a failed [MaybeAddProofNode]. *)
Theorem generateWithdrawalProofForBlock_outcomes
    (lib : Library) (m : CrossChainMessenger) (w : World) (message : Message)
    (blockNumber : Z) :
  let addr := Hex.HexToAddress (L2ToL1MessagePasser (Bridges (Contracts m))) in
  let slot := calculateSentMessagesSlot (WithdrawalHash message) in
  let header := L2_HeaderByNumber w (to_int64 blockNumber) in
  let proof := L2_eth_getProof w addr slot (big_Uint64 (to_int64 blockNumber)) in
  match generateWithdrawalProofForBlock lib m w message blockNumber with
  | Ok wp =>
      exists block proofResult sp0 rest,
        header = Reply block
        /\ proof = Reply proofResult
        /\ gp_StorageProof proofResult = sp0 :: rest
        /\ MaybeAddProofNode lib (copy_into 32 slot)
             (List.map Hex.FromHex (se_Proof sp0)) = Reply (wp_WithdrawalProof wp)
        /\ Forall (fun node => node <> []) (wp_WithdrawalProof wp)
        /\ wp_MessagePasserStorageRoot wp = Hex.HexToHash (gp_StorageHash proofResult)
        /\ wp_LatestBlockhash wp = hdr_Hash block
        /\ wp_StateRoot wp = copy_into 32 (hdr_Root block)
  | Panic _ =>
      exists proofResult sp0 rest nodes,
        proof = Reply proofResult
        /\ gp_StorageProof proofResult = sp0 :: rest
        /\ MaybeAddProofNode lib (copy_into 32 slot)
             (List.map Hex.FromHex (se_Proof sp0)) = Reply nodes
        /\ Exists (fun node => node = []) nodes
  | Err _ =>
      (exists e, header = Fault e)
      \/ (exists e, proof = Fault e)
      \/ (exists proofResult, proof = Reply proofResult
                              /\ gp_StorageProof proofResult = [])
      \/ (exists proofResult sp0 rest e,
            proof = Reply proofResult
            /\ gp_StorageProof proofResult = sp0 :: rest
            /\ MaybeAddProofNode lib (copy_into 32 slot)
                 (List.map Hex.FromHex (se_Proof sp0)) = Fault e)
  end.
Proof.
  cbv zeta. unfold generateWithdrawalProofForBlock.
  destruct (L2_HeaderByNumber w (to_int64 blockNumber)) as [block|e]; [|left; eauto].
  destruct (L2_eth_getProof w _ _ _) as [proofResult|e]; [|right; left; eauto].
  destruct (gp_StorageProof proofResult) as [|sp0 rest] eqn:Hsp;
    [right; right; left; eauto|].
  cbv zeta.
  destruct (MaybeAddProofNode lib _ _) as [nodes|e] eqn:Hn;
    [|right; right; right; exists proofResult, sp0, rest, e; auto].
  destruct (existsb _ nodes) eqn:Hempty.
  - exists proofResult, sp0, rest, nodes. do 3 (split; [first [reflexivity|assumption]|]).
    apply existsb_exists in Hempty as (node & Hin & Hlen).
    apply List.Exists_exists. exists node. split; [exact Hin|].
    apply Nat.eqb_eq in Hlen. now destruct node.
  - exists block, proofResult, sp0, rest.
    cbn [wp_WithdrawalProof wp_MessagePasserStorageRoot wp_LatestBlockhash
         wp_StateRoot].
    do 4 (split; [first [reflexivity|assumption]|]). split.
    + apply List.Forall_forall. intros node Hin ->.
      assert (existsb (fun proof => (List.length proof =? 0)%nat) nodes = true).
      { apply existsb_exists. exists []. split; [exact Hin|reflexivity]. }
      congruence.
    + split; [|auto]. apply copy_into_exact, HexToHash_length.
Qed.

(** ** The wallet address and the messenger *)

Lemma big_SetBytes_bound (b : bytes) :
  0 <= big_SetBytes b < 256 ^ Z.of_nat (List.length b).
Proof.
  induction b as [|x b IH] using rev_ind; [cbn; lia|].
  rewrite big_SetBytes_snoc, length_app. cbn [List.length].
  replace (Z.of_nat (List.length b + 1)) with (Z.succ (Z.of_nat (List.length b))) by lia.
  rewrite Z.pow_succ_r by lia.
  pose proof (Byte.to_N_bounded x). lia.
Qed.

Lemma big_Bytes_full (y : Z) :
  0 <= y < 2 ^ 256 ->
  (List.length (Hex.big_Bytes y) <= 32)%nat
  /\ (List.length (Hex.big_Bytes y) = 32%nat <-> 2 ^ 248 <= y).
Proof.
  intros [H0 H1]. destruct (big_Bytes_spec y H0) as (Hval & Hlen & _).
  assert (Hle : (List.length (Hex.big_Bytes y) <= 32)%nat) by (apply Hlen; exact H1).
  split; [exact Hle|]. split.
  - intros E. pose proof (big_SetBytes_bound (Hex.big_Bytes y)) as Hb.
    rewrite Hval in Hb.
    destruct (Z.le_gt_cases (2 ^ 248) y) as [|Hlt]; [assumption|].
    specialize (Hlen 31%nat Hlt). lia.
  - intros Hy. pose proof (big_SetBytes_bound (Hex.big_Bytes y)) as Hb.
    rewrite Hval in Hb.
    destruct (Nat.eq_dec (List.length (Hex.big_Bytes y)) 32%nat) as [|Hne]; [assumption|].
    assert (Hk : (List.length (Hex.big_Bytes y) <= 31)%nat) by lia.
    assert (256 ^ Z.of_nat (List.length (Hex.big_Bytes y)) <= 256 ^ 31)
      by (apply Z.pow_le_mono_r; lia).
    change (256 ^ 31) with (2 ^ 248) in *. lia.
Qed.

Lemma BigToHash_padded (n : Z) :
  0 <= n < 2 ^ 256 ->
  Hex.BigToHash n = zero_bytes (32 - List.length (Hex.big_Bytes n)) ++ Hex.big_Bytes n.
Proof.
  intros H. unfold Hex.BigToHash, Hex.BytesToHash.
  apply SetBytes_short. apply (big_Bytes_full n H).
Qed.

Lemma zero_bytes_app (a b : nat) : zero_bytes a ++ zero_bytes b = zero_bytes (a + b).
Proof. unfold zero_bytes. now rewrite repeat_app. Qed.

Lemma nth_zero_bytes (k i : nat) : nth i (zero_bytes k) Byte.x00 = Byte.x00.
Proof.
  unfold zero_bytes. revert i. induction k as [|k IH]; intros [|i]; cbn; auto.
Qed.

(** X21. [publicKeyToAddress] hashes 64 bytes: the bytes of X and of Y
    without their leading zeros, joined, and padded on the left as one
    block.  This is the uncompressed public key (each coordinate padded to
    32 bytes) exactly when Y needs all 32 bytes or X is zero; for a key
    whose Y has a leading zero byte the bytes of X are shifted and another
    address results. *)
Theorem publicKeyBytes_is_the_public_key_iff (X Y : Z) :
  0 <= X < 2 ^ 256 ->
  0 <= Y < 2 ^ 256 ->
  List.length (publicKeyBytes X Y) = 64%nat
  /\ (publicKeyBytes X Y = Hex.BigToHash X ++ Hex.BigToHash Y
      <-> X = 0 \/ 2 ^ 248 <= Y).
Proof.
  intros HX HY.
  destruct (big_Bytes_full X HX) as (Hla & _).
  destruct (big_Bytes_full Y HY) as (Hlb & Hfull).
  destruct (big_Bytes_spec X (proj1 HX)) as (_ & _ & HnilX & HheadX).
  rewrite (BigToHash_padded X HX), (BigToHash_padded Y HY).
  unfold publicKeyBytes. cbv zeta. rewrite length_app.
  set (a := Hex.big_Bytes X) in *. set (b := Hex.big_Bytes Y) in *.
  assert (Hpk : (if (List.length a + List.length b <? 64)%nat
                 then zero_bytes (64 - (List.length a + List.length b)) ++ a ++ b
                 else a ++ b)
                = zero_bytes (64 - (List.length a + List.length b)) ++ a ++ b).
  { destruct (Nat.ltb_spec (List.length a + List.length b) 64%nat); [reflexivity|].
    replace (64 - (List.length a + List.length b))%nat with 0%nat by lia.
    reflexivity. }
  rewrite Hpk. split.
  { rewrite !length_app, zero_bytes_length. lia. }
  split.
  - intros E.
    destruct (Nat.eq_dec (List.length b) 32%nat) as [Hb|Hb]; [right; now apply Hfull|].
    left. apply HnilX. destruct a as [|x a'] eqn:Ea; [reflexivity|]. exfalso.
    apply (HheadX x a' eq_refl).
    apply (f_equal (fun l => nth (32 - List.length (x :: a')) l Byte.x00)) in E.
    rewrite app_nth1 in E by (rewrite zero_bytes_length; cbn [List.length] in *; lia).
    rewrite nth_zero_bytes in E.
    rewrite <- app_assoc in E.
    rewrite app_nth2 in E by (rewrite zero_bytes_length; lia).
    rewrite zero_bytes_length, Nat.sub_diag in E. cbn in E. congruence.
  - intros [HX0|HY8].
    + apply HnilX in HX0. rewrite HX0. cbn [List.length app].
      rewrite Nat.sub_0_r, app_nil_r.
      rewrite app_assoc, zero_bytes_app. f_equal. f_equal. lia.
    + apply Hfull in HY8. rewrite HY8.
      replace (32 - 32)%nat with 0%nat by lia. cbn [zero_bytes repeat app].
      rewrite <- app_assoc. f_equal. f_equal. lia.
Qed.

Lemma publicKeyBytes_is_the_public_key_iff_witness :
  publicKeyBytes 1 (2 ^ 255 + 1) = Hex.BigToHash 1 ++ Hex.BigToHash (2 ^ 255 + 1)
  /\ publicKeyBytes (2 ^ 255) 1 <> Hex.BigToHash (2 ^ 255) ++ Hex.BigToHash 1.
Proof.
  split.
  - apply (publicKeyBytes_is_the_public_key_iff 1 (2 ^ 255 + 1));
      [vm_compute; split; [discriminate|reflexivity]
      |vm_compute; split; [discriminate|reflexivity]
      |right; vm_compute; discriminate].
  - intros E.
    apply (publicKeyBytes_is_the_public_key_iff (2 ^ 255) 1) in E;
      [|vm_compute; split; [discriminate|reflexivity]
       |vm_compute; split; [discriminate|reflexivity]].
    destruct E as [E|E]; [discriminate E|apply E; reflexivity].
Defined.

(** X22. [getWalletAddressFromPrivateKey] answers with an address only for
    a non-empty key whose text (after an optional 0x) is hex that the key
    library accepts; the address is then 0x and the 40 lower-case hex
    digits of the last 20 bytes of the hash.  An empty key, text that is
    not hex and a key the library rejects are errors. *)
Theorem getWalletAddressFromPrivateKey_outcomes
    (st : Startup) (m : CrossChainMessenger) :
  match getWalletAddressFromPrivateKey st m with
  | Ok address =>
      PrivateKey m <> EmptyString
      /\ exists key X Y,
           Hex.Decode (trim0x (PrivateKey m)) = (key, true)
           /\ ToECDSA st key = Reply (X, Y)
           /\ address = publicKeyToAddress X Y
           /\ String.length address = 42%nat
           /\ Hex.has0xPrefix address = true
           /\ Hex.FromHex address = skipn 12 (Keccak256Hash (publicKeyBytes X Y))
           /\ List.length (Hex.HexToAddress address) = 20%nat
  | Err e =>
      (PrivateKey m = EmptyString /\ e = ErrNew "private key not set")
      \/ snd (Hex.Decode (trim0x (PrivateKey m))) = false
      \/ exists key e', Hex.Decode (trim0x (PrivateKey m)) = (key, true)
                        /\ ToECDSA st key = Fault e'
  | Panic _ => False
  end.
Proof.
  unfold getWalletAddressFromPrivateKey.
  destruct (String.eqb_spec (PrivateKey m) EmptyString) as [E|Hne]; [left; auto|].
  cbv zeta. destruct (Hex.Decode (trim0x (PrivateKey m))) as [key ok] eqn:Hd.
  destruct ok; [|right; left; reflexivity].
  destruct (ToECDSA st key) as [[X Y]|e'] eqn:Hk; [|right; right; eauto].
  split; [exact Hne|]. exists key, X, Y.
  do 3 (split; [first [reflexivity|assumption]|]).
  assert (Hlen : List.length (skipn 12 (Keccak256Hash (publicKeyBytes X Y))) = 20%nat).
  { rewrite length_skipn, Keccak256Hash_length. reflexivity. }
  change (publicKeyToAddress X Y)
    with (Hex.Hash_Hex (skipn 12 (Keccak256Hash (publicKeyBytes X Y)))).
  split.
  { unfold Hex.Hash_Hex. cbn [String.length].
    rewrite EncodeToString_length, Hlen. reflexivity. }
  split; [reflexivity|]. split; [apply FromHex_Hash_Hex|].
  apply SetBytes_length.
Qed.

Section Messengers.

Lemma getEnvOrDefault_unset (st : Startup) (key defaultValue : string) :
  Getenv st key = EmptyString -> getEnvOrDefault st key defaultValue = defaultValue.
Proof. unfold getEnvOrDefault. now intros ->. Qed.

Lemma contracts_of_env_default (st : Startup) :
  Forall (fun key => Getenv st key = EmptyString) contract_variables ->
  contracts_of_env st = default_contracts.
Proof.
  intros H. unfold contracts_of_env.
  rewrite List.Forall_forall in H.
  rewrite !getEnvOrDefault_unset by (apply H; cbn; tauto).
  reflexivity.
Qed.

Lemma getTransactOpts_has_signer (m : CrossChainMessenger) (w : World) :
  KMSClient m = true \/ PrivateKey m <> EmptyString ->
  getTransactOpts m w <> Err (ErrNew "no signing method configured").
Proof.
  intros H. unfold getTransactOpts.
  destruct (KMSClient m) eqn:Hk.
  - unfold getKMSTransactOpts. rewrite Hk. cbn [negb].
    destruct (L1_ChainID w); [|discriminate].
    destruct (KMS_Transactor w _ _); discriminate.
  - destruct H as [H|H]; [discriminate|].
    destruct (String.eqb_spec (PrivateKey m) EmptyString) as [E|_]; [contradiction|].
    cbn [negb]. unfold getPrivateKeyTransactOpts.
    destruct (HexToECDSA w _); [|discriminate].
    destruct (L1_ChainID w); [|discriminate].
    destruct (Keyed_Transactor w _ _); discriminate.
Qed.

End Messengers.

(** X23. A messenger that [CreateCrossChainMessenger] returns always has a
    signer, so its signing step never answers "no signing method
    configured": either KMS_KEY_ID is set, and then the KMS client is used
    and PRIV_KEY is ignored, or KMS_KEY_ID is unset and PRIV_KEY is the
    key, with the wallet address derived from it.  Its contract addresses
    are the defaults unless a variable overrides one. *)
Theorem CreateCrossChainMessenger_has_signer
    (st : Startup) (l1RpcUrl l2RpcUrl : string) (m : CrossChainMessenger) :
  CreateCrossChainMessenger st l1RpcUrl l2RpcUrl = Ok m ->
  Contracts m = contracts_of_env st
  /\ ((Getenv st "KMS_KEY_ID" <> EmptyString
       /\ KMSClient m = true
       /\ KMSKeyID m = Getenv st "KMS_KEY_ID"
       /\ PrivateKey m = EmptyString
       /\ NewAwsKmsTransactorWithChainID st (KMSKeyID m) 1 = Reply (WalletAddress m))
      \/ (Getenv st "KMS_KEY_ID" = EmptyString
          /\ KMSClient m = false
          /\ PrivateKey m = Getenv st "PRIV_KEY"
          /\ PrivateKey m <> EmptyString
          /\ getWalletAddressFromPrivateKey st m = Ok (WalletAddress m)))
  /\ (forall w, getTransactOpts m w <> Err (ErrNew "no signing method configured"))
  /\ (Forall (fun key => Getenv st key = EmptyString) contract_variables ->
      Contracts m = default_contracts).
Proof.
  unfold CreateCrossChainMessenger. cbv zeta. intros H.
  destruct (Dial st 0%nat l1RpcUrl); [|discriminate].
  destruct (Dial st 1%nat l2RpcUrl); [|discriminate].
  destruct (String.eqb_spec (Getenv st "KMS_KEY_ID") EmptyString) as [Ek|Ek];
    cbn [negb] in H.
  - destruct (String.eqb_spec (Getenv st "PRIV_KEY") EmptyString) as [Ep|Ep];
      cbn [negb] in H; [discriminate|].
    destruct (getWalletAddressFromPrivateKey st _) as [address| |] eqn:Hw;
      try discriminate.
    injection H as <-. cbn [Contracts KMSClient KMSKeyID PrivateKey WalletAddress].
    split; [reflexivity|]. split.
    { right. repeat (split; [first [reflexivity|assumption]|]).
      unfold getWalletAddressFromPrivateKey in *.
      cbn [PrivateKey] in *. exact Hw. }
    split.
    { intros w. apply getTransactOpts_has_signer. right. exact Ep. }
    apply contracts_of_env_default.
  - destruct (LoadDefaultConfig st); [|discriminate].
    destruct (NewAwsKmsTransactorWithChainID st _ 1) as [address|] eqn:Hk;
      [|discriminate].
    injection H as <-. cbn [Contracts KMSClient KMSKeyID PrivateKey WalletAddress].
    split; [reflexivity|]. split.
    { left. repeat (split; [first [reflexivity|assumption]|]). exact Hk. }
    split.
    { intros w. apply getTransactOpts_has_signer. now left. }
    apply contracts_of_env_default.
Qed.

Lemma CreateCrossChainMessenger_has_signer_witness :
  CreateCrossChainMessenger KeyStartup.st "http://l1" "http://l2"
  = Ok KeyStartup.messenger
  /\ Contracts KeyStartup.messenger = default_contracts.
Proof.
  assert (E : CreateCrossChainMessenger KeyStartup.st "http://l1" "http://l2"
              = Ok KeyStartup.messenger) by (vm_compute; reflexivity).
  split; [exact E|].
  destruct (CreateCrossChainMessenger_has_signer KeyStartup.st "http://l1" "http://l2"
              KeyStartup.messenger E) as (_ & _ & _ & H).
  apply H. repeat constructor.
Defined.

(** ** Hex numbers *)

Section ParseHex.

Lemma digit_value_digit (d : N) :
  (d < 16)%N -> Strconv.digit_value (Hex.digit d) = Some (Z.of_N d).
Proof.
  intros H.
  assert (Hd : In d (List.map N.of_nat (seq 0 16))).
  { apply in_map_iff. exists (N.to_nat d). split; [lia|]. apply in_seq. lia. }
  cbn in Hd.
  repeat (destruct Hd as [<-|Hd]; [reflexivity|]). destruct Hd.
Qed.

Lemma parse_loop_step (d : N) (rest : string) (n : Z) :
  (d < 16)%N ->
  0 <= n < 2 ^ 60 ->
  Strconv.parse_loop (String (Hex.digit d) rest) n
  = Strconv.parse_loop rest (n * 16 + Z.of_N d).
Proof.
  intros Hd Hn. cbn [Strconv.parse_loop]. rewrite digit_value_digit by exact Hd.
  cbv zeta.
  destruct (Z.geb_spec (Z.of_N d) 16); [lia|].
  change (Strconv.maxUint64 / 16 + 1) with (2 ^ 60).
  destruct (Z.geb_spec n (2 ^ 60)); [lia|].
  assert (H16 : to_uint64 (n * 16) = n * 16).
  { unfold to_uint64. apply Z.mod_small. unfold two64. lia. }
  rewrite H16.
  assert (H1 : to_uint64 (n * 16 + Z.of_N d) = n * 16 + Z.of_N d).
  { unfold to_uint64. apply Z.mod_small. unfold two64. lia. }
  rewrite H1.
  destruct (Z.ltb_spec (n * 16 + Z.of_N d) (n * 16)); [lia|].
  destruct (Z.gtb_spec (n * 16 + Z.of_N d) Strconv.maxUint64) as [Hgt|_];
    [unfold Strconv.maxUint64, two64 in Hgt; lia|].
  reflexivity.
Qed.

(** Parsing the digits of [n] first, from 0, leaves [n] in the loop. *)
Lemma parse_loop_hex_digits (fuel : nat) (n : N) (acc : string) :
  (n < 16 ^ N.of_nat fuel)%N ->
  (n < 2 ^ 64)%N ->
  (0 < fuel)%nat ->
  Strconv.parse_loop (Strconv.hex_digits fuel n acc) 0
  = Strconv.parse_loop acc (Z.of_N n).
Proof.
  revert n acc. induction fuel as [|fuel IH]; intros n acc Hn H64 Hf; [lia|].
  cbn [Strconv.hex_digits]. cbv zeta.
  assert (Hmod : (n mod 16 < 16)%N) by (apply N.mod_upper_bound; discriminate).
  assert (Hdm : n = (16 * (n / 16) + n mod 16)%N) by (apply N.div_mod; discriminate).
  destruct (N.eqb_spec (n / 16) 0) as [Hz|Hnz].
  - rewrite parse_loop_step; [|exact Hmod|split; [lia|reflexivity]].
    f_equal. rewrite Hdm at 2. rewrite Hz. lia.
  - assert (Hdiv : (n / 16 < 16 ^ N.of_nat fuel)%N).
    { apply N.Div0.div_lt_upper_bound.
      replace (N.of_nat (S fuel)) with (N.succ (N.of_nat fuel)) in Hn by lia.
      rewrite N.pow_succ_r' in Hn. exact Hn. }
    assert (Hfuel : (0 < fuel)%nat).
    { destruct fuel; [|lia]. change (16 ^ N.of_nat 0)%N with 1%N in Hdiv.
      exfalso. apply Hnz. now apply N.lt_1_r. }
    assert (Hd64 : (n / 16 < 2 ^ 60)%N).
    { apply N.Div0.div_lt_upper_bound. change (16 * 2 ^ 60)%N with (2 ^ 64)%N. exact H64. }
    rewrite IH; [|exact Hdiv| |exact Hfuel].
    2: { eapply N.lt_trans; [exact Hd64|]. reflexivity. }
    rewrite parse_loop_step; [|exact Hmod|].
    2: { split; [apply N2Z.is_nonneg|].
         change (2 ^ 60) with (Z.of_N (2 ^ 60)). apply N2Z.inj_lt. exact Hd64. }
    f_equal. rewrite Hdm at 3. rewrite N2Z.inj_add, N2Z.inj_mul.
    set (q := (n / 16)%N). set (r := (n mod 16)%N). clearbody q r. lia.
Qed.

Lemma hex_digits_not_empty (fuel : nat) (n : N) (acc : string) :
  (0 < fuel)%nat -> Strconv.hex_digits fuel n acc <> EmptyString.
Proof.
  revert n acc. induction fuel as [|fuel IH]; intros n acc Hf; [lia|].
  cbn [Strconv.hex_digits]. cbv zeta.
  destruct (n / 16 =? 0)%N; [discriminate|].
  destruct fuel as [|fuel']; [cbn; discriminate|]. apply IH. lia.
Qed.

Lemma parse_loop_result (s : string) (n : Z) :
  0 <= n < two64 ->
  match Strconv.parse_loop s n with
  | (v, None) => 0 <= v < two64
  | (v, Some e) =>
      (e = Strconv.ErrSyntax /\ v = 0) \/ (e = Strconv.ErrRange /\ v = two64 - 1)
  end.
Proof.
  revert n. induction s as [|c s IH]; intros n Hn; [exact Hn|].
  cbn [Strconv.parse_loop].
  destruct (Strconv.digit_value c) as [d|]; [|left; auto].
  destruct (d >=? 16); [left; auto|]. cbv zeta.
  destruct (n >=? _); [right; auto|].
  destruct (_ || _); [right; auto|].
  apply IH. unfold to_uint64. apply Z.mod_pos_bound. reflexivity.
Qed.

End ParseHex.

(** X24. [parseHexToUint64] reads back what ["0x%x"] writes: for every
    [uint64] value, parsing the text that [eth_getProof] is given as block
    parameter returns the value and no error. *)
Theorem parseHexToUint64_reads_blockNumHex (n : Z) :
  0 <= n < two64 ->
  parseHexToUint64 (blockNumHex n) = (n, None).
Proof.
  intros Hn. unfold parseHexToUint64, blockNumHex. cbn [trim0x].
  unfold Strconv.ParseUint16, Strconv.FormatHex.
  pose proof (hex_digits_not_empty 16 (Z.to_N n) EmptyString) as Hne.
  destruct (Strconv.hex_digits 16 (Z.to_N n) EmptyString) as [|c rest] eqn:E;
    [exfalso; apply Hne; [lia|reflexivity]|].
  rewrite <- E. rewrite parse_loop_hex_digits.
  - cbn [Strconv.parse_loop]. f_equal. lia.
  - change (16 ^ N.of_nat 16)%N with (Z.to_N two64). unfold two64 in *. lia.
  - change (2 ^ 64)%N with (Z.to_N two64). unfold two64 in *. lia.
  - lia.
Qed.

Lemma parseHexToUint64_reads_blockNumHex_witness :
  blockNumHex 1200 = "0x4b0" /\ parseHexToUint64 "0x4b0" = (1200, None).
Proof.
  split; [vm_compute; reflexivity|].
  change "0x4b0" with (blockNumHex 1200).
  apply parseHexToUint64_reads_blockNumHex. vm_compute. split; [discriminate|reflexivity].
Defined.

(** X25. What [parseHexToUint64] returns: without an error a value below
    2^64; with a syntax error 0; with a range error 2^64 - 1.  The empty
    text and a bare ["0x"] are syntax errors, and so is every text that
    starts with ["0X"]: only the lower-case prefix is removed, and [X] is
    no hex digit. *)
Theorem parseHexToUint64_results (hexStr : string) :
  match parseHexToUint64 hexStr with
  | (v, None) => 0 <= v < two64 /\ trim0x hexStr <> EmptyString
  | (v, Some e) =>
      (e = Strconv.ErrSyntax /\ v = 0) \/ (e = Strconv.ErrRange /\ v = two64 - 1)
  end
  /\ parseHexToUint64 EmptyString = (0, Some Strconv.ErrSyntax)
  /\ parseHexToUint64 "0x" = (0, Some Strconv.ErrSyntax)
  /\ parseHexToUint64 (String "0" (String "X" hexStr)) = (0, Some Strconv.ErrSyntax).
Proof.
  split; [|repeat split].
  unfold parseHexToUint64, Strconv.ParseUint16.
  destruct (trim0x hexStr) as [|c s] eqn:E; [left; auto|].
  pose proof (parse_loop_result (String c s) 0) as H.
  destruct (Strconv.parse_loop (String c s) 0) as [v [e|]].
  - apply H. unfold two64. lia.
  - split; [apply H; unfold two64; lia|discriminate].
Qed.

(** ** The list of hashes in the environment *)

Section HashList.

Lemma append_cons (c : ascii) (a b : string) : String c a +:+ b = String c (a +:+ b).
Proof. reflexivity. Qed.

Lemma append_nil (b : string) : EmptyString +:+ b = b.
Proof. reflexivity. Qed.

Lemma list_ascii_of_string_app (a b : string) :
  list_ascii_of_string (a +:+ b) = list_ascii_of_string a ++ list_ascii_of_string b.
Proof.
  induction a as [|c a IH]; [reflexivity|]. rewrite append_cons. cbn. now rewrite IH.
Qed.

Lemma TrimSpace_start_blank (l : string) (rest : list ascii) :
  all_chars Strings.asciiSpace l = true ->
  Strings.TrimSpace_start (list_ascii_of_string l ++ rest) = Strings.TrimSpace_start rest.
Proof.
  induction l as [|c l IH]; [reflexivity|]. cbn [all_chars].
  intros H. apply andb_true_iff in H as [Hc Hl]. cbn.
  assert (Hlt : (Strings.RuneSelf <=? Strings.byteZ c) = false).
  { unfold Strings.asciiSpace, Strings.RuneSelf in *. cbv zeta in Hc. lia. }
  rewrite Hlt, Hc. now apply IH.
Qed.

Lemma TrimSpace_stop_blank (r : string) (rest : list ascii) :
  all_chars Strings.asciiSpace r = true ->
  Strings.TrimSpace_stop (rev (list_ascii_of_string r) ++ rest) = Strings.TrimSpace_stop rest.
Proof.
  revert rest. induction r as [|c r IH]; intros rest; [reflexivity|]. cbn [all_chars].
  intros H. apply andb_true_iff in H as [Hc Hr].
  cbn [list_ascii_of_string rev]. rewrite <- app_assoc. rewrite IH by exact Hr.
  cbn.
  assert (Hlt : (Strings.RuneSelf <=? Strings.byteZ c) = false).
  { unfold Strings.asciiSpace, Strings.RuneSelf in *. cbv zeta in Hc. lia. }
  now rewrite Hlt, Hc.
Qed.

Lemma graphic_stops (c : ascii) :
  is_graphic c = true ->
  (Strings.RuneSelf <=? Strings.byteZ c) = false /\ Strings.asciiSpace c = false.
Proof.
  unfold is_graphic, Strings.asciiSpace, Strings.RuneSelf. cbv zeta. lia.
Qed.

Lemma all_chars_last (p : ascii -> bool) (s : string) (c : ascii) (before : list ascii) :
  all_chars p s = true ->
  rev (list_ascii_of_string s) = c :: before ->
  p c = true.
Proof.
  intros H E.
  assert (Hin : In c (list_ascii_of_string s)).
  { apply in_rev. rewrite E. now left. }
  clear E. induction s as [|x s IH]; [destruct Hin|].
  cbn in H, Hin. apply andb_true_iff in H as [Hx Hs].
  destruct Hin as [<-|Hin]; auto.
Qed.

(** [TrimSpace] gives the hash of an entry. *)
Lemma TrimSpace_entry (e : Entry) :
  well_formed_entry e = true -> Strings.TrimSpace (entry_text e) = entry_hash e.
Proof.
  unfold well_formed_entry, entry_text. destruct e as [l h r]. cbn [entry_before
    entry_hash entry_after]. intros H.
  apply andb_true_iff in H as [H Hr]. apply andb_true_iff in H as [Hl Hh].
  unfold Strings.TrimSpace. rewrite !list_ascii_of_string_app.
  rewrite TrimSpace_start_blank by exact Hl.
  destruct h as [|c h].
  - cbn [list_ascii_of_string app].
    rewrite <- (app_nil_r (list_ascii_of_string r)).
    rewrite TrimSpace_start_blank by exact Hr. reflexivity.
  - cbn [all_chars] in Hh. apply andb_true_iff in Hh as [Hc Hh].
    destruct (graphic_stops c Hc) as [H1 H2].
    cbn [list_ascii_of_string app Strings.TrimSpace_start]. rewrite H1, H2.
    change (c :: list_ascii_of_string h ++ list_ascii_of_string r)
      with (list_ascii_of_string (String c h) ++ list_ascii_of_string r).
    rewrite rev_app_distr, TrimSpace_stop_blank by exact Hr.
    destruct (rev (list_ascii_of_string (String c h))) as [|z before] eqn:E.
    + apply (f_equal (@List.length ascii)) in E. rewrite length_rev in E. discriminate.
    + assert (Hz : is_graphic z = true).
      { apply (all_chars_last is_graphic (String c h) z before); [|exact E].
        cbn [all_chars]. now rewrite Hc, Hh. }
      destruct (graphic_stops z Hz) as [H3 H4].
      cbn [Strings.TrimSpace_stop]. rewrite H3, H4, <- E, rev_involutive.
      apply string_of_list_ascii_of_string.
Qed.

Lemma graphic_not_comma (c : ascii) : is_graphic c = true -> c <> ","%char.
Proof. intros H ->. discriminate H. Qed.

Lemma asciiSpace_not_comma (c : ascii) : Strings.asciiSpace c = true -> c <> ","%char.
Proof. intros H ->. discriminate H. Qed.

Lemma all_chars_app (p : ascii -> bool) (a b : string) :
  all_chars p (a +:+ b) = all_chars p a && all_chars p b.
Proof.
  induction a as [|c a IH]; [reflexivity|]. rewrite append_cons. cbn.
  now rewrite IH, andb_assoc.
Qed.

Lemma all_chars_impl (p q : ascii -> bool) (s : string) :
  (forall c, p c = true -> q c = true) -> all_chars p s = true -> all_chars q s = true.
Proof.
  intros Hpq. induction s as [|c s IH]; [reflexivity|]. cbn.
  intros H. apply andb_true_iff in H as [Hc Hs]. now rewrite (Hpq c Hc), IH.
Qed.

Lemma entry_text_no_comma (e : Entry) :
  well_formed_entry e = true ->
  all_chars (fun c => negb (Ascii.eqb c ",")) (entry_text e) = true.
Proof.
  unfold well_formed_entry, entry_text. intros H.
  apply andb_true_iff in H as [H Hr]. apply andb_true_iff in H as [Hl Hh].
  rewrite !all_chars_app.
  rewrite (all_chars_impl Strings.asciiSpace _ _ (fun c Hc =>
             proj2 (negb_true_iff _) (proj2 (Ascii.eqb_neq _ _)
                                        (asciiSpace_not_comma c Hc))) Hl).
  rewrite (all_chars_impl is_graphic _ _ (fun c Hc =>
             proj2 (negb_true_iff _) (proj2 (Ascii.eqb_neq _ _)
                                        (graphic_not_comma c Hc))) Hh).
  rewrite (all_chars_impl Strings.asciiSpace _ _ (fun c Hc =>
             proj2 (negb_true_iff _) (proj2 (Ascii.eqb_neq _ _)
                                        (asciiSpace_not_comma c Hc))) Hr).
  reflexivity.
Qed.

Lemma split_at_comma_one (s : string) :
  all_chars (fun c => negb (Ascii.eqb c ",")) s = true ->
  Strings.split_at "," 0 s = [s].
Proof.
  induction s as [|c s IH]; [reflexivity|]. cbn [all_chars].
  intros H. apply andb_true_iff in H as [Hc Hs].
  apply negb_true_iff, Ascii.eqb_neq in Hc.
  cbn [Strings.split_at String.prefix].
  destruct (ascii_dec "," c) as [E|_]; [congruence|].
  now rewrite IH.
Qed.

Lemma split_at_comma_app (s rest : string) :
  all_chars (fun c => negb (Ascii.eqb c ",")) s = true ->
  Strings.split_at "," 0 (s +:+ String "," rest) = s :: Strings.split_at "," 0 rest.
Proof.
  induction s as [|c s IH].
  - intros _. rewrite append_nil. cbn. destruct rest; reflexivity.
  - cbn [all_chars]. intros H. apply andb_true_iff in H as [Hc Hs].
    apply negb_true_iff, Ascii.eqb_neq in Hc.
    rewrite append_cons. cbn [Strings.split_at String.prefix].
    destruct (ascii_dec "," c) as [E|_]; [congruence|].
    now rewrite IH.
Qed.

Lemma Split_concat_comma (parts : list string) :
  parts <> [] ->
  Forall (fun s => all_chars (fun c => negb (Ascii.eqb c ",")) s = true) parts ->
  Strings.Split (String.concat "," parts) "," = parts.
Proof.
  unfold Strings.Split. intros Hne H.
  induction parts as [|s parts IH]; [contradiction|].
  inversion H as [|? ? Hs Hparts]; subst.
  destruct parts as [|s2 parts].
  - cbn [String.concat]. now apply split_at_comma_one.
  - cbn [String.concat]. rewrite append_cons, append_nil.
    rewrite split_at_comma_app by exact Hs. f_equal.
    apply IH; [discriminate|exact Hparts].
Qed.

Lemma splitAndTrim_entries (entries : list Entry) :
  Forall (fun e => well_formed_entry e = true) entries ->
  Main.splitAndTrim (String.concat "," (List.map entry_text entries)) ","
  = List.filter nonempty (List.map entry_hash entries).
Proof.
  intros H. unfold Main.splitAndTrim. cbv zeta.
  destruct entries as [|e entries]; [reflexivity|].
  rewrite Split_concat_comma.
  - f_equal. rewrite List.map_map. apply List.map_ext_in.
    intros x Hx. apply TrimSpace_entry.
    rewrite List.Forall_forall in H. now apply H.
  - discriminate.
  - rewrite List.Forall_forall in *. intros s Hs.
    apply in_map_iff in Hs as (x & <- & Hx). apply entry_text_no_comma. now apply H.
Qed.

Lemma filter_nonempty_idem (l : list string) :
  List.filter nonempty (List.filter nonempty l) = List.filter nonempty l.
Proof.
  induction l as [|x l IH]; [reflexivity|]. cbn.
  destruct (nonempty x) eqn:E; [cbn; now rewrite E, IH|exact IH].
Qed.

End HashList.

(** X26. [splitAndTrim] reads a comma-separated list of hashes: for
    entries written as a hash of printable ASCII characters with ASCII
    white space around it, it returns the hashes in order, and drops the
    entries that hold no hash (two commas in a row, a trailing comma,
    spaces only). *)
Theorem splitAndTrim_reads_hash_list (entries : list Entry) :
  Forall (fun e => well_formed_entry e = true) entries ->
  Main.splitAndTrim (String.concat "," (List.map entry_text entries)) ","
  = List.filter nonempty (List.map entry_hash entries)
  /\ Forall (fun h => h <> EmptyString)
       (Main.splitAndTrim (String.concat "," (List.map entry_text entries)) ",").
Proof.
  intros H. pose proof (splitAndTrim_entries entries H) as E.
  split; [exact E|]. rewrite E. apply List.Forall_forall.
  intros h Hin. apply List.filter_In in Hin as [_ Hn]. intros ->. discriminate Hn.
Qed.

Lemma splitAndTrim_reads_hash_list_witness :
  Main.splitAndTrim " 0xaa, 0xbb ,, 0xcc," "," = ["0xaa"; "0xbb"; "0xcc"].
Proof.
  destruct (splitAndTrim_reads_hash_list
              [mkEntry " " "0xaa" EmptyString; mkEntry " " "0xbb" " ";
               mkEntry EmptyString EmptyString EmptyString;
               mkEntry " " "0xcc" EmptyString;
               mkEntry EmptyString EmptyString EmptyString]) as (H & _).
  - repeat constructor.
  - exact H.
Defined.

(** ** Start-up of the scheduler *)

Lemma CreateCrossChainMessenger_signer_fields
    (st : Startup) (l1RpcUrl l2RpcUrl : string) (m : CrossChainMessenger) :
  CreateCrossChainMessenger st l1RpcUrl l2RpcUrl = Ok m ->
  KMSClient m = true \/ PrivateKey m <> EmptyString.
Proof.
  unfold CreateCrossChainMessenger. cbv zeta. intros H.
  destruct (Dial st 0%nat l1RpcUrl); [|discriminate].
  destruct (Dial st 1%nat l2RpcUrl); [|discriminate].
  destruct (negb (Getenv st "KMS_KEY_ID" =? EmptyString)%string).
  - destruct (LoadDefaultConfig st); [|discriminate].
    destruct (NewAwsKmsTransactorWithChainID st _ 1); [|discriminate].
    injection H as <-. now left.
  - destruct (String.eqb_spec (Getenv st "PRIV_KEY") EmptyString) as [Ep|Ep];
      cbn [negb] in H; [discriminate|].
    destruct (getWalletAddressFromPrivateKey st _); try discriminate.
    injection H as <-. now right.
Qed.

Lemma withdrawalHashes_of_env_splitAndTrim (st : Startup) :
  Main.withdrawalHashes_of_env st
  = Main.splitAndTrim (Getenv st "WITHDRAWAL_TX_HASH") ",".
Proof.
  unfold Main.withdrawalHashes_of_env. cbv zeta.
  destruct (String.eqb_spec (Getenv st "WITHDRAWAL_TX_HASH") EmptyString) as [->|_];
    cbn [negb]; [reflexivity|].
  unfold Main.splitAndTrim. cbv zeta. apply filter_nonempty_idem.
Qed.

(** X27. When [NewWithdrawalScheduler] succeeds, both RPC variables are
    set, the messenger is the one [CreateCrossChainMessenger] built (so it
    has a signer), and the tracked hashes are exactly what [splitAndTrim]
    reads from WITHDRAWAL_TX_HASH: none of them is empty, so the second
    emptiness test drops nothing and the empty-hash guard of
    [CheckWithdrawal] is never taken for them.  Each has a zero status,
    the context is live and nothing has been sent. *)
Theorem NewWithdrawalScheduler_from_env
    (st : Startup) (m : CrossChainMessenger) (s : WithdrawalScheduler) :
  Main.NewWithdrawalScheduler st = Ok (m, s) ->
  Getenv st "L1_RPC" <> EmptyString
  /\ Getenv st "L2_RPC" <> EmptyString
  /\ CreateCrossChainMessenger st (Getenv st "L1_RPC") (Getenv st "L2_RPC") = Ok m
  /\ (forall w, getTransactOpts m w <> Err (ErrNew "no signing method configured"))
  /\ withdrawalHashes s = Main.splitAndTrim (Getenv st "WITHDRAWAL_TX_HASH") ","
  /\ Forall (fun h => h <> EmptyString) (withdrawalHashes s)
  /\ (forall h, In h (withdrawalHashes s) ->
                withdrawalStatus s !! h = Some WithdrawalStatus_zero)
  /\ cancelled s = false
  /\ events s = [].
Proof.
  unfold Main.NewWithdrawalScheduler. cbv zeta. intros H.
  destruct (String.eqb_spec (Getenv st "L1_RPC") EmptyString) as [|H1]; [discriminate|].
  destruct (String.eqb_spec (Getenv st "L2_RPC") EmptyString) as [|H2]; [discriminate|].
  destruct (CreateCrossChainMessenger st _ _) as [messenger| |] eqn:Hc; try discriminate.
  destruct (Dial st 2%nat _); [|discriminate].
  injection H as <- <-.
  split; [exact H1|]. split; [exact H2|]. split; [reflexivity|].
  split.
  { intros w. apply getTransactOpts_has_signer.
    exact (CreateCrossChainMessenger_signer_fields _ _ _ _ Hc). }
  cbn [withdrawalHashes cancelled events NewWithdrawalScheduler].
  split; [apply withdrawalHashes_of_env_splitAndTrim|].
  split.
  { rewrite withdrawalHashes_of_env_splitAndTrim. unfold Main.splitAndTrim. cbv zeta.
    apply List.Forall_forall. intros h Hin.
    apply List.filter_In in Hin as [_ Hn]. intros ->. discriminate Hn. }
  split; [|split; reflexivity].
  intros h Hin. unfold NewWithdrawalScheduler. cbn [withdrawalStatus].
  rewrite fold_insert_zero_lookup, bool_decide_eq_true_2; [reflexivity|].
  now apply list_elem_of_In.
Qed.

Lemma NewWithdrawalScheduler_from_env_witness :
  Main.NewWithdrawalScheduler KeyStartup.st
  = Ok (KeyStartup.messenger, NewWithdrawalScheduler [Fixture.tx0])
  /\ withdrawalHashes (NewWithdrawalScheduler [Fixture.tx0]) = [Fixture.tx0].
Proof.
  assert (E : Main.NewWithdrawalScheduler KeyStartup.st
              = Ok (KeyStartup.messenger, NewWithdrawalScheduler [Fixture.tx0]))
    by (vm_compute; reflexivity).
  split; [exact E|].
  destruct (NewWithdrawalScheduler_from_env KeyStartup.st KeyStartup.messenger
              (NewWithdrawalScheduler [Fixture.tx0]) E) as (_ & _ & _ & _ & H & _).
  rewrite H. vm_compute. reflexivity.
Defined.

(** ** The status report, and proving what is proven already *)

(** X28. [CheckMessageStatus] fails exactly when [getMessages] fails,
    with that error wrapped, and otherwise prints the status of the
    message with its description: RELAYED/FINALIZED exactly when the portal
    reports the withdrawal finalized, PROVEN for status 1, READY_TO_PROVE
    for status 0, never UNKNOWN. *)
Theorem CheckMessageStatus_reports_portal_status
    (lib : Library) (m : CrossChainMessenger) (w : World) (txHash : string)
    (messageIndex : Z) :
  match CheckMessageStatus lib m w txHash messageIndex with
  | Ok (status, description) =>
      exists message,
        getMessages lib m w txHash = Ok message
        /\ status = Status message
        /\ (description = "RELAYED/FINALIZED"
            <-> Portal_FinalizedWithdrawals w (portal_address m)
                  (Hex.HexToHash (WithdrawalHash message)) = Reply true)
        /\ (description = "PROVEN" <-> status = 1)
        /\ (description = "READY_TO_PROVE" <-> status = 0)
        /\ description <> "UNKNOWN"
  | Err e =>
      exists e', getMessages lib m w txHash = Err e'
                 /\ e = ErrWrap "failed to get messages" e'
  | Panic p => getMessages lib m w txHash = Panic p
  end.
Proof.
  unfold CheckMessageStatus.
  destruct (getMessages lib m w txHash) as [message|e|p] eqn:Hm; [|eauto|reflexivity].
  exists message. split; [reflexivity|]. split; [reflexivity|].
  apply getMessages_inv in Hm as (receipt & evt & _ & _ & ->).
  unfold message_of. cbn [Status WithdrawalHash]. unfold status_on_chain, spec_status.
  destruct (Portal_FinalizedWithdrawals w _ _) as [[|]|e].
  - cbn. repeat split; try discriminate; auto.
  - destruct (Portal_ProvenWithdrawals w _ _) as [r|e]; [destruct (bool_decide _)|];
      cbn; repeat split; try discriminate; auto.
  - destruct (Portal_ProvenWithdrawals w _ _) as [r|e']; [destruct (bool_decide _)|];
      cbn; repeat split; try discriminate; auto.
Qed.

(** X29. [ProveMessage] skips only a withdrawal that reads finalized: what
    the portal says about an earlier proof plays no part.  For a
    withdrawal that is not finalized it does the same and sends the same,
    whether [provenWithdrawals] shows a proof or not - a withdrawal that
    is proven already is proven again. *)
Theorem ProveMessage_ignores_proven_status
    (lib : Library) (m : CrossChainMessenger) (w : World)
    (f : bytes -> bytes -> reply ProvenWithdrawal) (txHash : string)
    (messageIndex : Z) (message : Message) :
  getMessages lib m w txHash = Ok message ->
  Status message < 2 ->
  ProveMessage lib m (with_proven f w) txHash messageIndex
  = ProveMessage lib m w txHash messageIndex.
Proof.
  intros Hm Hs.
  pose proof Hm as Hinv.
  apply getMessages_inv in Hinv as (receipt & evt & Hr & Hf & ->).
  assert (Hm' : getMessages lib m (with_proven f w) txHash
                = Ok (message_of lib m receipt evt
                        (status_on_chain m (with_proven f w)
                           (Hex.EncodeToString (mp_WithdrawalHash evt)))))
    by (apply getMessages_complete; assumption).
  assert (Hs' : status_on_chain m (with_proven f w)
                  (Hex.EncodeToString (mp_WithdrawalHash evt)) < 2).
  { unfold message_of in Hs. cbn [Status] in Hs.
    unfold status_on_chain, spec_status in *.
    cbn [Portal_FinalizedWithdrawals Portal_ProvenWithdrawals with_proven].
    destruct (Portal_FinalizedWithdrawals w _ _) as [[|]|e]; [lia| |];
      (destruct (f _ _) as [r|e']; [destruct (bool_decide _)|]; lia). }
  unfold ProveMessage. rewrite Hm, Hm'.
  unfold message_of in *. cbn [Status BlockNumber MessagePassedEvent] in *.
  rewrite (geb_false _ _ Hs), (geb_false _ _ Hs').
  reflexivity.
Qed.

Lemma ProveMessage_ignores_proven_status_witness :
  snd (ProveMessage Fixture.lib0 Fixture.m0
         (with_proven (fun _ _ => Reply (Fixture.provenAt 1700000000))
            SameWithdrawal.proving) Fixture.tx0 0)
  = [SameWithdrawal.proveCall]
  /\ status_on_chain Fixture.m0
       (with_proven (fun _ _ => Reply (Fixture.provenAt 1700000000))
          SameWithdrawal.proving)
       (Hex.EncodeToString Fixture.withdrawalHash0) = 1.
Proof.
  split; [|vm_compute; reflexivity].
  rewrite (ProveMessage_ignores_proven_status Fixture.lib0 Fixture.m0
             SameWithdrawal.proving
             (fun _ _ => Reply (Fixture.provenAt 1700000000)) Fixture.tx0 0
             RootMismatch.message).
  - vm_compute; reflexivity.
  - vm_compute; reflexivity.
  - reflexivity.
Defined.
